(** * duet-company/backend: the credential and token service

    A shallow embedding of [app/core/security.py], [app/auth/service.py] and
    the schemas of [app/schemas/user.py], with the properties of the
    credential and token service stated and proved over it.

    The service delegates to three third-party packages.  Each is modelled
    at the level of its documented behaviour, with the cryptographic
    primitives (the bcrypt digest, the HMAC, the base64url and JSON codecs)
    left as interfaces:
    - passlib's [CryptContext(schemes=["bcrypt"])] (module [Passlib]),
    - python-jose's [jwt.encode] and [jwt.decode] (module [Jose]),
    - pydantic's field validation (module [Schemas]).

    The clock and the salt generator are read by the Python code as ambient
    state; here the current time and the drawn salt are explicit arguments.

    A Python [str] is represented by its UTF-8 encoding: a [string] is the
    sequence of its bytes.  [String.length] is therefore the length of the
    encoded bytes, which is what passlib measures a secret by, and
    [Str.code_points] is Python's [len], which is what pydantic measures a
    field by. *)

From Stdlib Require Import ZArith Ascii String List Bool Lia.
From stdpp Require Import base option list gmap strings pretty.

Local Open Scope Z_scope.

(** ** Python values, exceptions and results *)

(** The exceptions the modelled code can raise.  [JWTError] stands for
    [jose.exceptions.JWTError] and its subclasses ([ExpiredSignatureError],
    [JWTClaimsError]); the passlib errors are all subclasses of
    [ValueError]; [ValidationError] is pydantic's. *)
Inductive jwt_failure : Type :=
| NotEnoughSegments
| InvalidHeader
| InvalidPayload
| InvalidCrypto
| AlgorithmNotAllowed
| SignatureFailed
| ExpiredSignature
| InvalidClaims.

Inductive exn : Type :=
| JWTError (why : jwt_failure)
| TypeError
| ValueError
| ValidationError
| UnknownHashError
| MissingDigestError
| PasswordSizeError
| NullPasswordError
| OverflowError
| RecursionError.

Inductive result (A : Type) : Type :=
| Ok (a : A)
| Raise (e : exn).

Arguments Ok {A} a.
Arguments Raise {A} e.

(** [result] is an error monad; stdpp's notation [x ← r; k] sequences two
    computations and propagates the first exception. *)
Global Instance result_ret : MRet result := fun A a => Ok a.

Global Instance result_bind : MBind result := fun A B k r =>
  match r with
  | Ok a => k a
  | Raise e => Raise e
  end.

(** [or_raise e o]: the value of [o], or raise [e]. *)
Definition or_raise {A : Type} (e : exn) (o : option A) : result A :=
  match o with
  | Some a => Ok a
  | None => Raise e
  end.

Definition is_JWTError (e : exn) : bool :=
  match e with
  | JWTError _ => true
  | _ => false
  end.

(** [try: body except JWTError: return fallback]. *)
Definition except_JWTError {A : Type} (body : result A) (fallback : A) : result A :=
  match body with
  | Ok a => Ok a
  | Raise e => if is_JWTError e then Ok fallback else Raise e
  end.

(** JSON values as [json.loads] returns them.  Arrays and objects are kept
    as their source text ([JCompound]), and so are the numbers Python reads
    as floats ([JFloat]): those written with a fraction or an exponent, and
    [Infinity], [-Infinity] and [NaN]. *)
Inductive jvalue : Type :=
| JNull
| JBool (b : bool)
| JInt (n : Z)
| JStr (s : string)
| JCompound (raw : string)
| JFloat (raw : string).

(** A Python [dict] with string keys. *)
Abbreviation dict := (gmap string jvalue).

(** [d.get(k)]: the value under [k], or [None] (here [JNull]). *)
Definition dict_get (d : dict) (k : string) : jvalue :=
  match d !! k with
  | Some v => v
  | None => JNull
  end.

(** [v is None]. *)
Definition is_None (v : jvalue) : bool :=
  match v with
  | JNull => true
  | _ => false
  end.

(** [bool(v)]: the truth value of a JSON value.  A compound or a float is
    taken in the text [json.dumps] gives it, so an empty array or object is
    false, and so is a zero. *)
Definition truth (v : jvalue) : bool :=
  match v with
  | JNull => false
  | JBool b => b
  | JInt n => negb (n =? 0)
  | JStr s => negb (String.eqb s EmptyString)
  | JCompound raw => negb (String.eqb raw "[]" || String.eqb raw "{}")
  | JFloat raw => negb (String.eqb raw "0.0" || String.eqb raw "-0.0")
  end.

(** What an endpoint or a dependency ends with: a value, an
    [HTTPException], or an exception nothing has caught. *)
Inductive raised : Type :=
| HTTPException (status_code : Z) (detail : string) (headers : list (string * string))
| Uncaught (e : exn).

Inductive outcome (A : Type) : Type :=
| Done (a : A)
| Abort (r : raised).

Arguments Done {A} a.
Arguments Abort {A} r.

Global Instance outcome_ret : MRet outcome := fun A a => Done a.

Global Instance outcome_bind : MBind outcome := fun A B k r =>
  match r with
  | Done a => k a
  | Abort e => Abort e
  end.

(** A call of a function that raises plain exceptions. *)
Definition lift {A : Type} (r : result A) : outcome A :=
  match r with
  | Ok a => Done a
  | Raise e => Abort (Uncaught e)
  end.

(** Naive UTC [datetime] values and [timedelta]s, both counted in
    microseconds (the resolution of Python's [datetime]). *)
Definition datetime := Z.
Definition timedelta := Z.

Definition seconds (n : Z) : timedelta := n * 1000000.
Definition minutes (n : Z) : timedelta := seconds (n * 60).

(** [calendar.timegm(d.utctimetuple())]: the POSIX timestamp in whole
    seconds; the microseconds are dropped. *)
Definition timegm (d : datetime) : Z := d / 1000000.

(** [datetime.min] and [datetime.max]: the first microsecond of the year 1
    and the last of the year 9999, counted from the epoch. *)
Definition datetime_min : datetime := seconds (-62135596800).
Definition datetime_max : datetime := seconds 253402300800 - 1.

Definition valid_datetime (d : Z) : bool :=
  (datetime_min <=? d) && (d <=? datetime_max).

(** [timedelta.min] and [timedelta.max]: 999999999 days either way. *)
Definition timedelta_min : timedelta := seconds (-999999999 * 86400).
Definition timedelta_max : timedelta := seconds (1000000000 * 86400) - 1.

Definition valid_timedelta (delta : Z) : bool :=
  (timedelta_min <=? delta) && (delta <=? timedelta_max).

(** [timedelta(minutes=n)]: [OverflowError] outside the range of
    [timedelta]. *)
Definition timedelta_minutes (n : Z) : result timedelta :=
  if valid_timedelta (minutes n) then Ok (minutes n) else Raise OverflowError.

(** [d + delta]: [OverflowError] when the sum leaves the range of
    [datetime]. *)
Definition datetime_add (d : datetime) (delta : timedelta) : result datetime :=
  if valid_datetime (d + delta) then Ok (d + delta) else Raise OverflowError.

(** ** String utilities *)

Module Str.

(** The bytes [10xxxxxx], which continue a character in UTF-8. *)
Definition continuation (c : ascii) : bool :=
  (nat_of_ascii c / 64 =? 2)%nat.

(** [len(s)] in Python: the number of code points, one for every byte that
    does not continue a character. *)
Fixpoint code_points (s : string) : nat :=
  match s with
  | EmptyString => 0%nat
  | String a r => ((if continuation a then 0 else 1) + code_points r)%nat
  end.

(** [s.count(c)] for a single byte [c]. *)
Fixpoint count (c : ascii) (s : string) : nat :=
  match s with
  | EmptyString => 0%nat
  | String a r => ((if Ascii.eqb a c then 1 else 0) + count c r)%nat
  end.

Fixpoint contains (c : ascii) (s : string) : bool :=
  match s with
  | EmptyString => false
  | String a r => Ascii.eqb a c || contains c r
  end.

Fixpoint forallb (p : ascii -> bool) (s : string) : bool :=
  match s with
  | EmptyString => true
  | String a r => p a && forallb p r
  end.

(** [s.split(sep, 1)]: the parts around the first [sep], if there is one. *)
Fixpoint split1 (sep : ascii) (s : string) : option (string * string) :=
  match s with
  | EmptyString => None
  | String a r =>
      if Ascii.eqb a sep then Some (EmptyString, r)
      else match split1 sep r with
           | Some (x, y) => Some (String a x, y)
           | None => None
           end
  end.

(** [s.rsplit(sep, 1)]: the parts around the last [sep], if there is one. *)
Fixpoint rsplit1 (sep : ascii) (s : string) : option (string * string) :=
  match s with
  | EmptyString => None
  | String a r =>
      match rsplit1 sep r with
      | Some (x, y) => Some (String a x, y)
      | None => if Ascii.eqb a sep then Some (EmptyString, r) else None
      end
  end.

(** [s[len(p):]] when [s.startswith(p)]. *)
Fixpoint strip_prefix (p s : string) : option string :=
  match p, s with
  | EmptyString, _ => Some s
  | String a p', String b s' => if Ascii.eqb a b then strip_prefix p' s' else None
  | String _ _, EmptyString => None
  end.

(** [s[:n]] and [s[n:]]. *)
Fixpoint take (n : nat) (s : string) : string :=
  match n, s with
  | S n', String a r => String a (take n' r)
  | _, _ => EmptyString
  end.

Fixpoint drop (n : nat) (s : string) : string :=
  match n, s with
  | S n', String _ r => drop n' r
  | _, _ => s
  end.

End Str.

(** ** passlib: [CryptContext(schemes=["bcrypt"], deprecated="auto")]

    A bcrypt hash string is [ident ++ cost ++ "$" ++ salt ++ checksum]: one
    of the identifiers below, a two-digit cost, 22 characters of salt and 31
    characters of digest, both in bcrypt's base64 alphabet.  The digest
    function itself is an interface.  Every error raised here is, in passlib,
    a subclass of [ValueError].  The 22 characters of a salt carry 128 bits
    and the 31 of a digest 184: the last character of each has padding bits,
    which passlib clears ([repair_unused]) in the salt it draws and in the
    fields of a hash it parses. *)

Module Passlib.

(** The alphabet [./A-Za-z0-9]. *)
Definition bcrypt64_char (c : ascii) : bool :=
  let n := nat_of_ascii c in
  ((46 <=? n) && (n <=? 57) || (65 <=? n) && (n <=? 90) || (97 <=? n) && (n <=? 122))%nat.

Definition salt_size : nat := 22.
Definition checksum_size : nat := 31.
Definition min_rounds : nat := 4.
Definition max_rounds : nat := 31.
Definition default_rounds : nat := 12.
Definition default_ident : string := "$2b$".
Definition ident_values : list string := ["$2$"; "$2a$"; "$2x$"; "$2y$"; "$2b$"].

(** [passlib.utils.handlers.MAX_PASSWORD_SIZE], the default. *)
Definition MAX_PASSWORD_SIZE : nat := 4096.

Definition valid_salt (s : string) : bool :=
  (String.length s =? salt_size)%nat && Str.forallb bcrypt64_char s.

Definition valid_checksum (s : string) : bool :=
  (String.length s =? checksum_size)%nat && Str.forallb bcrypt64_char s.

(** [bcrypt64.charmap]: the characters in the order of their values. *)
Definition charmap : string :=
  "./ABCDEFGHIJKLMNOPQRSTUVWXYZabcdefghijklmnopqrstuvwxyz0123456789".

(** [charmap.index(c)]. *)
Fixpoint index_from (n : nat) (c : ascii) (chars : string) : option nat :=
  match chars with
  | EmptyString => None
  | String a r => if Ascii.eqb a c then Some n else index_from (S n) c r
  end.

(** The last character with its padding bits cleared:
    [charmap[charmap.index(last) & mask]]. *)
Definition clear_padding (mask : nat) (last : ascii) : ascii :=
  match index_from 0 last charmap with
  | Some i =>
      match String.get (Nat.land i mask) charmap with
      | Some c => c
      | None => last
      end
  | None => last
  end.

Fixpoint map_last (f : ascii -> ascii) (s : string) : string :=
  match s with
  | EmptyString => EmptyString
  | String a EmptyString => String (f a) EmptyString
  | String a r => String a (map_last f r)
  end.

(** [bcrypt64.repair_unused]: a string of [4k + 2] characters has four
    padding bits in its last character, one of [4k + 3] has two; bcrypt's
    encoding is big-endian, so they are the low bits.  The other lengths do
    not occur for a salt or a digest. *)
Definition repair_unused (s : string) : string :=
  match (String.length s mod 4)%nat with
  | 2%nat => map_last (clear_padding 48) s
  | 3%nat => map_last (clear_padding 60) s
  | _ => s
  end.

(** The bcrypt digest of a secret under an identifier, a cost and a salt, as
    the backend computes it: 31 characters of the alphabet, the padding bits
    of the last one clear. *)
Class BcryptBackend : Type := {
  bcrypt_digest : string -> nat -> string -> string -> string;
  bcrypt_digest_wf : forall ident rounds salt secret,
    valid_checksum (bcrypt_digest ident rounds salt secret) = true;
  bcrypt_digest_padding : forall ident rounds salt secret,
    repair_unused (bcrypt_digest ident rounds salt secret)
      = bcrypt_digest ident rounds salt secret
}.

Record bcrypt_record : Type := {
  ident : string;
  rounds : nat;
  salt : string;
  checksum : option string
}.

(** [_parse_ident]: the first identifier the hash starts with, and the rest. *)
Fixpoint parse_ident (idents : list string) (h : string) : option (string * string) :=
  match idents with
  | [] => None
  | i :: rest =>
      match Str.strip_prefix i h with
      | Some tail => Some (i, tail)
      | None => parse_ident rest h
      end
  end.

(** [bcrypt.identify]: does the string start with a bcrypt identifier? *)
Definition identify (h : string) : bool :=
  match parse_ident ident_values h with
  | Some _ => true
  | None => false
  end.

Definition digit (c : ascii) : option nat :=
  let n := nat_of_ascii c in
  if ((48 <=? n) && (n <=? 57))%nat then Some (n - 48)%nat else None.

(** The cost field: [int(rounds_str)] with [rounds_str == "%02d" % rounds]
    and [min_rounds <= rounds <= max_rounds]. *)
Definition parse_cost (s : string) : option nat :=
  match s with
  | String a (String b EmptyString) =>
      match digit a, digit b with
      | Some x, Some y =>
          let n := (10 * x + y)%nat in
          if ((min_rounds <=? n) && (n <=? max_rounds))%nat then Some n else None
      | _, _ => None
      end
  | _ => None
  end.

(** ["%02d" % n] for [n < 100]. *)
Definition render_cost (n : nat) : string :=
  String (ascii_of_nat (48 + n / 10)) (String (ascii_of_nat (48 + n mod 10)) EmptyString).

(** [bcrypt.from_string]: split the hash into its fields and check each;
    the handler it builds keeps the salt and the digest with their padding
    bits cleared.  passlib raises [ValueError] or one of its subclasses on
    each failure; the model does not tell them apart. *)
Definition from_string (h : string) : result bcrypt_record :=
  match parse_ident ident_values h with
  | None => Raise ValueError
  | Some (i, tail) =>
      if String.eqb i "$2x$" then Raise ValueError
      else
        match Str.split1 "$" tail with
        | None => Raise ValueError
        | Some (rounds_str, data) =>
            if Str.contains "$" data then Raise ValueError
            else
              match parse_cost rounds_str with
              | None => Raise ValueError
              | Some r =>
                  let s := Str.take salt_size data in
                  let chk := Str.drop salt_size data in
                  if negb (valid_salt s) then Raise ValueError
                  else if String.eqb chk EmptyString then
                    Ok {| ident := i; rounds := r; salt := repair_unused s;
                          checksum := None |}
                  else if negb (valid_checksum chk) then Raise ValueError
                  else Ok {| ident := i; rounds := r; salt := repair_unused s;
                             checksum := Some (repair_unused chk) |}
              end
        end
  end.

(** A well-formed hash: one [from_string] accepts, digest included. *)
Definition well_formed (h : string) : bool :=
  match from_string h with
  | Ok rec =>
      match checksum rec with
      | Some _ => true
      | None => false
      end
  | Raise _ => false
  end.

(** [to_string]: ["%s%02d$%s%s" % (ident, rounds, salt, checksum)]. *)
Definition to_string (i : string) (r : nat) (s chk : string) : string :=
  i +:+ render_cost r +:+ "$" +:+ s +:+ chk.

(** The secrets bcrypt takes: at most 4096 bytes once encoded, and free of
    NUL bytes. *)
Definition acceptable_secret (secret : string) : bool :=
  (String.length secret <=? MAX_PASSWORD_SIZE)%nat && negb (Str.contains "000" secret).

(** [validate_secret]: the size limit, on the [len] of what it is given.
    The handler calls it on the [str], whose [len] counts code points, and
    [_calc_checksum] calls it again on the encoded bytes. *)
Definition validate_secret (size : nat) : result unit :=
  if (MAX_PASSWORD_SIZE <? size)%nat then Raise PasswordSizeError
  else Ok tt.

(** [_calc_checksum]: the secret is encoded and measured again, and bcrypt
    refuses one that holds a NUL byte. *)
Definition calc_checksum `{BcryptBackend} (i : string) (r : nat) (s secret : string)
  : result string :=
  _ ← validate_secret (String.length secret);
  if Str.contains "000" secret then Raise NullPasswordError
  else Ok (bcrypt_digest i r s secret).

(** [hmac.compare_digest] / [consteq]: equality of the two strings (its
    running time is not modelled). *)
Definition consteq (a b : string) : bool := String.eqb a b.

(** [CryptContext.hash(secret)].  [drawn_salt] is the string of 22
    characters the generator draws ([getrandstr]); [_generate_salt] clears
    its padding bits. *)
Definition hash `{BcryptBackend} (drawn_salt secret : string) : result string :=
  _ ← validate_secret (Str.code_points secret);
  let salt := repair_unused drawn_salt in
  chk ← calc_checksum default_ident default_rounds salt secret;
  Ok (to_string default_ident default_rounds salt chk).

(** [CryptContext.verify(secret, hash)]: identify the scheme, or raise
    [UnknownHashError]; then [bcrypt.verify]. *)
Definition verify `{BcryptBackend} (secret h : string) : result bool :=
  if negb (identify h) then Raise UnknownHashError
  else
    _ ← validate_secret (Str.code_points secret);
    rec ← from_string h;
    match checksum rec with
    | None => Raise MissingDigestError
    | Some chk =>
        computed ← calc_checksum (ident rec) (rounds rec) (salt rec) secret;
        Ok (consteq computed chk)
    end.

End Passlib.

(** ** The Python runtime

    Conversions of the interpreter and of the email-validator package that
    the libraries call.  They are an interface: nothing below depends on how
    they treat a particular string. *)
Class Runtime : Type := {
  (** [int(s)] on a [str]: [None] stands for [ValueError]. *)
  int_of_str : string -> option Z;
  (** [str(n)] on an [int]. *)
  str_of_int : Z -> string;
  (** [int(f)] on a finite [float], given by its text: the truncation. *)
  float_trunc : string -> Z;
  (** pydantic's [EmailStr]: the normalised address, [None] when invalid. *)
  validate_email : string -> option string
}.

(** The outcomes of [int(v)] on a JSON value. *)
Inductive int_outcome : Type :=
| IntOk (n : Z)
| IntValueError
| IntTypeError
| IntOverflowError.

(** The floats that are no numbers. *)
Definition infinite (raw : string) : bool :=
  String.eqb raw "Infinity" || String.eqb raw "-Infinity".

Definition not_a_number (raw : string) : bool := String.eqb raw "NaN".

Definition py_int `{Runtime} (v : jvalue) : int_outcome :=
  match v with
  | JInt n => IntOk n
  | JBool b => IntOk (if b then 1 else 0)
  | JStr s =>
      match int_of_str s with
      | Some n => IntOk n
      | None => IntValueError
      end
  | JNull => IntTypeError
  | JCompound _ => IntTypeError
  | JFloat raw =>
      if infinite raw then IntOverflowError
      else if not_a_number raw then IntValueError
      else IntOk (float_trunc raw)
  end.

(** ** python-jose: [jwt.encode] and [jwt.decode]

    A token is [header.payload.signature]: the base64url of the JSON header,
    the base64url of the JSON claims, and the base64url of the MAC of the
    first two parts joined by a dot.  The codecs and the MAC are interfaces.
    The development covers the symmetric algorithms, which is what a shared
    [SECRET_KEY] is used with, and a key that is a plain secret: one that
    python-jose does not read as JSON text when it verifies. *)

Module Jose.

Inductive algorithm : Type :=
| HS256
| HS384
| HS512.

Definition alg_name (a : algorithm) : string :=
  match a with
  | HS256 => "HS256"
  | HS384 => "HS384"
  | HS512 => "HS512"
  end.

(** [base64url_encode]/[base64url_decode] of [jose.utils], and [json.dumps]
    /[json.loads] restricted to objects ([None]: invalid text, or JSON that
    is not an object).  [json_depth_exceeded] tells the texts that nest
    arrays or objects so deeply that [json.loads] exhausts the interpreter's
    recursion limit and raises [RecursionError]; what [json.dumps] has
    written is not among them. *)
Class Codec : Type := {
  base64url_encode : string -> string;
  base64url_decode : string -> option string;
  json_dumps : dict -> string;
  json_loads : string -> option dict;
  json_depth_exceeded : string -> bool;
  base64url_decode_encode : forall s, base64url_decode (base64url_encode s) = Some s;
  base64url_no_dot : forall s, Str.contains "." (base64url_encode s) = false;
  json_loads_dumps : forall d, json_loads (json_dumps d) = Some d;
  json_dumps_depth : forall d, json_depth_exceeded (json_dumps d) = false
}.

(** [HMACKey(key, alg).sign(msg)]. *)
Class Mac : Type := {
  hmac_sign : algorithm -> string -> string -> string
}.

Section Jws.
Context `{Codec} `{Mac} `{Runtime}.

(** [jwt.encode] replaces a [datetime] under [exp] by its timestamp. *)
Definition intdate (d : datetime) : jvalue := JInt (timegm d).

(** The header [{"alg": algorithm, "typ": "JWT"}]. *)
Definition jws_header (alg : algorithm) : dict :=
  <["alg" := JStr (alg_name alg)]> {["typ" := JStr "JWT"]}.

Definition encode_header (alg : algorithm) : string :=
  base64url_encode (json_dumps (jws_header alg)).

Definition encode_payload (payload : dict) : string :=
  base64url_encode (json_dumps payload).

Definition sign_header_and_claims (encoded_header encoded_claims : string)
    (alg : algorithm) (key : string) : string :=
  let signing_input := encoded_header +:+ "." +:+ encoded_claims in
  let signature := hmac_sign alg key signing_input in
  signing_input +:+ "." +:+ base64url_encode signature.

(** [jws.sign(payload, key, algorithm=algorithm)]. *)
Definition jws_sign (payload : dict) (key : string) (alg : algorithm) : string :=
  sign_header_and_claims (encode_header alg) (encode_payload payload) alg key.

(** [jwt.encode(claims, key, algorithm=algorithm)]. *)
Definition jwt_encode (claims : dict) (key : string) (alg : algorithm) : string :=
  jws_sign claims key alg.

(** [json.loads(text)] under [except ValueError]: the handler turns an
    invalid text into the error [why]; a [RecursionError] passes through
    it. *)
Definition loads_object (why : jwt_failure) (text : string) : result dict :=
  if json_depth_exceeded text then Raise RecursionError
  else or_raise (JWTError why) (json_loads text).

(** [jws._load]: a token that does not split in three parts, or whose
    parts do not decode, is refused with a [JWSError], which [jwt.decode]
    re-raises as a [JWTError]. *)
Definition load (token : string) : result (dict * string * string * string) :=
  '(signing_input, crypto_segment) ←
     or_raise (JWTError NotEnoughSegments) (Str.rsplit1 "." token);
  '(header_segment, claims_segment) ←
     or_raise (JWTError NotEnoughSegments) (Str.split1 "." signing_input);
  header_data ← or_raise (JWTError InvalidHeader) (base64url_decode header_segment);
  header ← loads_object InvalidHeader header_data;
  payload ← or_raise (JWTError InvalidPayload) (base64url_decode claims_segment);
  signature ← or_raise (JWTError InvalidCrypto) (base64url_decode crypto_segment);
  Ok (header, payload, signing_input, signature).

(** [jws._verify_signature]: the header must name one of the allowed
    algorithms, and the MAC recomputed under the key must equal the
    signature. *)
Definition verify_signature (signing_input : string) (header : dict)
    (signature key : string) (algorithms : list algorithm) : result unit :=
  match header !! "alg" with
  | Some (JStr alg) =>
      match List.find (fun a => String.eqb (alg_name a) alg) algorithms with
      | None => Raise (JWTError AlgorithmNotAllowed)
      | Some a =>
          if String.eqb (hmac_sign a key signing_input) signature then Ok tt
          else Raise (JWTError SignatureFailed)
      end
  | _ => Raise (JWTError AlgorithmNotAllowed)
  end.

(** [jws.verify(token, key, algorithms)]. *)
Definition jws_verify (token key : string) (algorithms : list algorithm) : result string :=
  '(header, payload, signing_input, signature) ← load token;
  _ ← verify_signature signing_input header signature key algorithms;
  Ok payload.

(** [int(claims[name])] inside the time-claim checks: a [ValueError]
    becomes a [JWTClaimsError]; the [TypeError] of a value that is no number
    and the [OverflowError] of an infinite one are not caught. *)
Definition claim_int (v : jvalue) : result Z :=
  match py_int v with
  | IntOk n => Ok n
  | IntValueError => Raise (JWTError InvalidClaims)
  | IntTypeError => Raise TypeError
  | IntOverflowError => Raise OverflowError
  end.

Definition validate_iat (claims : dict) : result unit :=
  match claims !! "iat" with
  | None => Ok tt
  | Some v => _ ← claim_int v; Ok tt
  end.

Definition validate_nbf (claims : dict) (now : datetime) : result unit :=
  match claims !! "nbf" with
  | None => Ok tt
  | Some v =>
      nbf ← claim_int v;
      if timegm now <? nbf then Raise (JWTError InvalidClaims) else Ok tt
  end.

(** [_validate_exp] with the default leeway 0: the token is refused when
    [exp < now], both in whole seconds. *)
Definition validate_exp (claims : dict) (now : datetime) : result unit :=
  match claims !! "exp" with
  | None => Ok tt
  | Some v =>
      exp ← claim_int v;
      if exp <? timegm now then Raise (JWTError ExpiredSignature) else Ok tt
  end.

(** [_validate_aud] with [audience=None]: an [aud] claim never matches. *)
Definition validate_aud (claims : dict) : result unit :=
  match claims !! "aud" with
  | None => Ok tt
  | Some _ => Raise (JWTError InvalidClaims)
  end.

Definition validate_str_claim (name : string) (claims : dict) : result unit :=
  match claims !! name with
  | None => Ok tt
  | Some (JStr _) => Ok tt
  | Some _ => Raise (JWTError InvalidClaims)
  end.

(** [_validate_at_hash] with [access_token=None]. *)
Definition validate_at_hash (claims : dict) : result unit :=
  match claims !! "at_hash" with
  | None => Ok tt
  | Some _ => Raise (JWTError InvalidClaims)
  end.

(** [_validate_claims] under the default options, with no audience, issuer,
    subject or access token given. *)
Definition validate_claims (claims : dict) (now : datetime) : result unit :=
  _ ← validate_iat claims;
  _ ← validate_nbf claims now;
  _ ← validate_exp claims now;
  _ ← validate_aud claims;
  _ ← validate_str_claim "sub" claims;
  _ ← validate_str_claim "jti" claims;
  validate_at_hash claims.

(** Claims that hold none of the registered names [iat], [nbf], [aud],
    [jti] and [at_hash], which [jwt.decode] would check. *)
Definition registered_free (claims : dict) : Prop :=
  claims !! "iat" = None /\ claims !! "nbf" = None /\ claims !! "aud" = None /\
  claims !! "jti" = None /\ claims !! "at_hash" = None.

(** [jwt.decode(token, key, algorithms=algorithms)] at the time [now]. *)
Definition jwt_decode (token key : string) (algorithms : list algorithm)
    (now : datetime) : result dict :=
  payload ← jws_verify token key algorithms;
  claims ← loads_object InvalidPayload payload;
  _ ← validate_claims claims now;
  Ok claims.

End Jws.

End Jose.

(** ** [app/schemas/user.py]: the pydantic schemas

    [security.py] and [service.py] import these names from
    [app.auth.schemas]; the declarations followed here are those of the same
    names in [app/schemas/user.py].  Building a model validates its fields;
    a failure raises [ValidationError].  The length bounds of a field count
    code points. *)

Module TokenData.

(** [email: Optional[str] = None], [user_id: Optional[int] = None]. *)
Record t : Type := {
  email : option string;
  user_id : option Z
}.

End TokenData.

Module UserCreate.

Record t : Type := {
  email : string;
  full_name : option string;
  password : string
}.

End UserCreate.

Module UserLogin.

Record t : Type := {
  email : string;
  password : string
}.

End UserLogin.

Module UserResponse.

Record t : Type := {
  email : string;
  full_name : option string;
  id : Z;
  is_active : bool;
  created_at : datetime;
  updated_at : datetime
}.

End UserResponse.

Module Token.

(** [access_token: str], [token_type: str = "bearer"], [user: UserResponse]. *)
Record t : Type := {
  access_token : string;
  token_type : string;
  user : UserResponse.t
}.

End Token.

Module Schemas.

Section Validators.
Context `{Runtime}.

(** pydantic's [str_validator]: a string is kept, a number is printed.
    [str] prints a float as [json.dumps] writes it, but for the three that
    are no numbers. *)
Definition str_validator (v : jvalue) : result string :=
  match v with
  | JStr s => Ok s
  | JInt n => Ok (str_of_int n)
  | JBool b => Ok (if b then "True" else "False")
  | JFloat raw =>
      Ok (if String.eqb raw "Infinity" then "inf"
          else if String.eqb raw "-Infinity" then "-inf"
          else if String.eqb raw "NaN" then "nan"
          else raw)
  | _ => Raise ValidationError
  end.

(** pydantic's [int_validator]: an integer is kept, anything else goes
    through [int(v)], whose failure ([TypeError], [ValueError] or
    [OverflowError]) is a validation error. *)
Definition int_validator (v : jvalue) : result Z :=
  match py_int v with
  | IntOk n => Ok n
  | _ => Raise ValidationError
  end.

(** A field declared [Optional[...]]: [None] is accepted as it is. *)
Definition optional {A : Type} (validator : jvalue -> result A) (v : jvalue)
  : result (option A) :=
  match v with
  | JNull => Ok None
  | _ => a ← validator v; Ok (Some a)
  end.

(** [TokenData(email=email, user_id=user_id)]. *)
Definition TokenData_new (email user_id : jvalue) : result TokenData.t :=
  match optional str_validator email, optional int_validator user_id with
  | Ok e, Ok u => Ok {| TokenData.email := e; TokenData.user_id := u |}
  | _, _ => Raise ValidationError
  end.

(** [Field(min_length=lo, max_length=hi)] on a [str]: the bounds are on
    [len(s)]. *)
Definition length_within (lo hi : nat) (s : string) : bool :=
  ((lo <=? Str.code_points s) && (Str.code_points s <=? hi))%nat.

(** The [@validator('password')] of [UserCreate]: [if len(v) < 8]. *)
Definition password_strength (v : string) : result string :=
  if (Str.code_points v <? 8)%nat then Raise ValueError else Ok v.

(** [UserCreate(email=..., password=..., full_name=...)]: [email: EmailStr],
    [full_name: Optional[str] = Field(None, min_length=1, max_length=255)],
    [password: str = Field(..., min_length=8, max_length=100)] followed by
    [password_strength].  Any failing field makes the construction raise
    [ValidationError]. *)
Definition UserCreate_new (email password : string) (full_name : option string)
  : result UserCreate.t :=
  let email_field := validate_email email in
  let full_name_ok :=
    match full_name with
    | None => true
    | Some n => length_within 1 255 n
    end in
  let password_field :=
    if length_within 8 100 password then password_strength password
    else Raise ValidationError in
  match email_field, full_name_ok, password_field with
  | Some e, true, Ok p =>
      Ok {| UserCreate.email := e; UserCreate.full_name := full_name;
            UserCreate.password := p |}
  | _, _, _ => Raise ValidationError
  end.

(** [Token(access_token=..., token_type=..., user=...)] as
    [app/schemas/user.py] declares it: [user] is required, so a call that
    does not pass it ([None] here) raises; a keyword that names no field is
    ignored. *)
Definition Token_new (access_token token_type : string) (user : option UserResponse.t)
  : result Token.t :=
  match user with
  | Some u =>
      Ok {| Token.access_token := access_token; Token.token_type := token_type;
            Token.user := u |}
  | None => Raise ValidationError
  end.

(** [UserLogin(email=..., password=...)]: [email: EmailStr], [password: str]. *)
Definition UserLogin_new (email password : string) : result UserLogin.t :=
  match validate_email email with
  | Some e => Ok {| UserLogin.email := e; UserLogin.password := password |}
  | None => Raise ValidationError
  end.

End Validators.

End Schemas.

(** ** [app/core/security.py] *)

Module Security.

(** The module-level configuration, read from the environment at import. *)
Record Settings : Type := {
  SECRET_KEY : string;
  ALGORITHM : Jose.algorithm;
  ACCESS_TOKEN_EXPIRE_MINUTES : Z
}.

(** The values used when the environment sets nothing. *)
Definition default_settings : Settings := {|
  SECRET_KEY := "your-secret-key-change-in-production";
  ALGORITHM := Jose.HS256;
  ACCESS_TOKEN_EXPIRE_MINUTES := 60
|}.

Section Functions.
Context `{Passlib.BcryptBackend} `{Jose.Codec} `{Jose.Mac} `{Runtime}.
Variable cfg : Settings.

Definition verify_password (plain_password hashed_password : string) : result bool :=
  Passlib.verify plain_password hashed_password.

(** [drawn_salt] is the string of 22 characters the salt generator of
    [pwd_context.hash] draws for this call. *)
Definition get_password_hash (drawn_salt password : string) : result string :=
  Passlib.hash drawn_salt password.

(** The test [if expires_delta:]: [None] and [timedelta(0)] are false. *)
Definition truthy (expires_delta : option timedelta) : option timedelta :=
  match expires_delta with
  | Some delta => if delta =? 0 then None else Some delta
  | None => None
  end.

(** [utcnow] is what [datetime.utcnow()] returns during the call.  The
    two additions raise [OverflowError] when the expiry leaves the range of
    [datetime], and so does [timedelta(minutes=...)] on a configured
    lifetime out of the range of [timedelta]. *)
Definition create_access_token (data : dict) (expires_delta : option timedelta)
    (utcnow : datetime) : result string :=
  let to_encode := data in
  expire ←
    match truthy expires_delta with
    | Some delta => datetime_add utcnow delta
    | None =>
        default ← timedelta_minutes (ACCESS_TOKEN_EXPIRE_MINUTES cfg);
        datetime_add utcnow default
    end;
  let to_encode := <["exp" := Jose.intdate expire]> to_encode in
  let encoded_jwt := Jose.jwt_encode to_encode (SECRET_KEY cfg) (ALGORITHM cfg) in
  Ok encoded_jwt.

(** The value of [expire] in a call of [create_access_token] that raises
    nothing, and the claims that call hands to [jwt.encode]. *)
Definition expiry (expires_delta : option timedelta) (utcnow : datetime) : datetime :=
  match truthy expires_delta with
  | Some delta => utcnow + delta
  | None => utcnow + minutes (ACCESS_TOKEN_EXPIRE_MINUTES cfg)
  end.

Definition token_claims (data : dict) (expires_delta : option timedelta)
    (utcnow : datetime) : dict :=
  <["exp" := Jose.intdate (expiry expires_delta utcnow)]> data.

(** The value of [encoded_jwt] in such a call: the token it returns. *)
Definition encoded_jwt (data : dict) (expires_delta : option timedelta)
    (utcnow : datetime) : string :=
  Jose.jwt_encode (token_claims data expires_delta utcnow) (SECRET_KEY cfg) (ALGORITHM cfg).

Definition decode_access_token (token : string) (utcnow : datetime)
  : result (option TokenData.t) :=
  except_JWTError
    (payload ← Jose.jwt_decode token (SECRET_KEY cfg) [ALGORITHM cfg] utcnow;
     let email := dict_get payload "sub" in
     let user_id := dict_get payload "user_id" in
     if is_None email || is_None user_id then Ok None
     else
       token_data ← Schemas.TokenData_new email user_id;
       Ok (Some token_data))
    None.

(** [credentials_exception] of [get_current_user]. *)
Definition credentials_exception : raised :=
  HTTPException 401 "Could not validate credentials" [("WWW-Authenticate", "Bearer")].

Definition of_optional_int (o : option Z) : jvalue :=
  match o with
  | Some n => JInt n
  | None => JNull
  end.

Definition of_optional_str (o : option string) : jvalue :=
  match o with
  | Some s => JStr s
  | None => JNull
  end.

(** [get_current_user(token)]: the user is the dictionary built from the
    token data; no database is consulted.  The closing test [if user is
    None] is on a dictionary literal and never holds. *)
Definition get_current_user (token : string) (utcnow : datetime) : outcome dict :=
  token_data ← lift (decode_access_token token utcnow);
  match token_data with
  | None => Abort credentials_exception
  | Some token_data =>
      let user : dict :=
        <["id" := of_optional_int (TokenData.user_id token_data)]>
          (<["email" := of_optional_str (TokenData.email token_data)]>
             {["is_active" := JBool true]}) in
      Done user
  end.

(** [get_current_active_user(current_user)]. *)
Definition get_current_active_user (current_user : dict) : outcome dict :=
  let is_active :=
    match current_user !! "is_active" with
    | Some v => v
    | None => JBool false
    end in
  if negb (truth is_active) then Abort (HTTPException 400 "Inactive user" [])
  else Done current_user.

(** [Depends(get_current_active_user)], as an endpoint receives it: the
    bearer token goes through [get_current_user], whose result goes through
    [get_current_active_user]. *)
Definition current_active_user (token : string) (utcnow : datetime) : outcome dict :=
  current_user ← get_current_user token utcnow;
  get_current_active_user current_user.

End Functions.

End Security.

(** ** [app/models/user.py] and [app/auth/service.py] *)

Module User.

Record t : Type := {
  id : Z;
  email : string;
  hashed_password : string;
  full_name : option string;
  is_active : bool;
  created_at : datetime;
  updated_at : datetime
}.

End User.

Module AuthService.

(** The [users] table, as the rows a query walks through. *)
Abbreviation Session := (list User.t).

(** The response model [Token] that [service.py] imports from
    [app.auth.schemas], a module that is not among the sources.  The call
    in [create_token_for_user] passes [expires_in] and no [user], which is
    not how [app/schemas/user.py] declares its [Token]; the model is
    therefore taken as a parameter: [Token_new access_token token_type
    expires_in] is the call [Token(access_token=..., token_type=...,
    expires_in=...)], which returns the model or raises. *)
Class TokenSchema : Type := {
  Token : Type;
  Token_new : string -> string -> Z -> result Token
}.

Section Service.
Context `{Passlib.BcryptBackend} `{Jose.Codec} `{Jose.Mac} `{Runtime} `{TokenSchema}.
Variable cfg : Security.Settings.

(** [db.query(User).filter(User.email == email).first()]. *)
Definition query_first_by_email (db : Session) (email : string) : option User.t :=
  List.find (fun u => String.eqb (User.email u) email) db.

Definition authenticate_user (db : Session) (credentials : UserLogin.t)
  : result (option User.t) :=
  let user := query_first_by_email db (UserLogin.email credentials) in
  match user with
  | None => Ok None
  | Some user =>
      verified ← Security.verify_password (UserLogin.password credentials)
                   (User.hashed_password user);
      if negb verified then Ok None
      else Ok (Some user)
  end.

Definition get_user_by_email (db : Session) (email : string) : option User.t :=
  query_first_by_email db email.

(** The [data] argument of [create_token_for_user]:
    [{"sub": user.email, "user_id": user.id}]. *)
Definition token_data_for (user : User.t) : dict :=
  <["sub" := JStr (User.email user)]> {["user_id" := JInt (User.id user)]}.

(** [create_token_for_user(user)]: the access token is issued, then the
    response model is built around it. *)
Definition create_token_for_user (user : User.t) (utcnow : datetime) : result Token :=
  access_token ← Security.create_access_token cfg (token_data_for user) None utcnow;
  Token_new access_token "bearer" 3600.

(** The tables' constraints ([app/models/user.py]): [id] is the primary
    key and [email] is unique. *)
Definition consistent (db : Session) : Prop :=
  NoDup (map User.id db) /\ NoDup (map User.email db).

(** [db.query(User).filter(User.id == user_id).first()]. *)
Definition get_user_by_id (db : Session) (user_id : Z) : option User.t :=
  List.find (fun u => Z.eqb (User.id u) user_id) db.

(** [db.commit()] after a change to [user], an object the session has
    loaded: the row with its primary key is rewritten. *)
Definition commit_user (db : Session) (user : User.t) : Session :=
  map (fun row => if Z.eqb (User.id row) (User.id user) then user else row) db.

(** [create_user(db, user_data)].  [assigned_id] is the primary key the
    database gives the new row at [db.commit()], and [utcnow] the time its
    column defaults read. *)
Definition create_user (db : Session) (user_data : UserCreate.t) (drawn_salt : string)
    (assigned_id : Z) (utcnow : datetime) : result (Session * User.t) :=
  let existing_user := query_first_by_email db (UserCreate.email user_data) in
  match existing_user with
  | Some _ => Raise ValueError
  | None =>
      hashed_password ← Security.get_password_hash drawn_salt (UserCreate.password user_data);
      let new_user :=
        {| User.id := assigned_id;
           User.email := UserCreate.email user_data;
           User.hashed_password := hashed_password;
           User.full_name := UserCreate.full_name user_data;
           User.is_active := true;
           User.created_at := utcnow;
           User.updated_at := utcnow |} in
      Ok (db ++ [new_user], new_user)
  end.

(** [update_user_password(db, user, new_password)], for a [user] the
    session has loaded. *)
Definition update_user_password (db : Session) (user : User.t) (new_password : string)
    (drawn_salt : string) (utcnow : datetime) : result (Session * User.t) :=
  hashed_password ← Security.get_password_hash drawn_salt new_password;
  let user :=
    {| User.id := User.id user;
       User.email := User.email user;
       User.hashed_password := hashed_password;
       User.full_name := User.full_name user;
       User.is_active := User.is_active user;
       User.created_at := User.created_at user;
       User.updated_at := utcnow |} in
  Ok (commit_user db user, user).

(** [deactivate_user(db, user_id)]. *)
Definition deactivate_user (db : Session) (user_id : Z) (utcnow : datetime)
  : Session * option User.t :=
  let user := get_user_by_id db user_id in
  match user with
  | None => (db, None)
  | Some user =>
      let user :=
        {| User.id := User.id user;
           User.email := User.email user;
           User.hashed_password := User.hashed_password user;
           User.full_name := User.full_name user;
           User.is_active := false;
           User.created_at := User.created_at user;
           User.updated_at := utcnow |} in
      (commit_user db user, Some user)
  end.

End Service.


End AuthService.

(** ** [app/auth/routes.py] *)

Module Routes.

(** [verify_token(current_user)]. *)
Definition verify_token (current_user : dict) : dict :=
  <["valid" := JBool true]>
    (<["user_id" := dict_get current_user "id"]>
       {["email" := dict_get current_user "email"]}).

End Routes.

(** ** [app/api/v1/schema.py]: the schema endpoints and their store

    [schemas_db] is a Python [dict]: its entries keep the order of their
    first insertion, which [list_schemas] shows, so it is modelled as an
    association list.  The endpoints are modelled by their bodies, on
    requests that pydantic has validated; the current time is an argument.
    No statement of a body raises anything but the [HTTPException]s written
    out, so the handlers [except Exception] have nothing to catch. *)

Module PyDict.

Section Ops.
Context {V : Type}.

(** [d.get(k)] / [d[k]]. *)
Fixpoint get (d : list (string * V)) (k : string) : option V :=
  match d with
  | [] => None
  | (k', v) :: r => if String.eqb k' k then Some v else get r k
  end.

(** [k in d]. *)
Definition mem (d : list (string * V)) (k : string) : bool :=
  match get d k with
  | Some _ => true
  | None => false
  end.

(** [d[k] = v]: a present key keeps its place, a new one goes last. *)
Fixpoint set (d : list (string * V)) (k : string) (v : V) : list (string * V) :=
  match d with
  | [] => [(k, v)]
  | (k', v') :: r =>
      if String.eqb k' k then (k, v) :: r else (k', v') :: set r k v
  end.

(** [del d[k]]. *)
Definition del (d : list (string * V)) (k : string) : list (string * V) :=
  List.filter (fun kv => negb (String.eqb (fst kv) k)) d.

(** [d.values()]. *)
Definition values (d : list (string * V)) : list V := map snd d.

Definition keys (d : list (string * V)) : list string := map fst d.

End Ops.

End PyDict.

(** [datetime.isoformat()]. *)
Class Calendar : Type := {
  isoformat : datetime -> string
}.

Module SchemaField.

Record t : Type := {
  name : string;
  type : string;
  nullable : bool;
  primary_key : bool;
  description : option string
}.

End SchemaField.

Module SchemaIndex.

Record t : Type := {
  name : string;
  fields : list string;
  unique : bool
}.

End SchemaIndex.

Module SchemaCreateRequest.

Record t : Type := {
  name : string;
  description : string;
  platform_id : string;
  fields : list SchemaField.t;
  indexes : list SchemaIndex.t
}.

End SchemaCreateRequest.

Module SchemaUpdateRequest.

Record t : Type := {
  description : option string;
  fields : option (list SchemaField.t);
  indexes : option (list SchemaIndex.t)
}.

End SchemaUpdateRequest.

Module SchemaResponse.

Record t : Type := {
  id : string;
  name : string;
  description : string;
  platform_id : string;
  fields : list SchemaField.t;
  indexes : list SchemaIndex.t;
  status : string;
  created_at : string;
  updated_at : string
}.

End SchemaResponse.

Module SchemaListResponse.

Record t : Type := {
  schemas : list SchemaResponse.t;
  total : Z;
  page : Z;
  per_page : Z
}.

End SchemaListResponse.

Module ValidationReport.

(** The dictionary [validate_schema] returns. *)
Record t : Type := {
  valid : bool;
  errors : list string;
  warnings : list string;
  schema_id : string
}.

End ValidationReport.

Module SchemaApi.

Abbreviation store := (list (string * SchemaResponse.t)).

Definition valid_types : list string :=
  ["string"; "integer"; "float"; "boolean"; "datetime"; "date"; "json"].

(** [SchemaField.validate_type]. *)
Definition validate_type (v : string) : result string :=
  if existsb (String.eqb v) valid_types then Ok v else Raise ValueError.

(** [SchemaField(name=..., type=..., ...)]. *)
Definition SchemaField_new (name type : string) (nullable primary_key : bool)
    (description : option string) : result SchemaField.t :=
  match validate_type type with
  | Ok type =>
      Ok {| SchemaField.name := name; SchemaField.type := type;
            SchemaField.nullable := nullable; SchemaField.primary_key := primary_key;
            SchemaField.description := description |}
  | Raise _ => Raise ValidationError
  end.

(** [SchemaCreateRequest.validate_fields]: [if not v]. *)
Definition validate_fields (v : list SchemaField.t) : result (list SchemaField.t) :=
  match v with
  | [] => Raise ValueError
  | _ :: _ => Ok v
  end.

(** [SchemaCreateRequest(name=..., ...)]: the name has 1 to 255 characters
    and the list of fields is not empty. *)
Definition SchemaCreateRequest_new (name description platform_id : string)
    (fields : list SchemaField.t) (indexes : list SchemaIndex.t)
  : result SchemaCreateRequest.t :=
  match Schemas.length_within 1 255 name, validate_fields fields with
  | true, Ok fields =>
      Ok {| SchemaCreateRequest.name := name;
            SchemaCreateRequest.description := description;
            SchemaCreateRequest.platform_id := platform_id;
            SchemaCreateRequest.fields := fields;
            SchemaCreateRequest.indexes := indexes |}
  | _, _ => Raise ValidationError
  end.

Section Endpoints.
Context `{Runtime} `{Calendar}.

(** [f"schema_{len(schemas_db) + 1}"]. *)
Definition _generate_schema_id (schemas_db : store) : string :=
  "schema_" +:+ str_of_int (Z.of_nat (length schemas_db) + 1).

(** [datetime.utcnow().isoformat() + "Z"]. *)
Definition _get_timestamp (utcnow : datetime) : string :=
  isoformat utcnow +:+ "Z".

Definition not_found : raised := HTTPException 404 "Schema not found" [].

(** [any(field.primary_key for field in fields)]. *)
Definition has_primary_key (fields : list SchemaField.t) : bool :=
  existsb SchemaField.primary_key fields.

(** [len(field_names) != len(set(field_names))]. *)
Definition has_duplicates (field_names : list string) : bool :=
  negb (length field_names =? length (remove_dups field_names))%nat.

(** The two checks [create_schema] and [update_schema] make on a list of
    fields. *)
Definition check_fields (fields : list SchemaField.t) : outcome unit :=
  if negb (has_primary_key fields) then
    Abort (HTTPException 400 "Schema must have at least one primary key field" [])
  else
    let field_names := map SchemaField.name fields in
    if has_duplicates field_names then
      Abort (HTTPException 400 "Field names must be unique" [])
    else Done tt.

Definition create_schema (schemas_db : store) (request : SchemaCreateRequest.t)
    (utcnow : datetime) : outcome (store * SchemaResponse.t) :=
  _ ← check_fields (SchemaCreateRequest.fields request);
  let schema_id := _generate_schema_id schemas_db in
  let now := _get_timestamp utcnow in
  let schema :=
    {| SchemaResponse.id := schema_id;
       SchemaResponse.name := SchemaCreateRequest.name request;
       SchemaResponse.description := SchemaCreateRequest.description request;
       SchemaResponse.platform_id := SchemaCreateRequest.platform_id request;
       SchemaResponse.fields := SchemaCreateRequest.fields request;
       SchemaResponse.indexes := SchemaCreateRequest.indexes request;
       SchemaResponse.status := "active";
       SchemaResponse.created_at := now;
       SchemaResponse.updated_at := now |} in
  Done (PyDict.set schemas_db schema_id schema, schema).

(** [filtered_schemas[start:end]] for [0 <= start <= end]. *)
Definition slice {A : Type} (l : list A) (start stop : Z) : list A :=
  firstn (Z.to_nat (stop - start)) (skipn (Z.to_nat start) l).

(** [list_schemas(platform_id, page, per_page)], for a [page >= 1] and a
    [per_page] from 1 to 100, as the [Query] declarations require. *)
Definition list_schemas (schemas_db : store) (platform_id : option string)
    (page per_page : Z) : SchemaListResponse.t :=
  let filtered_schemas :=
    List.filter
      (fun schema =>
         match platform_id with
         | None => true
         | Some p => String.eqb (SchemaResponse.platform_id schema) p
         end)
      (PyDict.values schemas_db) in
  let start := (page - 1) * per_page in
  let stop := start + per_page in
  let paginated_schemas := slice filtered_schemas start stop in
  {| SchemaListResponse.schemas := paginated_schemas;
     SchemaListResponse.total := Z.of_nat (length filtered_schemas);
     SchemaListResponse.page := page;
     SchemaListResponse.per_page := per_page |}.

Definition get_schema (schemas_db : store) (schema_id : string) : outcome SchemaResponse.t :=
  match PyDict.get schemas_db schema_id with
  | None => Abort not_found
  | Some schema => Done schema
  end.

(** [update_schema(schema_id, request)].  The stored object is changed in
    place, after the checks: a refused request leaves it as it was. *)
Definition update_schema (schemas_db : store) (schema_id : string)
    (request : SchemaUpdateRequest.t) (utcnow : datetime)
  : outcome (store * SchemaResponse.t) :=
  match PyDict.get schemas_db schema_id with
  | None => Abort not_found
  | Some schema =>
      fields ←
        match SchemaUpdateRequest.fields request with
        | Some fields => _ ← check_fields fields; Done fields
        | None => Done (SchemaResponse.fields schema)
        end;
      let description :=
        match SchemaUpdateRequest.description request with
        | Some description => description
        | None => SchemaResponse.description schema
        end in
      let indexes :=
        match SchemaUpdateRequest.indexes request with
        | Some indexes => indexes
        | None => SchemaResponse.indexes schema
        end in
      let schema :=
        {| SchemaResponse.id := SchemaResponse.id schema;
           SchemaResponse.name := SchemaResponse.name schema;
           SchemaResponse.description := description;
           SchemaResponse.platform_id := SchemaResponse.platform_id schema;
           SchemaResponse.fields := fields;
           SchemaResponse.indexes := indexes;
           SchemaResponse.status := SchemaResponse.status schema;
           SchemaResponse.created_at := SchemaResponse.created_at schema;
           SchemaResponse.updated_at := _get_timestamp utcnow |} in
      Done (PyDict.set schemas_db schema_id schema, schema)
  end.

(** [delete_schema(schema_id)]: the store without the entry. *)
Definition delete_schema (schemas_db : store) (schema_id : string) : outcome store :=
  if negb (PyDict.mem schemas_db schema_id) then Abort not_found
  else Done (PyDict.del schemas_db schema_id).

(** The errors [validate_schema] collects for one index. *)
Definition index_errors (field_names : list string) (index : SchemaIndex.t) : list string :=
  (match SchemaIndex.fields index with
   | [] => ["Index '" +:+ SchemaIndex.name index +:+ "' must have at least one field"]
   | _ :: _ => []
   end) ++
  flat_map
    (fun field_name =>
       if existsb (String.eqb field_name) field_names then []
       else ["Index '" +:+ SchemaIndex.name index +:+
             "' references non-existent field '" +:+ field_name +:+ "'"])
    (SchemaIndex.fields index).

Definition validate_schema (schemas_db : store) (schema_id : string)
  : outcome ValidationReport.t :=
  match PyDict.get schemas_db schema_id with
  | None => Abort not_found
  | Some schema =>
      let fields := SchemaResponse.fields schema in
      let errors1 :=
        match fields with
        | [] => ["Schema must have at least one field"]
        | _ :: _ => []
        end in
      let primary_keys := List.filter SchemaField.primary_key fields in
      let errors2 :=
        if (length primary_keys =? 0)%nat
        then ["Schema must have at least one primary key"] else [] in
      let warnings :=
        if (length primary_keys =? 0)%nat then []
        else if (1 <? length primary_keys)%nat then ["Multiple primary keys detected"]
        else [] in
      let field_names := map SchemaField.name fields in
      let errors3 :=
        if has_duplicates field_names then ["Field names must be unique"] else [] in
      let errors4 := flat_map (index_errors field_names) (SchemaResponse.indexes schema) in
      let errors := errors1 ++ errors2 ++ errors3 ++ errors4 in
      Done {| ValidationReport.valid := (length errors =? 0)%nat;
              ValidationReport.errors := errors;
              ValidationReport.warnings := warnings;
              ValidationReport.schema_id := schema_id |}
  end.

(** [type_mapping.get(field.type, 'String')]. *)
Definition type_mapping (type : string) : string :=
  if String.eqb type "string" then "String"
  else if String.eqb type "integer" then "Int64"
  else if String.eqb type "float" then "Float64"
  else if String.eqb type "boolean" then "UInt8"
  else if String.eqb type "datetime" then "DateTime"
  else if String.eqb type "date" then "Date"
  else if String.eqb type "json" then "String"
  else "String".

(** [sep.join(parts)]. *)
Fixpoint join (sep : string) (parts : list string) : string :=
  match parts with
  | [] => EmptyString
  | [x] => x
  | x :: rest => x +:+ sep +:+ join sep rest
  end.

Definition newline : string := String "010" EmptyString.

Definition field_def (field : SchemaField.t) : string :=
  let nullable_suffix := if SchemaField.primary_key field then "" else " Nullable" in
  "    " +:+ SchemaField.name field +:+ " " +:+
    type_mapping (SchemaField.type field) +:+ nullable_suffix.

(** The statement [generate_sql] builds.  The field definitions are joined
    by the string written [',\\n'] in the source: a comma, a backslash and
    the letter n. *)
Definition sql_of (schema : SchemaResponse.t) : string :=
  let field_defs := map field_def (SchemaResponse.fields schema) in
  "-- Schema: " +:+ SchemaResponse.name schema +:+ newline +:+
  "-- Platform: " +:+ SchemaResponse.platform_id schema +:+ newline +:+
  "-- Created: " +:+ SchemaResponse.created_at schema +:+ newline +:+
  newline +:+
  "CREATE TABLE IF NOT EXISTS " +:+ SchemaResponse.name schema +:+ " (" +:+ newline +:+
  join ",\n" field_defs +:+ newline +:+
  ") ENGINE = MergeTree()" +:+ newline +:+
  "ORDER BY (" +:+
    join ", " (map SchemaField.name
                 (List.filter SchemaField.primary_key (SchemaResponse.fields schema))) +:+
  ");" +:+ newline.

(** [generate_sql(schema_id)]: the [sql] entry of its answer. *)
Definition generate_sql (schemas_db : store) (schema_id : string) : outcome string :=
  match PyDict.get schemas_db schema_id with
  | None => Abort not_found
  | Some schema => Done (sql_of schema)
  end.

End Endpoints.

End SchemaApi.

(** ** Reference instances of the interfaces

    Small executable stand-ins, used to run the model on concrete inputs:
    base16 in place of base64url, a tagged prefix code in place of JSON
    text, a keyed tag in place of HMAC and a position-wise mix in place of
    the bcrypt digest.  They satisfy the laws of the interfaces; none of the
    general results below depends on them. *)

Module Reference.

(** *** Base16 *)

Definition hexdigit (n : nat) : ascii :=
  ascii_of_nat (if (n <? 10)%nat then 48 + n else 87 + n).

Definition unhex (c : ascii) : option nat :=
  let n := nat_of_ascii c in
  if ((48 <=? n) && (n <=? 57))%nat then Some (n - 48)%nat
  else if ((97 <=? n) && (n <=? 102))%nat then Some (n - 87)%nat
  else None.

Fixpoint hex_encode (s : string) : string :=
  match s with
  | EmptyString => EmptyString
  | String a r =>
      let n := nat_of_ascii a in
      String (hexdigit (n / 16)) (String (hexdigit (n mod 16)) (hex_encode r))
  end.

Definition hex_byte (h l : ascii) : option ascii :=
  match unhex h, unhex l with
  | Some x, Some y => Some (ascii_of_nat (16 * x + y))
  | _, _ => None
  end.

Fixpoint hex_decode (s : string) : option string :=
  match s with
  | EmptyString => Some EmptyString
  | String h (String l r) =>
      match hex_byte h l, hex_decode r with
      | Some a, Some t => Some (String a t)
      | _, _ => None
      end
  | String _ EmptyString => None
  end.

(** *** A prefix code for objects *)

Fixpoint enc_str (s k : string) : string :=
  match s with
  | EmptyString => String ";" k
  | String a r => String "c" (String a (enc_str r k))
  end.

Fixpoint dec_str (s : string) : option (string * string) :=
  match s with
  | String ";" k => Some (EmptyString, k)
  | String "c" (String a r) =>
      match dec_str r with
      | Some (x, k) => Some (String a x, k)
      | None => None
      end
  | _ => None
  end.

Fixpoint enc_pos (p : positive) (k : string) : string :=
  match p with
  | xH => String "e" k
  | xO q => String "0" (enc_pos q k)
  | xI q => String "1" (enc_pos q k)
  end.

Fixpoint dec_pos (s : string) : option (positive * string) :=
  match s with
  | String "e" k => Some (xH, k)
  | String "0" r =>
      match dec_pos r with
      | Some (q, k) => Some (xO q, k)
      | None => None
      end
  | String "1" r =>
      match dec_pos r with
      | Some (q, k) => Some (xI q, k)
      | None => None
      end
  | _ => None
  end.

Definition enc_value (v : jvalue) (k : string) : string :=
  match v with
  | JNull => String "N" k
  | JBool true => String "T" k
  | JBool false => String "F" k
  | JInt Z0 => String "Z" k
  | JInt (Zpos p) => String "P" (enc_pos p k)
  | JInt (Zneg p) => String "M" (enc_pos p k)
  | JStr s => String "S" (enc_str s k)
  | JCompound raw => String "C" (enc_str raw k)
  | JFloat raw => String "D" (enc_str raw k)
  end.

Definition dec_value (s : string) : option (jvalue * string) :=
  match s with
  | String "N" k => Some (JNull, k)
  | String "T" k => Some (JBool true, k)
  | String "F" k => Some (JBool false, k)
  | String "Z" k => Some (JInt 0, k)
  | String "P" r =>
      match dec_pos r with
      | Some (p, k) => Some (JInt (Zpos p), k)
      | None => None
      end
  | String "M" r =>
      match dec_pos r with
      | Some (p, k) => Some (JInt (Zneg p), k)
      | None => None
      end
  | String "S" r =>
      match dec_str r with
      | Some (x, k) => Some (JStr x, k)
      | None => None
      end
  | String "C" r =>
      match dec_str r with
      | Some (x, k) => Some (JCompound x, k)
      | None => None
      end
  | String "D" r =>
      match dec_str r with
      | Some (x, k) => Some (JFloat x, k)
      | None => None
      end
  | _ => None
  end.

Fixpoint enc_items (l : list (string * jvalue)) (k : string) : string :=
  match l with
  | [] => String "}" k
  | (name, v) :: r => String "," (enc_str name (enc_value v (enc_items r k)))
  end.

Fixpoint dec_items (fuel : nat) (s : string) : option (list (string * jvalue) * string) :=
  match fuel with
  | O => None
  | S fuel' =>
      match s with
      | String "}" k => Some ([], k)
      | String "," r =>
          match dec_str r with
          | Some (name, r1) =>
              match dec_value r1 with
              | Some (v, r2) =>
                  match dec_items fuel' r2 with
                  | Some (l, k) => Some ((name, v) :: l, k)
                  | None => None
                  end
              | None => None
              end
          | None => None
          end
      | _ => None
      end
  end.

Definition obj_dumps (d : dict) : string := enc_items (map_to_list d) EmptyString.

Definition obj_loads (s : string) : option dict :=
  match dec_items (S (String.length s)) s with
  | Some (l, EmptyString) => Some (list_to_map l)
  | _ => None
  end.

(** A text that opens more than 1000 arrays at its start is too deep. *)
Fixpoint leading (c : ascii) (s : string) : nat :=
  match s with
  | EmptyString => 0%nat
  | String a r => if Ascii.eqb a c then S (leading c r) else 0%nat
  end.

Definition too_deep (text : string) : bool := (1000 <? leading "[" text)%nat.

(** *** A keyed tag and a digest *)

Definition tag (a : Jose.algorithm) (key msg : string) : string :=
  Jose.alg_name a +:+ ":" +:+ key +:+ ":" +:+ msg.

Definition alphabet : string :=
  "./ABCDEFGHIJKLMNOPQRSTUVWXYZabcdefghijklmnopqrstuvwxyz0123456789".

Definition b64_of_nat (n : nat) : ascii :=
  match String.get (n mod 64) alphabet with
  | Some c => c
  | None => "."%char
  end.

Fixpoint mix (s : string) (acc : nat) : nat :=
  match s with
  | EmptyString => acc
  | String a r => mix r ((acc * 31 + nat_of_ascii a) mod 4093)%nat
  end.

Fixpoint tabulate (f : nat -> ascii) (n : nat) : string :=
  match n with
  | O => EmptyString
  | S m => String (f m) (tabulate f m)
  end.

Definition digest (ident : string) (rounds : nat) (salt secret : string) : string :=
  let seed := mix secret (mix salt (mix ident rounds)) in
  Passlib.repair_unused (tabulate (fun i => b64_of_nat (seed + 7 * i)) Passlib.checksum_size).

(** *** Decimal [int(s)] and a minimal address check *)

Fixpoint digits_value (s : string) (acc : Z) : option Z :=
  match s with
  | EmptyString => Some acc
  | String a r =>
      match Passlib.digit a with
      | Some d => digits_value r (10 * acc + Z.of_nat d)
      | None => None
      end
  end.

Definition decimal (s : string) : option Z :=
  match s with
  | EmptyString => None
  | String "-" (String a r) => option_map Z.opp (digits_value (String a r) 0)
  | String "-" EmptyString => None
  | _ => digits_value s 0
  end.

Definition address (s : string) : option string :=
  if Str.contains "@" s then Some s else None.

(** The whole part of a number written with a fraction. *)
Definition whole (raw : string) : Z :=
  match Str.split1 "." raw with
  | Some (digits, _) =>
      match decimal digits with
      | Some n => n
      | None => 0
      end
  | None => 0
  end.

End Reference.

(** * Padding bits *)

Module PaddingFacts.
Import Passlib.

Lemma map_last_length (f : ascii -> ascii) (s : string) :
  String.length (map_last f s) = String.length s.
Proof.
  induction s as [|a r IH]; [reflexivity|].
  destruct r as [|b r]; [reflexivity|].
  change (map_last f (String a (String b r))) with (String a (map_last f (String b r))).
  cbn [String.length] in *. rewrite IH. reflexivity.
Qed.

Lemma map_last_forallb (p : ascii -> bool) (f : ascii -> ascii) (s : string) :
  (forall c, p c = true -> p (f c) = true) ->
  Str.forallb p s = true -> Str.forallb p (map_last f s) = true.
Proof.
  intros Hf. induction s as [|a r IH]; [reflexivity|].
  destruct r as [|b r].
  - cbn [map_last Str.forallb]. intros [Ha _]%andb_true_iff.
    rewrite (Hf _ Ha). reflexivity.
  - change (map_last f (String a (String b r))) with (String a (map_last f (String b r))).
    cbn [Str.forallb] in *. intros [Ha Hr]%andb_true_iff.
    rewrite Ha, (IH Hr). reflexivity.
Qed.

Lemma map_last_idem (f : ascii -> ascii) (s : string) :
  (forall c, f (f c) = f c) -> map_last f (map_last f s) = map_last f s.
Proof.
  intros Hf. induction s as [|a r IH]; [reflexivity|].
  destruct r as [|b r].
  - cbn [map_last]. rewrite Hf. reflexivity.
  - change (map_last f (String a (String b r))) with (String a (map_last f (String b r))).
    destruct (map_last f (String b r)) as [|b' r'] eqn:Hlast.
    + pose proof (map_last_length f (String b r)) as Hlen.
      rewrite Hlast in Hlen. discriminate Hlen.
    + change (map_last f (String a (String b' r')))
        with (String a (map_last f (String b' r'))).
      rewrite IH. reflexivity.
Qed.

Lemma clear_padding_char (c : ascii) :
  bcrypt64_char c = true ->
  bcrypt64_char (clear_padding 48 c) = true /\ bcrypt64_char (clear_padding 60 c) = true.
Proof.
  destruct c as [[] [] [] [] [] [] [] []]; vm_compute;
    first [discriminate | split; reflexivity].
Qed.

Lemma clear_padding_idem (c : ascii) :
  clear_padding 48 (clear_padding 48 c) = clear_padding 48 c /\
  clear_padding 60 (clear_padding 60 c) = clear_padding 60 c.
Proof. destruct c as [[] [] [] [] [] [] [] []]; vm_compute; split; reflexivity. Qed.

Lemma repair_unused_length (s : string) :
  String.length (repair_unused s) = String.length s.
Proof.
  unfold repair_unused.
  destruct (String.length s mod 4)%nat as [|[|[|[|n]]]];
    first [reflexivity | apply map_last_length].
Qed.

Lemma repair_unused_chars (s : string) :
  Str.forallb bcrypt64_char s = true ->
  Str.forallb bcrypt64_char (repair_unused s) = true.
Proof.
  intros Hs. unfold repair_unused.
  destruct (String.length s mod 4)%nat as [|[|[|[|n]]]]; try exact Hs;
    (apply map_last_forallb; [intros c Hc; apply (clear_padding_char c Hc) | exact Hs]).
Qed.

Lemma repair_unused_idem (s : string) :
  repair_unused (repair_unused s) = repair_unused s.
Proof.
  unfold repair_unused at 1. rewrite repair_unused_length. unfold repair_unused.
  destruct (String.length s mod 4)%nat as [|[|[|[|n]]]]; try reflexivity;
    (apply map_last_idem; intros c; apply clear_padding_idem).
Qed.

Lemma repair_valid_salt (s : string) :
  valid_salt s = true -> valid_salt (repair_unused s) = true.
Proof.
  unfold valid_salt. intros [Hlen Hchars]%andb_true_iff.
  rewrite repair_unused_length, Hlen, (repair_unused_chars _ Hchars). reflexivity.
Qed.

Lemma repair_valid_checksum (s : string) :
  valid_checksum s = true -> valid_checksum (repair_unused s) = true.
Proof.
  unfold valid_checksum. intros [Hlen Hchars]%andb_true_iff.
  rewrite repair_unused_length, Hlen, (repair_unused_chars _ Hchars). reflexivity.
Qed.

End PaddingFacts.

(** * Laws of the reference instances *)

Module ReferenceLaws.
Import Reference.

Lemma hex_byte_encode (a : ascii) :
  hex_byte (hexdigit (nat_of_ascii a / 16)) (hexdigit (nat_of_ascii a mod 16)) = Some a.
Proof. destruct a as [[] [] [] [] [] [] [] []]; vm_compute; reflexivity. Qed.

Lemma hex_decode_encode (s : string) : hex_decode (hex_encode s) = Some s.
Proof.
  induction s as [|a r IH]; [reflexivity|].
  cbn [hex_encode hex_decode]. rewrite hex_byte_encode, IH. reflexivity.
Qed.

Lemma hexdigit_not_dot (a : ascii) :
  Ascii.eqb (hexdigit (nat_of_ascii a / 16)) "." = false /\
  Ascii.eqb (hexdigit (nat_of_ascii a mod 16)) "." = false.
Proof. destruct a as [[] [] [] [] [] [] [] []]; vm_compute; split; reflexivity. Qed.

Lemma hex_encode_no_dot (s : string) : Str.contains "." (hex_encode s) = false.
Proof.
  induction s as [|a r IH]; [reflexivity|].
  cbn [hex_encode Str.contains].
  destruct (hexdigit_not_dot a) as [-> ->]. exact IH.
Qed.

Lemma dec_enc_str (s k : string) : dec_str (enc_str s k) = Some (s, k).
Proof.
  induction s as [|a r IH]; [reflexivity|].
  cbn [enc_str]. change (dec_str (String "c" (String a (enc_str r k))))
    with (match dec_str (enc_str r k) with
          | Some (x, k') => Some (String a x, k')
          | None => None
          end).
  rewrite IH. reflexivity.
Qed.

Lemma dec_enc_pos (p : positive) (k : string) : dec_pos (enc_pos p k) = Some (p, k).
Proof.
  induction p as [q IH|q IH|]; cbn [enc_pos].
  - change (dec_pos (String "1" (enc_pos q k)))
      with (match dec_pos (enc_pos q k) with
            | Some (q', k') => Some (xI q', k')
            | None => None
            end).
    rewrite IH. reflexivity.
  - change (dec_pos (String "0" (enc_pos q k)))
      with (match dec_pos (enc_pos q k) with
            | Some (q', k') => Some (xO q', k')
            | None => None
            end).
    rewrite IH. reflexivity.
  - reflexivity.
Qed.

Lemma dec_enc_value (v : jvalue) (k : string) : dec_value (enc_value v k) = Some (v, k).
Proof.
  destruct v as [|[]|[|p|p]|s|raw|raw]; cbn [enc_value]; try reflexivity.
  - change (dec_value (String "P" (enc_pos p k)))
      with (match dec_pos (enc_pos p k) with
            | Some (p', k') => Some (JInt (Zpos p'), k')
            | None => None
            end).
    rewrite dec_enc_pos. reflexivity.
  - change (dec_value (String "M" (enc_pos p k)))
      with (match dec_pos (enc_pos p k) with
            | Some (p', k') => Some (JInt (Zneg p'), k')
            | None => None
            end).
    rewrite dec_enc_pos. reflexivity.
  - change (dec_value (String "S" (enc_str s k)))
      with (match dec_str (enc_str s k) with
            | Some (x, k') => Some (JStr x, k')
            | None => None
            end).
    rewrite dec_enc_str. reflexivity.
  - change (dec_value (String "C" (enc_str raw k)))
      with (match dec_str (enc_str raw k) with
            | Some (x, k') => Some (JCompound x, k')
            | None => None
            end).
    rewrite dec_enc_str. reflexivity.
  - change (dec_value (String "D" (enc_str raw k)))
      with (match dec_str (enc_str raw k) with
            | Some (x, k') => Some (JFloat x, k')
            | None => None
            end).
    rewrite dec_enc_str. reflexivity.
Qed.

Lemma dec_enc_items (l : list (string * jvalue)) (k : string) (fuel : nat) :
  (length l < fuel)%nat -> dec_items fuel (enc_items l k) = Some (l, k).
Proof.
  revert fuel. induction l as [|[name v] r IH]; intros fuel Hfuel.
  - destruct fuel; [cbn in Hfuel; lia | reflexivity].
  - destruct fuel as [|fuel]; [cbn in Hfuel; lia|].
    cbn [enc_items].
    change (dec_items (S fuel) (String "," (enc_str name (enc_value v (enc_items r k)))))
      with (match dec_str (enc_str name (enc_value v (enc_items r k))) with
            | Some (name', r1) =>
                match dec_value r1 with
                | Some (v', r2) =>
                    match dec_items fuel r2 with
                    | Some (l', k') => Some ((name', v') :: l', k')
                    | None => None
                    end
                | None => None
                end
            | None => None
            end).
    rewrite dec_enc_str, dec_enc_value, IH; [reflexivity|].
    cbn in Hfuel. lia.
Qed.

Lemma enc_str_length (s k : string) : (String.length k < String.length (enc_str s k))%nat.
Proof. induction s as [|a r IH]; cbn [enc_str String.length]; lia. Qed.

Lemma enc_pos_length (p : positive) (k : string) :
  (String.length k < String.length (enc_pos p k))%nat.
Proof. induction p as [q IH|q IH|]; cbn [enc_pos String.length]; lia. Qed.

Lemma enc_value_length (v : jvalue) (k : string) :
  (String.length k < String.length (enc_value v k))%nat.
Proof.
  destruct v as [|[]|[|p|p]|s|raw|raw]; cbn [enc_value String.length];
    try lia;
    try (pose proof (enc_pos_length p k); lia);
    try (pose proof (enc_str_length s k); lia);
    try (pose proof (enc_str_length raw k); lia).
Qed.

Lemma enc_items_length (l : list (string * jvalue)) (k : string) :
  (length l < String.length (enc_items l k))%nat.
Proof.
  induction l as [|[name v] r IH]; cbn [enc_items String.length length]; [lia|].
  pose proof (enc_str_length name (enc_value v (enc_items r k))).
  pose proof (enc_value_length v (enc_items r k)). lia.
Qed.

Lemma obj_loads_dumps (d : dict) : obj_loads (obj_dumps d) = Some d.
Proof.
  unfold obj_loads, obj_dumps.
  rewrite dec_enc_items.
  - rewrite list_to_map_to_list. reflexivity.
  - pose proof (enc_items_length (map_to_list d) EmptyString). lia.
Qed.

Lemma obj_dumps_depth (d : dict) : too_deep (obj_dumps d) = false.
Proof.
  unfold too_deep, obj_dumps.
  destruct (map_to_list d) as [|[name v] r]; reflexivity.
Qed.

Lemma b64_of_nat_ok (n : nat) : Passlib.bcrypt64_char (b64_of_nat n) = true.
Proof.
  unfold b64_of_nat.
  assert (Hlt : (n mod 64 < 64)%nat) by (apply Nat.mod_upper_bound; lia).
  generalize dependent (n mod 64)%nat. intros m Hlt.
  do 64 (destruct m as [|m]; [vm_compute; reflexivity|]).
  lia.
Qed.

Lemma tabulate_length (f : nat -> ascii) (n : nat) : String.length (tabulate f n) = n.
Proof. induction n as [|m IH]; cbn [tabulate String.length]; congruence. Qed.

Lemma tabulate_forallb (p : ascii -> bool) (f : nat -> ascii) (n : nat) :
  (forall i, p (f i) = true) -> Str.forallb p (tabulate f n) = true.
Proof.
  intros Hp. induction n as [|m IH]; [reflexivity|].
  cbn [tabulate Str.forallb]. rewrite Hp, IH. reflexivity.
Qed.

Lemma digest_wf (ident : string) (rounds : nat) (salt secret : string) :
  Passlib.valid_checksum (digest ident rounds salt secret) = true.
Proof.
  unfold digest. apply PaddingFacts.repair_valid_checksum.
  unfold Passlib.valid_checksum.
  rewrite tabulate_length, Nat.eqb_refl.
  apply tabulate_forallb. intros i. apply b64_of_nat_ok.
Qed.

Lemma digest_padding (ident : string) (rounds : nat) (salt secret : string) :
  Passlib.repair_unused (digest ident rounds salt secret) = digest ident rounds salt secret.
Proof. unfold digest. apply PaddingFacts.repair_unused_idem. Qed.

End ReferenceLaws.

#[export] Instance reference_bcrypt : Passlib.BcryptBackend := {|
  Passlib.bcrypt_digest := Reference.digest;
  Passlib.bcrypt_digest_wf := ReferenceLaws.digest_wf;
  Passlib.bcrypt_digest_padding := ReferenceLaws.digest_padding
|}.

#[export] Instance reference_codec : Jose.Codec := {|
  Jose.base64url_encode := Reference.hex_encode;
  Jose.base64url_decode := Reference.hex_decode;
  Jose.json_dumps := Reference.obj_dumps;
  Jose.json_loads := Reference.obj_loads;
  Jose.json_depth_exceeded := Reference.too_deep;
  Jose.base64url_decode_encode := ReferenceLaws.hex_decode_encode;
  Jose.base64url_no_dot := ReferenceLaws.hex_encode_no_dot;
  Jose.json_loads_dumps := ReferenceLaws.obj_loads_dumps;
  Jose.json_dumps_depth := ReferenceLaws.obj_dumps_depth
|}.

#[export] Instance reference_mac : Jose.Mac := {|
  Jose.hmac_sign := Reference.tag
|}.

#[export] Instance reference_runtime : Runtime := {|
  int_of_str := Reference.decimal;
  str_of_int := pretty.pretty;
  float_trunc := Reference.whole;
  validate_email := Reference.address
|}.

#[export] Instance reference_calendar : Calendar := {|
  isoformat := fun d => pretty.pretty (timegm d)
|}.

(** A response model that keeps the three values it is built from. *)
#[export] Instance reference_token : AuthService.TokenSchema := {|
  AuthService.Token := string * string * Z;
  AuthService.Token_new := fun access_token token_type expires_in =>
    Ok (access_token, token_type, expires_in)
|}.

(** * Properties *)

(** ** Strings *)

Module StrFacts.
Import Str.

Lemma app_cons (a : ascii) (x y : string) : String a x +:+ y = String a (x +:+ y).
Proof. reflexivity. Qed.

(** A string has at most as many code points as bytes. *)
Lemma code_points_le (s : string) : (code_points s <= String.length s)%nat.
Proof.
  induction s as [|a r IH]; [reflexivity|].
  cbn [code_points String.length]. destruct (continuation a); lia.
Qed.

Lemma contains_app (c : ascii) (x y : string) :
  contains c (x +:+ y) = contains c x || contains c y.
Proof.
  induction x as [|a x IH]; [reflexivity|].
  rewrite app_cons. cbn [contains]. rewrite IH, orb_assoc. reflexivity.
Qed.

Lemma forallb_excludes (p : ascii -> bool) (c : ascii) (s : string) :
  p c = false -> forallb p s = true -> contains c s = false.
Proof.
  intros Hc. induction s as [|a s IH]; [reflexivity|].
  cbn [forallb contains]. intros [Ha Hs]%andb_true_iff.
  rewrite (IH Hs), orb_false_r.
  destruct (Ascii.eqb_spec a c) as [->|]; [congruence | reflexivity].
Qed.

Lemma take_app (x y : string) : take (String.length x) (x +:+ y) = x.
Proof.
  induction x as [|a x IH]; [destruct y; reflexivity|].
  rewrite app_cons. cbn [String.length take]. rewrite IH. reflexivity.
Qed.

Lemma drop_app (x y : string) : drop (String.length x) (x +:+ y) = y.
Proof.
  induction x as [|a x IH]; [destruct y; reflexivity|].
  rewrite app_cons. cbn [String.length drop]. exact IH.
Qed.

Lemma split1_app (sep : ascii) (x y : string) :
  contains sep x = false -> split1 sep (x +:+ String sep y) = Some (x, y).
Proof.
  induction x as [|a x IH]; intros Hx.
  - change (EmptyString +:+ String sep y) with (String sep y).
    cbn [split1]. rewrite Ascii.eqb_refl. reflexivity.
  - cbn [contains] in Hx. apply orb_false_iff in Hx as [Ha Hx].
    rewrite app_cons. cbn [split1]. rewrite Ha, (IH Hx). reflexivity.
Qed.

Lemma split1_none (sep : ascii) (s : string) :
  contains sep s = false -> split1 sep s = None.
Proof.
  induction s as [|a s IH]; [reflexivity|].
  cbn [contains split1]. intros [Ha Hs]%orb_false_iff.
  rewrite Ha, (IH Hs). reflexivity.
Qed.

Lemma rsplit1_none (sep : ascii) (s : string) :
  contains sep s = false -> rsplit1 sep s = None.
Proof.
  induction s as [|a s IH]; [reflexivity|].
  cbn [contains rsplit1]. intros [Ha Hs]%orb_false_iff.
  rewrite (IH Hs), Ha. reflexivity.
Qed.

Lemma rsplit1_app (sep : ascii) (x y : string) :
  contains sep y = false -> rsplit1 sep (x +:+ String sep y) = Some (x, y).
Proof.
  intros Hy. induction x as [|a x IH].
  - change (EmptyString +:+ String sep y) with (String sep y).
    cbn [rsplit1]. rewrite (rsplit1_none _ _ Hy), Ascii.eqb_refl. reflexivity.
  - rewrite app_cons. cbn [rsplit1]. rewrite IH. reflexivity.
Qed.


End StrFacts.

(** ** passlib's bcrypt handler *)

Module PasslibFacts.
Import Passlib StrFacts.

Section Facts.
Context `{BcryptBackend}.

Lemma valid_salt_inv (s : string) :
  valid_salt s = true -> String.length s = salt_size /\ Str.forallb bcrypt64_char s = true.
Proof.
  unfold valid_salt. intros [Hlen Hchars]%andb_true_iff.
  apply Nat.eqb_eq in Hlen. split; assumption.
Qed.

Lemma valid_checksum_inv (c : string) :
  valid_checksum c = true ->
  String.length c = checksum_size /\ Str.forallb bcrypt64_char c = true.
Proof.
  unfold valid_checksum. intros [Hlen Hchars]%andb_true_iff.
  apply Nat.eqb_eq in Hlen. split; assumption.
Qed.

Lemma acceptable_secret_inv (secret : string) :
  acceptable_secret secret = true ->
  (String.length secret <= MAX_PASSWORD_SIZE)%nat /\ Str.contains "000" secret = false.
Proof.
  unfold acceptable_secret. intros [Hlen Hnul]%andb_true_iff.
  apply Nat.leb_le in Hlen. apply negb_true_iff in Hnul. split; assumption.
Qed.

Lemma validate_secret_ok (size : nat) :
  (size <= MAX_PASSWORD_SIZE)%nat -> validate_secret size = Ok tt.
Proof.
  intros Hlen. unfold validate_secret.
  destruct (Nat.ltb_spec MAX_PASSWORD_SIZE size); [lia | reflexivity].
Qed.

Lemma validate_secret_too_long (size : nat) :
  (MAX_PASSWORD_SIZE < size)%nat -> validate_secret size = Raise PasswordSizeError.
Proof.
  intros Hlen. unfold validate_secret.
  destruct (Nat.ltb_spec MAX_PASSWORD_SIZE size); [reflexivity | lia].
Qed.

(** A secret within the limit in bytes passes the check on the [str]. *)
Lemma validate_secret_str (secret : string) :
  (String.length secret <= MAX_PASSWORD_SIZE)%nat ->
  validate_secret (Str.code_points secret) = Ok tt.
Proof.
  intros Hlen. apply validate_secret_ok.
  pose proof (code_points_le secret). lia.
Qed.

Lemma calc_checksum_too_long (i : string) (r : nat) (s secret : string) :
  (MAX_PASSWORD_SIZE < String.length secret)%nat ->
  calc_checksum i r s secret = Raise PasswordSizeError.
Proof.
  intros Hlen. unfold calc_checksum. rewrite (validate_secret_too_long _ Hlen). reflexivity.
Qed.

Lemma calc_checksum_ok (i : string) (r : nat) (s secret : string) :
  acceptable_secret secret = true ->
  calc_checksum i r s secret = Ok (bcrypt_digest i r s secret).
Proof.
  intros [Hlen Hnul]%acceptable_secret_inv. unfold calc_checksum.
  rewrite (validate_secret_ok _ Hlen). cbn. rewrite Hnul. reflexivity.
Qed.

Lemma calc_checksum_nul (i : string) (r : nat) (s secret : string) :
  (String.length secret <= MAX_PASSWORD_SIZE)%nat ->
  Str.contains "000" secret = true ->
  calc_checksum i r s secret = Raise NullPasswordError.
Proof.
  intros Hlen Hnul. unfold calc_checksum.
  rewrite (validate_secret_ok _ Hlen). cbn. rewrite Hnul. reflexivity.
Qed.

(** Hashing an acceptable secret returns the formatted hash string. *)
Lemma hash_ok (drawn_salt secret : string) :
  acceptable_secret secret = true ->
  hash drawn_salt secret =
    Ok (to_string default_ident default_rounds (repair_unused drawn_salt)
          (bcrypt_digest default_ident default_rounds (repair_unused drawn_salt) secret)).
Proof.
  intros Hacc. unfold hash.
  destruct (acceptable_secret_inv _ Hacc) as [Hlen _].
  rewrite (validate_secret_str _ Hlen). cbn.
  rewrite (calc_checksum_ok _ _ _ _ Hacc). reflexivity.
Qed.

(** A secret of more than 4096 bytes is refused by one of the two checks. *)
Lemma hash_too_long (drawn_salt secret : string) :
  (MAX_PASSWORD_SIZE < String.length secret)%nat ->
  hash drawn_salt secret = Raise PasswordSizeError.
Proof.
  intros Hlen. unfold hash, validate_secret at 1.
  destruct (MAX_PASSWORD_SIZE <? Str.code_points secret)%nat; [reflexivity|].
  cbn [mbind result_bind]. rewrite (calc_checksum_too_long _ _ _ _ Hlen). reflexivity.
Qed.

Lemma hash_nul (drawn_salt secret : string) :
  (String.length secret <= MAX_PASSWORD_SIZE)%nat ->
  Str.contains "000" secret = true ->
  hash drawn_salt secret = Raise NullPasswordError.
Proof.
  intros Hlen Hnul. unfold hash. rewrite (validate_secret_str _ Hlen). cbn.
  rewrite (calc_checksum_nul _ _ _ _ Hlen Hnul). reflexivity.
Qed.

Lemma parse_ident_default (tail : string) :
  parse_ident ident_values (default_ident +:+ tail) = Some (default_ident, tail).
Proof. reflexivity. Qed.

Lemma identify_to_string (r : nat) (s c : string) :
  identify (to_string default_ident r s c) = true.
Proof. reflexivity. Qed.

Lemma alphabet_no_dollar (s : string) :
  Str.forallb bcrypt64_char s = true -> Str.contains "$" s = false.
Proof. apply forallb_excludes. reflexivity. Qed.

(** Parsing a freshly formatted hash gives back its fields. *)
Lemma from_string_to_string (s c : string) :
  valid_salt s = true -> valid_checksum c = true ->
  from_string (to_string default_ident default_rounds s c) =
    Ok {| ident := default_ident; rounds := default_rounds; salt := repair_unused s;
          checksum := Some (repair_unused c) |}.
Proof.
  intros Hs Hc.
  destruct (valid_salt_inv _ Hs) as [Hslen Hschars].
  destruct (valid_checksum_inv _ Hc) as [Hclen Hcchars].
  unfold from_string, to_string. rewrite parse_ident_default.
  change (String.eqb default_ident "$2x$") with false. cbv iota.
  change (render_cost default_rounds +:+ "$" +:+ s +:+ c)
    with ("12" +:+ String "$" (s +:+ c)).
  rewrite split1_app by reflexivity.
  rewrite contains_app, (alphabet_no_dollar _ Hschars), (alphabet_no_dollar _ Hcchars).
  change (parse_cost "12") with (Some default_rounds). cbv iota beta.
  rewrite <- Hslen, take_app, drop_app, Hs, Hc.
  destruct c as [|a c]; [discriminate Hclen | reflexivity].
Qed.

Lemma from_string_identify (h : string) (rec : bcrypt_record) :
  from_string h = Ok rec -> identify h = true.
Proof.
  unfold from_string, identify.
  destruct (parse_ident ident_values h) as [[i tail]|]; [reflexivity | discriminate].
Qed.

(** [verify] on a secret within the size limit: the three cases. *)
Lemma verify_unknown (secret h : string) :
  identify h = false -> verify secret h = Raise UnknownHashError.
Proof. intros Hid. unfold verify. rewrite Hid. reflexivity. Qed.

Lemma verify_malformed (secret h : string) (e : exn) :
  (String.length secret <= MAX_PASSWORD_SIZE)%nat ->
  identify h = true -> from_string h = Raise e -> verify secret h = Raise e.
Proof.
  intros Hlen Hid Hparse. unfold verify. rewrite Hid. cbn [negb].
  rewrite (validate_secret_str _ Hlen). cbn [mbind result_bind].
  rewrite Hparse. reflexivity.
Qed.

Lemma verify_parsed (secret h : string) (rec : bcrypt_record) (chk : string) :
  acceptable_secret secret = true ->
  from_string h = Ok rec -> checksum rec = Some chk ->
  verify secret h =
    Ok (consteq (bcrypt_digest (ident rec) (rounds rec) (salt rec) secret) chk).
Proof.
  intros Hacc Hparse Hchk. unfold verify.
  rewrite (from_string_identify _ _ Hparse). cbn [negb].
  destruct (acceptable_secret_inv _ Hacc) as [Hlen _].
  rewrite (validate_secret_str _ Hlen). cbn [mbind result_bind].
  rewrite Hparse. cbn [mbind result_bind]. rewrite Hchk.
  rewrite (calc_checksum_ok _ _ _ _ Hacc). reflexivity.
Qed.

(** The hash of an acceptable secret parses back to the salt with its
    padding cleared and to the digest under that salt. *)
Lemma from_string_hash (drawn_salt secret : string) :
  valid_salt drawn_salt = true ->
  from_string
    (to_string default_ident default_rounds (repair_unused drawn_salt)
       (bcrypt_digest default_ident default_rounds (repair_unused drawn_salt) secret)) =
    Ok {| ident := default_ident; rounds := default_rounds;
          salt := repair_unused drawn_salt;
          checksum := Some (bcrypt_digest default_ident default_rounds
                              (repair_unused drawn_salt) secret) |}.
Proof.
  intros Hsalt.
  rewrite (from_string_to_string _ _ (PaddingFacts.repair_valid_salt _ Hsalt)
             (bcrypt_digest_wf _ _ _ _)).
  rewrite PaddingFacts.repair_unused_idem, bcrypt_digest_padding. reflexivity.
Qed.

(** With a secret of more than 4096 code points, [verify] stops at its
    first check; with one of more than 4096 bytes it raises all the same,
    at that check or at a later step. *)
Lemma verify_too_long (secret h : string) :
  identify h = true ->
  (MAX_PASSWORD_SIZE < Str.code_points secret)%nat ->
  verify secret h = Raise PasswordSizeError.
Proof.
  intros Hid Hlen. unfold verify. rewrite Hid. cbn [negb].
  rewrite (validate_secret_too_long _ Hlen). reflexivity.
Qed.

Lemma verify_too_long_raises (secret h : string) :
  (MAX_PASSWORD_SIZE < String.length secret)%nat ->
  exists e, verify secret h = Raise e.
Proof.
  intros Hlen. unfold verify.
  destruct (identify h); cbn [negb]; [|eexists; reflexivity].
  destruct (validate_secret (Str.code_points secret)) as [[]|e];
    cbn [mbind result_bind]; [|eexists; reflexivity].
  destruct (from_string h) as [rec|e]; cbn [mbind result_bind]; [|eexists; reflexivity].
  destruct (checksum rec) as [chk|]; [|eexists; reflexivity].
  rewrite (calc_checksum_too_long _ _ _ _ Hlen). eexists. reflexivity.
Qed.

(** So does it with a secret that holds a NUL byte. *)
Lemma verify_nul_raises (secret h : string) :
  Str.contains "000" secret = true ->
  exists e, verify secret h = Raise e.
Proof.
  intros Hnul. unfold verify.
  destruct (identify h); cbn [negb]; [|eexists; reflexivity].
  destruct (validate_secret (Str.code_points secret)) as [[]|e];
    cbn [mbind result_bind]; [|eexists; reflexivity].
  destruct (from_string h) as [rec|e]; cbn [mbind result_bind]; [|eexists; reflexivity].
  destruct (checksum rec) as [chk|]; [|eexists; reflexivity].
  unfold calc_checksum.
  destruct (validate_secret (String.length secret)) as [[]|e];
    cbn [mbind result_bind]; [|eexists; reflexivity].
  rewrite Hnul. eexists. reflexivity.
Qed.

End Facts.

End PasslibFacts.

(** ** python-jose *)

Module JoseFacts.
Import Jose StrFacts.

Section Facts.
Context `{Codec} `{Mac} `{Runtime}.

Lemma sign_shape (payload : dict) (key : string) (alg : algorithm) :
  jws_sign payload key alg =
    (encode_header alg +:+ String "." (encode_payload payload)) +:+
      String "." (base64url_encode
                    (hmac_sign alg key
                       (encode_header alg +:+ String "." (encode_payload payload)))).
Proof. reflexivity. Qed.

(** What [json.dumps] has written loads back. *)
Lemma loads_object_dumps (why : jwt_failure) (d : dict) :
  loads_object why (json_dumps d) = Ok d.
Proof. unfold loads_object. rewrite json_dumps_depth, json_loads_dumps. reflexivity. Qed.

(** Loading a signed token gives back the header, the payload text, the
    signing input and the MAC. *)
Lemma load_sign (payload : dict) (key : string) (alg : algorithm) :
  load (jws_sign payload key alg) =
    Ok (jws_header alg, json_dumps payload,
        encode_header alg +:+ String "." (encode_payload payload),
        hmac_sign alg key (encode_header alg +:+ String "." (encode_payload payload))).
Proof.
  rewrite sign_shape. unfold load, encode_header, encode_payload.
  rewrite rsplit1_app by apply base64url_no_dot. cbn [or_raise mbind result_bind].
  rewrite split1_app by apply base64url_no_dot. cbn [or_raise mbind result_bind].
  rewrite !base64url_decode_encode. cbn [or_raise mbind result_bind].
  rewrite loads_object_dumps. reflexivity.
Qed.

Lemma alg_name_inj (a b : algorithm) : alg_name a = alg_name b -> a = b.
Proof. destruct a, b; cbn; intros Heq; congruence. Qed.

Lemma find_own_algorithm (alg : algorithm) :
  List.find (fun a => String.eqb (alg_name a) (alg_name alg)) [alg] = Some alg.
Proof. cbn [List.find]. rewrite String.eqb_refl. reflexivity. Qed.

Lemma verify_signature_own (signing_input key : string) (alg : algorithm) :
  verify_signature signing_input (jws_header alg)
    (hmac_sign alg key signing_input) key [alg] = Ok tt.
Proof.
  unfold verify_signature, jws_header. rewrite lookup_insert_eq.
  rewrite find_own_algorithm, String.eqb_refl. reflexivity.
Qed.

Lemma jws_verify_sign (payload : dict) (key : string) (alg : algorithm) :
  jws_verify (jws_sign payload key alg) key [alg] = Ok (json_dumps payload).
Proof.
  unfold jws_verify. rewrite load_sign. cbn [mbind result_bind].
  rewrite verify_signature_own. reflexivity.
Qed.

(** Decoding a token encoded under the same key and algorithm comes down to
    the validation of its claims. *)
Lemma jwt_decode_encode (claims : dict) (key : string) (alg : algorithm) (now : datetime) :
  jwt_decode (jwt_encode claims key alg) key [alg] now =
    (_ ← validate_claims claims now; Ok claims).
Proof.
  unfold jwt_decode, jwt_encode. rewrite jws_verify_sign. cbn [mbind result_bind].
  rewrite loads_object_dumps. reflexivity.
Qed.

(** A token signed under another key is refused, unless the two MACs
    collide. *)
Lemma jws_verify_other_key (payload : dict) (key key' : string) (alg : algorithm) :
  hmac_sign alg key' (encode_header alg +:+ String "." (encode_payload payload)) <>
  hmac_sign alg key (encode_header alg +:+ String "." (encode_payload payload)) ->
  jws_verify (jws_sign payload key' alg) key [alg] = Raise (JWTError SignatureFailed).
Proof.
  intros Hneq. unfold jws_verify. rewrite load_sign. cbn [mbind result_bind].
  unfold verify_signature, jws_header. rewrite lookup_insert_eq.
  rewrite find_own_algorithm.
  destruct (String.eqb_spec
              (hmac_sign alg key (encode_header alg +:+ String "." (encode_payload payload)))
              (hmac_sign alg key' (encode_header alg +:+ String "." (encode_payload payload))))
    as [Heq|_]; [congruence | reflexivity].
Qed.

(** A string without a dot is not a token. *)
Lemma load_no_dot (token : string) :
  Str.contains "." token = false -> load token = Raise (JWTError NotEnoughSegments).
Proof. intros Hdot. unfold load. rewrite (rsplit1_none _ _ Hdot). reflexivity. Qed.

(** Neither is a string with a single dot. *)
Lemma load_one_dot (x y : string) :
  Str.contains "." x = false -> Str.contains "." y = false ->
  load (x +:+ String "." y) = Raise (JWTError NotEnoughSegments).
Proof.
  intros Hx Hy. unfold load. rewrite (rsplit1_app _ _ _ Hy). cbn [or_raise mbind result_bind].
  rewrite (split1_none _ _ Hx). reflexivity.
Qed.

End Facts.

End JoseFacts.

(** ** Claim validation and the two token functions *)

Module SecurityFacts.
Import Jose JoseFacts Security.

Section Facts.
Context `{Passlib.BcryptBackend} `{Codec} `{Mac} `{Runtime}.
Variable cfg : Settings.

Lemma timegm_mono (a b : datetime) : a <= b -> timegm a <= timegm b.
Proof. intros Hab. unfold timegm. apply Z.div_le_mono; lia. Qed.

Lemma timegm_seconds (n : Z) : timegm (seconds n) = n.
Proof. unfold timegm, seconds. apply Z.div_mul. lia. Qed.

Lemma timegm_add_seconds (d : datetime) (n : Z) : timegm (d + seconds n) = timegm d + n.
Proof. unfold timegm, seconds. apply Z.div_add. lia. Qed.

Lemma registered_free_exp (data : dict) (v : jvalue) :
  registered_free data -> registered_free (<["exp" := v]> data).
Proof.
  unfold registered_free. intros (Hiat & Hnbf & Haud & Hjti & Hat).
  rewrite !lookup_insert_ne by discriminate. tauto.
Qed.

(** On claims free of the other registered names, validation is the check
    of the subject and of the expiry. *)
Lemma validate_claims_exp (claims : dict) (now : datetime) (e : Z) :
  registered_free claims ->
  claims !! "exp" = Some (JInt e) ->
  validate_claims claims now =
    if e <? timegm now then Raise (JWTError ExpiredSignature)
    else validate_str_claim "sub" claims.
Proof.
  intros (Hiat & Hnbf & Haud & Hjti & Hat) Hexp.
  unfold validate_claims, validate_iat, validate_nbf, validate_exp, validate_aud,
    validate_at_hash.
  rewrite Hiat, Hnbf, Hexp, Haud, Hat. cbn [mbind result_bind claim_int py_int].
  destruct (e <? timegm now); [reflexivity|].
  cbn [mbind result_bind]. unfold validate_str_claim. rewrite Hjti.
  destruct (claims !! "sub") as [[]|]; reflexivity.
Qed.

Lemma encoded_jwt_claims (data : dict) (expires_delta : option timedelta)
    (utcnow : datetime) :
  encoded_jwt cfg data expires_delta utcnow =
    jwt_encode (token_claims cfg data expires_delta utcnow) (SECRET_KEY cfg) (ALGORITHM cfg).
Proof. reflexivity. Qed.

Lemma token_claims_exp (data : dict) (expires_delta : option timedelta) (utcnow : datetime) :
  token_claims cfg data expires_delta utcnow !! "exp" =
    Some (JInt (timegm (expiry cfg expires_delta utcnow))).
Proof. unfold token_claims, intdate. apply lookup_insert_eq. Qed.

Lemma token_claims_other (data : dict) (expires_delta : option timedelta)
    (utcnow : datetime) (name : string) :
  name <> "exp" ->
  token_claims cfg data expires_delta utcnow !! name = data !! name.
Proof. intros Hne. unfold token_claims. apply lookup_insert_ne. congruence. Qed.

(** What [jwt.decode] answers on a token the service issued. *)
Lemma jwt_decode_issued (data : dict) (expires_delta : option timedelta)
    (issued now : datetime) :
  registered_free data ->
  jwt_decode (encoded_jwt cfg data expires_delta issued)
    (SECRET_KEY cfg) [ALGORITHM cfg] now =
    if timegm (expiry cfg expires_delta issued) <? timegm now
    then Raise (JWTError ExpiredSignature)
    else (_ ← validate_str_claim "sub" data;
          Ok (token_claims cfg data expires_delta issued)).
Proof.
  intros Hfree. rewrite encoded_jwt_claims, jwt_decode_encode.
  rewrite (validate_claims_exp _ now (timegm (expiry cfg expires_delta issued)));
    [|apply registered_free_exp, Hfree | apply token_claims_exp].
  destruct (_ <? timegm now); [reflexivity|].
  unfold validate_str_claim. rewrite token_claims_other by discriminate.
  reflexivity.
Qed.



(** The body of [decode_access_token] once [jwt.decode] has returned. *)
Lemma decode_access_token_payload (token : string) (now : datetime) (payload : dict) :
  jwt_decode token (SECRET_KEY cfg) [ALGORITHM cfg] now = Ok payload ->
  decode_access_token cfg token now =
    if is_None (dict_get payload "sub") || is_None (dict_get payload "user_id")
    then Ok None
    else
      match Schemas.TokenData_new (dict_get payload "sub") (dict_get payload "user_id") with
      | Ok token_data => Ok (Some token_data)
      | Raise e => Raise e
      end.
Proof.
  intros Hdec. unfold decode_access_token. rewrite Hdec. cbn [mbind result_bind].
  destruct (is_None (dict_get payload "sub") || is_None (dict_get payload "user_id"));
    [reflexivity|].
  unfold Schemas.TokenData_new.
  destruct (Schemas.optional Schemas.str_validator (dict_get payload "sub")) as [e|];
    [|reflexivity].
  destruct (Schemas.optional Schemas.int_validator (dict_get payload "user_id")) as [u|];
    reflexivity.
Qed.

(** A [JWTError] of [jwt.decode] becomes [None]. *)
Lemma decode_access_token_JWTError (token : string) (now : datetime) (why : jwt_failure) :
  jwt_decode token (SECRET_KEY cfg) [ALGORITHM cfg] now = Raise (JWTError why) ->
  decode_access_token cfg token now = Ok None.
Proof. intros Hdec. unfold decode_access_token. rewrite Hdec. reflexivity. Qed.

(** Decoding a token issued for a subject and a user id. *)
Lemma decode_issued (data : dict) (expires_delta : option timedelta)
    (issued now : datetime) (subject : string) (uid : Z) :
  data !! "sub" = Some (JStr subject) ->
  data !! "user_id" = Some (JInt uid) ->
  registered_free data ->
  decode_access_token cfg (encoded_jwt cfg data expires_delta issued) now =
    if timegm (expiry cfg expires_delta issued) <? timegm now then Ok None
    else Ok (Some {| TokenData.email := Some subject; TokenData.user_id := Some uid |}).
Proof.
  intros Hsub Huid Hfree.
  pose proof (jwt_decode_issued data expires_delta issued now Hfree) as Hdec.
  destruct (timegm (expiry cfg expires_delta issued) <? timegm now).
  - exact (decode_access_token_JWTError _ _ _ Hdec).
  - unfold validate_str_claim in Hdec. rewrite Hsub in Hdec. cbn [mbind result_bind] in Hdec.
    rewrite (decode_access_token_payload _ _ _ Hdec).
    unfold dict_get. rewrite !token_claims_other by discriminate.
    rewrite Hsub, Huid. reflexivity.
Qed.

(** The expiry is never before the moment of issue when the lifetimes are
    not negative. *)
Lemma expiry_not_before (expires_delta : option timedelta) (utcnow : datetime) :
  0 <= ACCESS_TOKEN_EXPIRE_MINUTES cfg ->
  (forall delta, expires_delta = Some delta -> 0 <= delta) ->
  utcnow <= expiry cfg expires_delta utcnow.
Proof.
  intros Hdefault Hdelta. unfold expiry, truthy, minutes, seconds.
  destruct expires_delta as [delta|]; [|lia].
  specialize (Hdelta delta eq_refl).
  destruct (delta =? 0); lia.
Qed.

(** The failures that become [None]: a string that is not made of three
    dotted parts, a token signed under another key, an expired token. *)
Lemma decode_access_token_no_dot (token : string) (now : datetime) :
  Str.contains "." token = false -> decode_access_token cfg token now = Ok None.
Proof.
  intros Hdot. unfold decode_access_token, jwt_decode, jws_verify.
  rewrite (load_no_dot _ Hdot). reflexivity.
Qed.

Lemma decode_access_token_empty (now : datetime) :
  decode_access_token cfg "" now = Ok None.
Proof. apply decode_access_token_no_dot. reflexivity. Qed.

Lemma decode_access_token_one_dot (x y : string) (now : datetime) :
  Str.contains "." x = false -> Str.contains "." y = false ->
  decode_access_token cfg (x +:+ String "." y) now = Ok None.
Proof.
  intros Hx Hy. unfold decode_access_token, jwt_decode, jws_verify.
  rewrite (load_one_dot _ _ Hx Hy). reflexivity.
Qed.

Lemma decode_access_token_other_key (claims : dict) (key' : string) (now : datetime) :
  hmac_sign (ALGORITHM cfg) key'
    (encode_header (ALGORITHM cfg) +:+ String "." (encode_payload claims)) <>
  hmac_sign (ALGORITHM cfg) (SECRET_KEY cfg)
    (encode_header (ALGORITHM cfg) +:+ String "." (encode_payload claims)) ->
  decode_access_token cfg (jwt_encode claims key' (ALGORITHM cfg)) now = Ok None.
Proof.
  intros Hmac. unfold decode_access_token, jwt_decode, jwt_encode.
  rewrite (jws_verify_other_key _ _ _ _ Hmac). reflexivity.
Qed.

Lemma expiry_default (utcnow : datetime) :
  expiry cfg None utcnow = utcnow + minutes (ACCESS_TOKEN_EXPIRE_MINUTES cfg).
Proof. reflexivity. Qed.


Lemma expiry_zero (utcnow : datetime) :
  expiry cfg (Some 0) utcnow = utcnow + minutes (ACCESS_TOKEN_EXPIRE_MINUTES cfg).
Proof. reflexivity. Qed.

(** *** When a token is issued *)

Lemma valid_datetime_inv (d : Z) :
  valid_datetime d = true -> datetime_min <= d <= datetime_max.
Proof. unfold valid_datetime. intros [Hlo Hhi]%andb_true_iff. lia. Qed.

(** Two instants of [datetime] are less than [timedelta.max] apart. *)
Lemma valid_timedelta_between (d delta : Z) :
  valid_datetime d = true -> valid_datetime (d + delta) = true ->
  valid_timedelta delta = true.
Proof.
  intros Hd%valid_datetime_inv Hsum%valid_datetime_inv.
  unfold valid_timedelta, timedelta_min, timedelta_max.
  unfold datetime_min, datetime_max, seconds in *.
  apply andb_true_iff. split; apply Z.leb_le; lia.
Qed.

(** The call raises nothing when the expiry is within the range of
    [datetime], and then returns [encoded_jwt]. *)
Lemma create_access_token_ok (data : dict) (expires_delta : option timedelta)
    (utcnow : datetime) :
  valid_datetime utcnow = true ->
  valid_datetime (expiry cfg expires_delta utcnow) = true ->
  create_access_token cfg data expires_delta utcnow
    = Ok (encoded_jwt cfg data expires_delta utcnow).
Proof.
  intros Hnow Hexp. unfold create_access_token, encoded_jwt, token_claims.
  unfold expiry in *. destruct (truthy expires_delta) as [delta|].
  - unfold datetime_add. rewrite Hexp. reflexivity.
  - unfold timedelta_minutes. rewrite (valid_timedelta_between _ _ Hnow Hexp).
    cbn [mbind result_bind]. unfold datetime_add. rewrite Hexp. reflexivity.
Qed.

(** A token the call returns is [encoded_jwt], and its expiry is within
    the range. *)
Lemma create_access_token_inv (data : dict) (expires_delta : option timedelta)
    (utcnow : datetime) (token : string) :
  create_access_token cfg data expires_delta utcnow = Ok token ->
  token = encoded_jwt cfg data expires_delta utcnow /\
  valid_datetime (expiry cfg expires_delta utcnow) = true.
Proof.
  unfold create_access_token, encoded_jwt, token_claims, expiry.
  destruct (truthy expires_delta) as [delta|].
  - unfold datetime_add. destruct (valid_datetime (utcnow + delta)); [|discriminate].
    cbn [mbind result_bind]. intros [= <-]. split; reflexivity.
  - unfold timedelta_minutes.
    destruct (valid_timedelta (minutes (ACCESS_TOKEN_EXPIRE_MINUTES cfg))); [|discriminate].
    cbn [mbind result_bind]. unfold datetime_add.
    destruct (valid_datetime (utcnow + minutes (ACCESS_TOKEN_EXPIRE_MINUTES cfg)));
      [|discriminate].
    cbn [mbind result_bind]. intros [= <-]. split; reflexivity.
Qed.

(** Past the range of [datetime] the call raises [OverflowError]. *)
Lemma create_access_token_overflow (data : dict) (expires_delta : option timedelta)
    (utcnow : datetime) :
  valid_datetime (expiry cfg expires_delta utcnow) = false ->
  create_access_token cfg data expires_delta utcnow = Raise OverflowError.
Proof.
  unfold create_access_token, expiry. intros Hexp.
  destruct (truthy expires_delta) as [delta|].
  - unfold datetime_add. rewrite Hexp. reflexivity.
  - unfold timedelta_minutes.
    destruct (valid_timedelta (minutes (ACCESS_TOKEN_EXPIRE_MINUTES cfg))); [|reflexivity].
    cbn [mbind result_bind]. unfold datetime_add. rewrite Hexp. reflexivity.
Qed.

End Facts.

End SecurityFacts.

(** ** The schemas and the service *)

Module ServiceFacts.
Import Security AuthService.

Section Facts.
Context `{Passlib.BcryptBackend} `{Jose.Codec} `{Jose.Mac} `{Runtime}.
Variable cfg : Settings.

(** A [UserCreate] that was built holds the password it was given, of 8 to
    100 characters. *)
Lemma UserCreate_new_password (email password : string) (full_name : option string)
    (user_data : UserCreate.t) :
  Schemas.UserCreate_new email password full_name = Ok user_data ->
  UserCreate.password user_data = password /\
  (8 <= Str.code_points password <= 100)%nat.
Proof.
  unfold Schemas.UserCreate_new, Schemas.length_within, Schemas.password_strength.
  destruct (validate_email email) as [e|]; [|discriminate].
  destruct (match full_name with Some n => _ | None => true end); [|discriminate].
  destruct ((8 <=? Str.code_points password) && (Str.code_points password <=? 100))%nat
    eqn:Hlen; [|discriminate].
  apply andb_true_iff in Hlen as [Hlo%Nat.leb_le Hhi%Nat.leb_le].
  destruct (Str.code_points password <? 8)%nat; [discriminate|].
  intros [= <-]. split; [reflexivity | lia].
Qed.

(** A successful login returns the queried user, whose stored hash the
    password verifies against. *)
Lemma authenticate_user_success (db : Session) (credentials : UserLogin.t) (user : User.t) :
  authenticate_user db credentials = Ok (Some user) ->
  query_first_by_email db (UserLogin.email credentials) = Some user /\
  verify_password (UserLogin.password credentials) (User.hashed_password user) = Ok true.
Proof.
  unfold authenticate_user.
  destruct (query_first_by_email db (UserLogin.email credentials)) as [found|];
    [|discriminate].
  destruct (verify_password (UserLogin.password credentials) (User.hashed_password found))
    as [[]|] eqn:Hverify; cbn [mbind result_bind negb]; try discriminate.
  intros [= <-]. split; [reflexivity | exact Hverify].
Qed.

(** The claims [create_token_for_user] has signed. *)
Lemma token_data_for_claims (user : User.t) :
  token_data_for user !! "sub" = Some (JStr (User.email user)) /\
  token_data_for user !! "user_id" = Some (JInt (User.id user)) /\
  Jose.registered_free (token_data_for user).
Proof.
  unfold Jose.registered_free, token_data_for. split; [apply lookup_insert_eq|].
  rewrite !lookup_insert_ne by discriminate.
  rewrite lookup_singleton_eq, !lookup_singleton_ne by discriminate. tauto.
Qed.

(** A response [create_token_for_user] returns is built around the token
    [create_access_token] issued for the user. *)
Lemma create_token_for_user_inv `{TokenSchema} (user : User.t) (utcnow : datetime)
    (response : Token) :
  create_token_for_user cfg user utcnow = Ok response ->
  Token_new (encoded_jwt cfg (token_data_for user) None utcnow) "bearer" 3600
    = Ok response /\
  create_access_token cfg (token_data_for user) None utcnow
    = Ok (encoded_jwt cfg (token_data_for user) None utcnow).
Proof.
  unfold create_token_for_user.
  destruct (create_access_token cfg (token_data_for user) None utcnow) as [token|e]
    eqn:Hissue; cbn [mbind result_bind]; [|discriminate].
  destruct (SecurityFacts.create_access_token_inv cfg _ _ _ _ Hissue) as [-> _].
  intros Hnew. split; [exact Hnew | reflexivity].
Qed.

End Facts.

End ServiceFacts.

(** * The claims *)

(** ** Passwords *)

(** C2, as amended.  For every password that bcrypt accepts (at most 4096
    bytes in its UTF-8 encoding, no NUL byte), hashing it and then verifying
    the same password against the produced hash returns true, whatever salt
    is drawn. *)
Theorem C2_verify_own_hash `{Passlib.BcryptBackend} (drawn_salt password : string) :
  Passlib.valid_salt drawn_salt = true ->
  Passlib.acceptable_secret password = true ->
  (hashed ← Security.get_password_hash drawn_salt password;
   Security.verify_password password hashed) = Ok true.
Proof.
  intros Hsalt Hacc. unfold Security.get_password_hash, Security.verify_password.
  rewrite (PasslibFacts.hash_ok _ _ Hacc). cbn [mbind result_bind].
  rewrite (PasslibFacts.verify_parsed _ _ _ _ Hacc
             (PasslibFacts.from_string_hash _ _ Hsalt) eq_refl).
  cbn [Passlib.ident Passlib.rounds Passlib.salt].
  unfold Passlib.consteq. rewrite String.eqb_refl. reflexivity.
Qed.

Lemma C2_verify_own_hash_witness :
  (hashed ← Security.get_password_hash "abcdefghijklmnopqrstuv" "securepassword123";
   Security.verify_password "securepassword123" hashed) = Ok true.
Proof. apply C2_verify_own_hash; reflexivity. Defined.

(** C2 as stated fails on a password that holds a NUL byte and on one longer
    than 4096 bytes, be it of 4097 ASCII characters or of 4096 characters
    the last of which takes two bytes: [get_password_hash] raises and there
    is no hash to verify. *)
Lemma C2_counterexample :
  let long := Reference.tabulate (fun _ => "a"%char) 4097 in
  let accented :=
    Reference.tabulate (fun _ => "a"%char) 4095 +:+ String "195" (String "169" "") in
  (hashed ← Security.get_password_hash "abcdefghijklmnopqrstuv" (String "000" "pw");
   Security.verify_password (String "000" "pw") hashed) = Raise NullPasswordError /\
  (hashed ← Security.get_password_hash "abcdefghijklmnopqrstuv" long;
   Security.verify_password long hashed) = Raise PasswordSizeError /\
  Str.code_points accented = 4096%nat /\
  (hashed ← Security.get_password_hash "abcdefghijklmnopqrstuv" accented;
   Security.verify_password accented hashed) = Raise PasswordSizeError.
Proof. repeat split; vm_compute; reflexivity. Qed.

(** C3, at the failing inputs.  Against a string that starts with no bcrypt
    identifier, [verify_password] raises [UnknownHashError], whatever the
    password; against one that starts with an identifier and is not a
    well-formed hash, it raises the error of the parser.  Nothing on the
    path catches either, where the docstring promises [False]. *)
Theorem C3_malformed_hash_raises `{Passlib.BcryptBackend}
    (plain_password hashed_password : string) :
  (Passlib.identify hashed_password = false ->
   Security.verify_password plain_password hashed_password = Raise UnknownHashError) /\
  (Passlib.identify hashed_password = true ->
   (String.length plain_password <= Passlib.MAX_PASSWORD_SIZE)%nat ->
   forall e,
     Passlib.from_string hashed_password = Raise e ->
     Security.verify_password plain_password hashed_password = Raise e).
Proof.
  unfold Security.verify_password. split.
  - apply PasslibFacts.verify_unknown.
  - intros Hid Hlen e Hparse. exact (PasslibFacts.verify_malformed _ _ _ Hlen Hid Hparse).
Qed.

Lemma C3_malformed_hash_raises_witness :
  Security.verify_password "securepassword123" "not-a-hash" = Raise UnknownHashError /\
  Security.verify_password "securepassword123" "$2b$12$tooshort" = Raise ValueError.
Proof.
  split.
  - apply (proj1 (C3_malformed_hash_raises "securepassword123" "not-a-hash")).
    reflexivity.
  - apply (proj2 (C3_malformed_hash_raises "securepassword123" "$2b$12$tooshort")).
    + reflexivity.
    + apply Nat.leb_le. vm_compute. reflexivity.
    + reflexivity.
Defined.

(** C7, as amended.  The [UserCreate] schema rejects with a validation
    error, so before anything is hashed, a password of fewer than 8 or more
    than 100 characters, the empty one included.  [get_password_hash]
    itself rejects, before any digest is computed, the passwords bcrypt
    refuses: those of more than 4096 bytes and those that hold a NUL byte.
    It hashes every other password. *)
Theorem C7_rejected_before_hashing `{Passlib.BcryptBackend} `{Runtime} (password : string) :
  ((Str.code_points password < 8 \/ 100 < Str.code_points password)%nat ->
   forall email full_name,
     Schemas.UserCreate_new email password full_name = Raise ValidationError) /\
  ((Passlib.MAX_PASSWORD_SIZE < String.length password)%nat ->
   forall drawn_salt,
     Security.get_password_hash drawn_salt password = Raise PasswordSizeError) /\
  ((String.length password <= Passlib.MAX_PASSWORD_SIZE)%nat ->
   Str.contains "000" password = true ->
   forall drawn_salt,
     Security.get_password_hash drawn_salt password = Raise NullPasswordError) /\
  (Passlib.acceptable_secret password = true ->
   forall drawn_salt,
     exists hashed, Security.get_password_hash drawn_salt password = Ok hashed).
Proof.
  split; [|split; [|split]].
  - intros Hlen email full_name. unfold Schemas.UserCreate_new, Schemas.length_within.
    assert (((8 <=? Str.code_points password) && (Str.code_points password <=? 100))%nat
            = false) as ->.
    { apply andb_false_iff. destruct Hlen as [Hshort|Hlong].
      - left. apply Nat.leb_gt. exact Hshort.
      - right. apply Nat.leb_gt. exact Hlong. }
    destruct (validate_email email); [|reflexivity].
    destruct full_name as [n|]; [|reflexivity].
    destruct ((1 <=? Str.code_points n) && (Str.code_points n <=? 255))%nat; reflexivity.
  - intros Hlen drawn_salt. apply PasslibFacts.hash_too_long. exact Hlen.
  - intros Hlen Hnul drawn_salt. apply PasslibFacts.hash_nul; assumption.
  - intros Hacc drawn_salt. eexists. apply PasslibFacts.hash_ok. exact Hacc.
Qed.

Lemma C7_rejected_before_hashing_witness :
  Schemas.UserCreate_new "user@example.com" "short" (Some "John Doe")
    = Raise ValidationError /\
  Schemas.UserCreate_new "user@example.com" "" (Some "John Doe")
    = Raise ValidationError.
Proof.
  split.
  - refine (proj1 (C7_rejected_before_hashing "short") _ "user@example.com"
              (Some "John Doe")).
    left. apply Nat.ltb_lt. vm_compute. reflexivity.
  - refine (proj1 (C7_rejected_before_hashing "") _ "user@example.com" (Some "John Doe")).
    left. apply Nat.ltb_lt. vm_compute. reflexivity.
Defined.

(** C7 as stated fails for the hash operation: [get_password_hash] hashes
    the empty password. *)
Lemma C7_counterexample :
  exists hashed,
    Security.get_password_hash "abcdefghijklmnopqrstuv" "" = Ok hashed /\
    String.length hashed = 60%nat.
Proof. eexists. split; vm_compute; reflexivity. Qed.




(** ** Login *)

(** C8, at the failing inputs.  With a password bcrypt refuses, one of more
    than 4096 bytes or one that holds a NUL byte, [authenticate_user]
    answers [None] for an unknown email and raises for every known one: the
    outcome tells whether the email has an account. *)
Theorem C8_failure_reveals_known_email `{Passlib.BcryptBackend}
    (db : AuthService.Session) (credentials : UserLogin.t) :
  (Passlib.MAX_PASSWORD_SIZE < String.length (UserLogin.password credentials))%nat \/
  Str.contains "000" (UserLogin.password credentials) = true ->
  (AuthService.query_first_by_email db (UserLogin.email credentials) = None ->
   AuthService.authenticate_user db credentials = Ok None) /\
  (forall user,
     AuthService.query_first_by_email db (UserLogin.email credentials) = Some user ->
     exists e, AuthService.authenticate_user db credentials = Raise e).
Proof.
  intros Hrefused. unfold AuthService.authenticate_user. split.
  - intros ->. reflexivity.
  - intros user ->. unfold Security.verify_password.
    destruct Hrefused as [Hlong|Hnul].
    + destruct (PasslibFacts.verify_too_long_raises _ (User.hashed_password user) Hlong)
        as [e ->].
      exists e. reflexivity.
    + destruct (PasslibFacts.verify_nul_raises _ (User.hashed_password user) Hnul)
        as [e ->].
      exists e. reflexivity.
Qed.

Lemma C8_failure_reveals_known_email_witness :
  let alice := {| User.id := 1; User.email := "user@example.com";
                  User.hashed_password :=
                    "$2b$12$abcdefghijklmnopqrstuukdWPIB6zsleXQJC70tmfYRKD81ungZS";
                  User.full_name := Some "John Doe"; User.is_active := true;
                  User.created_at := 0; User.updated_at := 0 |} in
  AuthService.authenticate_user [alice]
    {| UserLogin.email := "nobody@example.com"; UserLogin.password := String "000" "" |}
    = Ok None /\
  exists e,
    AuthService.authenticate_user [alice]
      {| UserLogin.email := "user@example.com"; UserLogin.password := String "000" "" |}
      = Raise e.
Proof.
  intros alice. split.
  - apply (C8_failure_reveals_known_email [alice]
             {| UserLogin.email := "nobody@example.com";
                UserLogin.password := String "000" "" |}).
    + right. reflexivity.
    + reflexivity.
  - apply (proj2 (C8_failure_reveals_known_email [alice]
                    {| UserLogin.email := "user@example.com";
                       UserLogin.password := String "000" "" |}
                    (or_intror eq_refl)) alice).
    reflexivity.
Defined.

(** ** Tokens *)




(** C4, at the failing input.  A token signed under the server's key whose
    [user_id] claim is a string that [int] cannot read: [jwt.decode] accepts
    it, the construction of [TokenData] raises a validation error, and the
    handler, which catches [JWTError] only, lets it through.  The token is
    one [create_access_token] issues, at a current time and with an expiry
    within the range of [datetime]. *)
Theorem C4_unchecked_validation_error `{Jose.Codec} `{Jose.Mac} `{Runtime}
    (cfg : Security.Settings) (data : dict) (subject raw : string)
    (expires_delta : option timedelta) (utcnow : datetime) :
  data !! "sub" = Some (JStr subject) ->
  data !! "user_id" = Some (JStr raw) ->
  int_of_str raw = None ->
  Jose.registered_free data ->
  0 <= Security.ACCESS_TOKEN_EXPIRE_MINUTES cfg ->
  (forall delta, expires_delta = Some delta -> 0 <= delta) ->
  valid_datetime utcnow = true ->
  valid_datetime (Security.expiry cfg expires_delta utcnow) = true ->
  exists token,
    Security.create_access_token cfg data expires_delta utcnow = Ok token /\
    Security.decode_access_token cfg token utcnow = Raise ValidationError.
Proof.
  intros Hsub Huid Hint Hfree Hdefault Hdelta Hnow Hexp.
  eexists. split; [exact (SecurityFacts.create_access_token_ok cfg _ _ _ Hnow Hexp)|].
  pose proof (SecurityFacts.jwt_decode_issued cfg data expires_delta utcnow utcnow Hfree)
    as Hdec.
  pose proof (SecurityFacts.timegm_mono _ _
                (SecurityFacts.expiry_not_before cfg expires_delta utcnow Hdefault Hdelta))
    as Hle.
  destruct (Z.ltb_spec (timegm (Security.expiry cfg expires_delta utcnow)) (timegm utcnow));
    [lia|].
  unfold Jose.validate_str_claim in Hdec. rewrite Hsub in Hdec.
  cbn [mbind result_bind] in Hdec.
  rewrite (SecurityFacts.decode_access_token_payload cfg _ _ _ Hdec).
  unfold dict_get. rewrite !SecurityFacts.token_claims_other by discriminate.
  rewrite Hsub, Huid. cbn [is_None orb].
  unfold Schemas.TokenData_new, Schemas.optional, Schemas.int_validator, py_int.
  rewrite Hint. reflexivity.
Qed.

Lemma C4_unchecked_validation_error_witness :
  exists token,
    Security.create_access_token Security.default_settings
      (<["sub" := JStr "user@example.com"]> {["user_id" := JStr "abc"]}) None
      (seconds 1772193600) = Ok token /\
    Security.decode_access_token Security.default_settings token (seconds 1772193600)
      = Raise ValidationError.
Proof.
  apply (C4_unchecked_validation_error Security.default_settings _ "user@example.com" "abc").
  - reflexivity.
  - reflexivity.
  - reflexivity.
  - repeat split; reflexivity.
  - cbn. lia.
  - intros delta Hdelta. discriminate Hdelta.
  - reflexivity.
  - reflexivity.
Defined.




(** C6, at the failing input.  With [expires_delta = timedelta(0)] the test
    [if expires_delta:] is false: the call issues the very token it issues
    without [expires_delta], whose expiry is the current time plus the
    default lifetime (3600 seconds under the default configuration), not the
    current time plus the supplied duration. *)
Theorem C6_zero_delta_takes_default `{Jose.Codec} `{Jose.Mac}
    (cfg : Security.Settings) (data : dict) (utcnow : datetime) :
  Security.create_access_token cfg data (Some (seconds 0)) utcnow
    = Security.create_access_token cfg data None utcnow /\
  Security.token_claims Security.default_settings data (Some (seconds 0)) utcnow !! "exp"
    = Some (JInt (timegm utcnow + 3600)) /\
  Security.token_claims Security.default_settings data (Some (seconds 0)) utcnow !! "exp"
    <> Some (JInt (timegm (utcnow + seconds 0))).
Proof.
  split; [reflexivity|].
  rewrite SecurityFacts.token_claims_exp.
  change (seconds 0) with 0. rewrite SecurityFacts.expiry_zero.
  change (minutes (Security.ACCESS_TOKEN_EXPIRE_MINUTES Security.default_settings))
    with (seconds 3600).
  rewrite SecurityFacts.timegm_add_seconds, Z.add_0_r.
  split; [reflexivity|]. intros [= Heq]. lia.
Qed.



(** * Further properties *)

(** ** Lists and rows *)

Module ListFacts.

Lemma find_app_last {A : Type} (p : A -> bool) (l : list A) (x : A) :
  List.find p (l ++ [x]) =
    match List.find p l with
    | Some y => Some y
    | None => if p x then Some x else None
    end.
Proof.
  induction l as [|a l IH]; [reflexivity|].
  cbn [app List.find]. destruct (p a); [reflexivity | exact IH].
Qed.

Lemma find_map_same {A : Type} (p : A -> bool) (f : A -> A) (l : list A) :
  (forall x, In x l -> p (f x) = p x) ->
  List.find p (map f l) = option_map f (List.find p l).
Proof.
  induction l as [|a l IH]; intros Hp; [reflexivity|].
  cbn [map List.find]. rewrite (Hp a (or_introl eq_refl)).
  destruct (p a); [reflexivity|].
  apply IH. intros x Hx. apply Hp. right. exact Hx.
Qed.

(** In a list without two elements of the same key, the search by key finds
    the element one holds. *)
Lemma find_by_key {A K : Type} (key : A -> K) (eqb : K -> K -> bool) (l : list A) (u : A) :
  (forall a b, eqb a b = true <-> a = b) ->
  NoDup (map key l) -> In u l ->
  List.find (fun x => eqb (key x) (key u)) l = Some u.
Proof.
  intros Heqb. induction l as [|a l IH]; intros Hnodup Hin; [destruct Hin|].
  cbn [map] in Hnodup. apply NoDup_cons in Hnodup as [Hfresh Hnodup].
  cbn [List.find]. destruct Hin as [->|Hin].
  - rewrite (proj2 (Heqb (key u) (key u)) eq_refl). reflexivity.
  - destruct (eqb (key a) (key u)) eqn:Hkey; [|exact (IH Hnodup Hin)].
    apply Heqb in Hkey. exfalso. apply Hfresh. rewrite Hkey.
    apply list_elem_of_In. apply in_map. exact Hin.
Qed.

Lemma same_key_same_row {A K : Type} (key : A -> K) (l : list A) (x y : A) :
  NoDup (map key l) -> In x l -> In y l -> key x = key y -> x = y.
Proof.
  induction l as [|a l IH]; intros Hnodup Hx Hy Hkey; [destruct Hx|].
  cbn [map] in Hnodup. apply NoDup_cons in Hnodup as [Hfresh Hnodup].
  destruct Hx as [->|Hx], Hy as [->|Hy].
  - reflexivity.
  - exfalso. apply Hfresh. rewrite Hkey. apply list_elem_of_In, in_map, Hy.
  - exfalso. apply Hfresh. rewrite <- Hkey. apply list_elem_of_In, in_map, Hx.
  - exact (IH Hnodup Hx Hy Hkey).
Qed.

Lemma string_eqb_iff (a b : string) : String.eqb a b = true <-> a = b.
Proof. apply String.eqb_eq. Qed.

Lemma length_append (x y : string) :
  String.length (x +:+ y) = (String.length x + String.length y)%nat.
Proof.
  induction x as [|a x IH]; [reflexivity|].
  rewrite StrFacts.app_cons. cbn [String.length]. rewrite IH. reflexivity.
Qed.

End ListFacts.

(** ** Hash strings *)

Module HashFacts.
Import Passlib PasslibFacts.

Section Facts.
Context `{BcryptBackend}.

(** A hash that [hash] returned comes from an acceptable secret and has the
    shape [to_string] gives. *)
Lemma hash_inv (drawn_salt secret h : string) :
  hash drawn_salt secret = Ok h ->
  acceptable_secret secret = true /\
  h = to_string default_ident default_rounds (repair_unused drawn_salt)
        (bcrypt_digest default_ident default_rounds (repair_unused drawn_salt) secret).
Proof.
  intros Hhash.
  destruct (Nat.ltb_spec MAX_PASSWORD_SIZE (String.length secret)) as [Hlong|Hlen].
  { rewrite (hash_too_long _ _ Hlong) in Hhash. discriminate. }
  destruct (Str.contains "000" secret) eqn:Hnul.
  { rewrite (hash_nul _ _ Hlen Hnul) in Hhash. discriminate. }
  assert (Hacc : acceptable_secret secret = true).
  { unfold acceptable_secret. rewrite Hnul.
    apply andb_true_iff. split; [apply Nat.leb_le; exact Hlen | reflexivity]. }
  rewrite (hash_ok _ _ Hacc) in Hhash. injection Hhash as <-.
  split; [exact Hacc | reflexivity].
Qed.

(** The secret verifies against the hash made from it. *)
Lemma hash_then_verify (drawn_salt secret h : string) :
  valid_salt drawn_salt = true ->
  hash drawn_salt secret = Ok h ->
  verify secret h = Ok true.
Proof.
  intros Hsalt [Hacc ->]%hash_inv.
  rewrite (verify_parsed _ _ _ _ Hacc (from_string_hash _ _ Hsalt) eq_refl).
  cbn [ident rounds salt]. unfold consteq. rewrite String.eqb_refl. reflexivity.
Qed.

Lemma to_string_length (s c : string) :
  valid_salt s = true -> valid_checksum c = true ->
  String.length (to_string default_ident default_rounds s c) = 60%nat.
Proof.
  intros [Hs _]%valid_salt_inv [Hc _]%valid_checksum_inv.
  unfold to_string. rewrite !ListFacts.length_append, Hs, Hc. reflexivity.
Qed.

End Facts.

End HashFacts.

(** X1.  A hash string [get_password_hash] returns has 60 characters, starts
    with the bcrypt identifier [$2b$] and parses as a bcrypt hash with the
    cost 12, the drawn salt with its padding bits cleared, and the digest of
    the password under that salt. *)
Theorem password_hash_shape `{Passlib.BcryptBackend} (drawn_salt password hashed : string) :
  Passlib.valid_salt drawn_salt = true ->
  Security.get_password_hash drawn_salt password = Ok hashed ->
  String.length hashed = 60%nat /\
  Str.strip_prefix "$2b$" hashed <> None /\
  Passlib.from_string hashed =
    Ok {| Passlib.ident := "$2b$"; Passlib.rounds := 12;
          Passlib.salt := Passlib.repair_unused drawn_salt;
          Passlib.checksum :=
            Some (Passlib.bcrypt_digest "$2b$" 12 (Passlib.repair_unused drawn_salt)
                    password) |}.
Proof.
  intros Hsalt Hhash. unfold Security.get_password_hash in Hhash.
  destruct (HashFacts.hash_inv _ _ _ Hhash) as [_ ->].
  split; [|split].
  - apply HashFacts.to_string_length;
      [exact (PaddingFacts.repair_valid_salt _ Hsalt) | apply Passlib.bcrypt_digest_wf].
  - discriminate.
  - exact (PasslibFacts.from_string_hash _ _ Hsalt).
Qed.

Lemma password_hash_shape_witness :
  exists hashed,
    Security.get_password_hash "abcdefghijklmnopqrstuv" "securepassword123" = Ok hashed /\
    Passlib.repair_unused "abcdefghijklmnopqrstuv" = "abcdefghijklmnopqrstuu" /\
    String.length hashed = 60%nat /\
    Str.strip_prefix "$2b$" hashed <> None /\
    Passlib.from_string hashed =
      Ok {| Passlib.ident := "$2b$"; Passlib.rounds := 12;
            Passlib.salt := Passlib.repair_unused "abcdefghijklmnopqrstuv";
            Passlib.checksum :=
              Some (Passlib.bcrypt_digest "$2b$" 12
                      (Passlib.repair_unused "abcdefghijklmnopqrstuv")
                      "securepassword123") |}.
Proof.
  eexists. split; [vm_compute; reflexivity|]. split; [reflexivity|].
  apply (password_hash_shape "abcdefghijklmnopqrstuv" "securepassword123").
  - reflexivity.
  - vm_compute. reflexivity.
Defined.

(** ** Tokens *)

Module TokenFacts.
Import Jose JoseFacts Security SecurityFacts StrFacts.

Section Facts.
Context `{Codec} `{Mac} `{Runtime}.
Variable cfg : Settings.

(** Loading three well-encoded parts, whatever the signature is. *)
Lemma load_parts (alg : algorithm) (payload : dict) (signature : string) :
  load ((encode_header alg +:+ String "." (encode_payload payload)) +:+
          String "." (base64url_encode signature)) =
    Ok (jws_header alg, json_dumps payload,
        encode_header alg +:+ String "." (encode_payload payload), signature).
Proof.
  unfold load, encode_header, encode_payload.
  rewrite rsplit1_app by apply base64url_no_dot. cbn [or_raise mbind result_bind].
  rewrite split1_app by apply base64url_no_dot. cbn [or_raise mbind result_bind].
  rewrite !base64url_decode_encode. cbn [or_raise mbind result_bind].
  rewrite loads_object_dumps. reflexivity.
Qed.

(** Decoding, at any time, the token the service issues for a user. *)
Lemma decode_service_token (user : User.t) (issued now : datetime) :
  decode_access_token cfg (encoded_jwt cfg (AuthService.token_data_for user) None issued) now =
    if timegm (issued + minutes (ACCESS_TOKEN_EXPIRE_MINUTES cfg)) <? timegm now
    then Ok None
    else Ok (Some {| TokenData.email := Some (User.email user);
                     TokenData.user_id := Some (User.id user) |}).
Proof.
  rewrite (decode_issued cfg (AuthService.token_data_for user) None issued now
             (User.email user) (User.id user)).
  - reflexivity.
  - apply lookup_insert_eq.
  - unfold AuthService.token_data_for. rewrite lookup_insert_ne by discriminate.
    apply lookup_singleton_eq.
  - unfold registered_free, AuthService.token_data_for.
    rewrite !lookup_insert_ne by discriminate.
    rewrite !lookup_singleton_ne by discriminate. tauto.
Qed.

End Facts.

End TokenFacts.

(** X2.  A token whose header names no algorithm, or any other than the
    configured one, is refused, whatever its payload and its signature. *)
Theorem decode_rejects_other_algorithm `{Jose.Codec} `{Jose.Mac} `{Runtime}
    (cfg : Security.Settings) (token : string) (now : datetime)
    (header : dict) (payload signing_input signature : string) :
  Jose.load token = Ok (header, payload, signing_input, signature) ->
  header !! "alg" <> Some (JStr (Jose.alg_name (Security.ALGORITHM cfg))) ->
  Security.decode_access_token cfg token now = Ok None.
Proof.
  intros Hload Halg.
  unfold Security.decode_access_token, Jose.jwt_decode, Jose.jws_verify.
  rewrite Hload. cbn [mbind result_bind]. unfold Jose.verify_signature.
  destruct (header !! "alg") as [[|b|n|alg|raw|raw]|]; try reflexivity.
  cbn [List.find].
  destruct (String.eqb_spec (Jose.alg_name (Security.ALGORITHM cfg)) alg) as [Heq|_];
    [|reflexivity].
  contradict Halg. rewrite Heq. reflexivity.
Qed.

Lemma decode_rejects_other_algorithm_witness :
  Security.decode_access_token Security.default_settings
    (Jose.jwt_encode
       (<["sub" := JStr "user@example.com"]> {["user_id" := JInt 1]})
       "your-secret-key-change-in-production" Jose.HS512) 0
  = Ok None.
Proof.
  eapply decode_rejects_other_algorithm.
  - apply JoseFacts.load_sign.
  - vm_compute. discriminate.
Defined.

(** X3.  A token whose payload was replaced while the signature was kept is
    refused, unless the MAC of the new content collides with the old one. *)
Theorem decode_rejects_replaced_payload `{Jose.Codec} `{Jose.Mac} `{Runtime}
    (cfg : Security.Settings) (claims forged : dict) (now : datetime) :
  let key := Security.SECRET_KEY cfg in
  let alg := Security.ALGORITHM cfg in
  let signed := Jose.encode_header alg +:+ String "." (Jose.encode_payload claims) in
  let altered := Jose.encode_header alg +:+ String "." (Jose.encode_payload forged) in
  Jose.hmac_sign alg key altered <> Jose.hmac_sign alg key signed ->
  Security.decode_access_token cfg
    (altered +:+ String "." (Jose.base64url_encode (Jose.hmac_sign alg key signed))) now
  = Ok None.
Proof.
  intros key alg signed altered Hmac.
  unfold Security.decode_access_token, Jose.jwt_decode, Jose.jws_verify.
  subst altered. rewrite TokenFacts.load_parts. cbn [mbind result_bind].
  unfold Jose.verify_signature, Jose.jws_header. rewrite lookup_insert_eq.
  fold alg. rewrite JoseFacts.find_own_algorithm.
  destruct (String.eqb_spec
              (Jose.hmac_sign alg (Security.SECRET_KEY cfg)
                 (Jose.encode_header alg +:+ String "." (Jose.encode_payload forged)))
              (Jose.hmac_sign alg key signed)) as [Heq|_]; [contradiction | reflexivity].
Qed.

Lemma decode_rejects_replaced_payload_witness :
  let cfg := Security.default_settings in
  let alg := Jose.HS256 in
  let claims : dict := <["sub" := JStr "user@example.com"]> {["user_id" := JInt 1]} in
  let forged : dict := <["sub" := JStr "admin@example.com"]> {["user_id" := JInt 2]} in
  Security.decode_access_token cfg
    ((Jose.encode_header alg +:+ String "." (Jose.encode_payload forged)) +:+
       String "." (Jose.base64url_encode
                     (Jose.hmac_sign alg (Security.SECRET_KEY cfg)
                        (Jose.encode_header alg +:+ String "." (Jose.encode_payload claims)))))
    0
  = Ok None.
Proof.
  intros cfg alg claims forged.
  apply (decode_rejects_replaced_payload cfg claims forged 0).
  vm_compute. discriminate.
Defined.

(** X5.  A token issued for claims that hold an [aud] entry (and no [iat] or
    [nbf]) is never accepted: [decode_access_token] names no audience. *)
Theorem audience_claim_never_decodes `{Jose.Codec} `{Jose.Mac} `{Runtime}
    (cfg : Security.Settings) (data : dict) (audience : jvalue)
    (expires_delta : option timedelta) (issued now : datetime) (token : string) :
  data !! "aud" = Some audience ->
  data !! "iat" = None ->
  data !! "nbf" = None ->
  Security.create_access_token cfg data expires_delta issued = Ok token ->
  Security.decode_access_token cfg token now = Ok None.
Proof.
  intros Haud Hiat Hnbf [-> _]%SecurityFacts.create_access_token_inv.
  assert (exists why,
            Jose.jwt_decode (Security.encoded_jwt cfg data expires_delta issued)
              (Security.SECRET_KEY cfg) [Security.ALGORITHM cfg] now = Raise (JWTError why))
    as [why Hdec].
  { rewrite SecurityFacts.encoded_jwt_claims, JoseFacts.jwt_decode_encode.
    unfold Jose.validate_claims, Jose.validate_iat, Jose.validate_nbf, Jose.validate_exp,
      Jose.validate_aud.
    rewrite SecurityFacts.token_claims_exp.
    rewrite !SecurityFacts.token_claims_other by discriminate.
    rewrite Hiat, Hnbf, Haud. cbn [mbind result_bind Jose.claim_int py_int].
    destruct (_ <? timegm now); eexists; reflexivity. }
  exact (SecurityFacts.decode_access_token_JWTError cfg _ _ _ Hdec).
Qed.

Lemma audience_claim_never_decodes_witness :
  exists token,
    Security.create_access_token Security.default_settings
      (<["aud" := JStr "api"]>
         (<["sub" := JStr "user@example.com"]> {["user_id" := JInt 1]})) None
      (seconds 1772193600) = Ok token /\
    Security.decode_access_token Security.default_settings token (seconds 1772193600)
      = Ok None.
Proof.
  eexists. split; [vm_compute; reflexivity|].
  eapply (audience_claim_never_decodes Security.default_settings
            (<["aud" := JStr "api"]>
               (<["sub" := JStr "user@example.com"]> {["user_id" := JInt 1]}))
            (JStr "api") None (seconds 1772193600)).
  - reflexivity.
  - reflexivity.
  - reflexivity.
  - vm_compute. reflexivity.
Defined.

(** X28.  A string of three parts whose first part decodes to a text nested
    beyond the recursion limit of [json.loads] makes [decode_access_token]
    raise [RecursionError]: the header is read before any signature is
    checked, so the string needs no key, and the handler catches
    [JWTError] only. *)
Theorem deep_header_escapes `{Jose.Codec} `{Jose.Mac} `{Runtime}
    (cfg : Security.Settings) (header_text claims_segment crypto_segment : string)
    (now : datetime) :
  Jose.json_depth_exceeded header_text = true ->
  Str.contains "." claims_segment = false ->
  Str.contains "." crypto_segment = false ->
  Security.decode_access_token cfg
    ((Jose.base64url_encode header_text +:+ String "." claims_segment)
       +:+ String "." crypto_segment) now
  = Raise RecursionError.
Proof.
  intros Hdeep Hclaims Hcrypto.
  unfold Security.decode_access_token, Jose.jwt_decode, Jose.jws_verify, Jose.load.
  rewrite (StrFacts.rsplit1_app _ _ _ Hcrypto). cbn [or_raise mbind result_bind].
  rewrite (StrFacts.split1_app _ _ _ (Jose.base64url_no_dot header_text)).
  cbn [or_raise mbind result_bind].
  rewrite Jose.base64url_decode_encode. cbn [or_raise mbind result_bind].
  unfold Jose.loads_object. rewrite Hdeep. reflexivity.
Qed.

Lemma deep_header_escapes_witness :
  Security.decode_access_token Security.default_settings
    ((Jose.base64url_encode (Reference.tabulate (fun _ => "["%char) 1001)
        +:+ String "." "e30")
       +:+ String "." "c2ln") 0
  = Raise RecursionError.
Proof. apply deep_header_escapes; vm_compute; reflexivity. Defined.

(** X29.  A token the service itself issued for claims whose [iat] is an
    infinite number makes [decode_access_token] raise [OverflowError]:
    [json.dumps] writes the claim as [Infinity], [json.loads] reads it back,
    and python-jose's check of [iat] calls [int] on it under a handler for
    [ValueError] only. *)
Theorem infinite_time_claim_escapes `{Jose.Codec} `{Jose.Mac} `{Runtime}
    (cfg : Security.Settings) (data : dict) (raw : string)
    (expires_delta : option timedelta) (issued now : datetime) (token : string) :
  data !! "iat" = Some (JFloat raw) ->
  infinite raw = true ->
  Security.create_access_token cfg data expires_delta issued = Ok token ->
  Security.decode_access_token cfg token now = Raise OverflowError.
Proof.
  intros Hiat Hinf [-> _]%SecurityFacts.create_access_token_inv.
  unfold Security.decode_access_token.
  rewrite SecurityFacts.encoded_jwt_claims, JoseFacts.jwt_decode_encode.
  unfold Jose.validate_claims, Jose.validate_iat.
  rewrite SecurityFacts.token_claims_other by discriminate.
  rewrite Hiat. unfold Jose.claim_int, py_int. rewrite Hinf. reflexivity.
Qed.

Lemma infinite_time_claim_escapes_witness :
  exists token,
    Security.create_access_token Security.default_settings
      (<["iat" := JFloat "Infinity"]>
         (<["sub" := JStr "user@example.com"]> {["user_id" := JInt 1]})) None
      (seconds 1772193600) = Ok token /\
    Security.decode_access_token Security.default_settings token (seconds 1772193600)
      = Raise OverflowError.
Proof.
  eexists. split; [vm_compute; reflexivity|].
  eapply (infinite_time_claim_escapes Security.default_settings
            (<["iat" := JFloat "Infinity"]>
               (<["sub" := JStr "user@example.com"]> {["user_id" := JInt 1]}))
            "Infinity" None (seconds 1772193600)).
  - reflexivity.
  - reflexivity.
  - vm_compute. reflexivity.
Defined.

(** ** The dependencies of the endpoints *)

Module DependencyFacts.
Import Security.

Section Facts.
Context `{Jose.Codec} `{Jose.Mac} `{Runtime}.
Variable cfg : Settings.

(** The dictionary [get_current_user] builds. *)
Definition user_of (token_data : TokenData.t) : dict :=
  <["id" := of_optional_int (TokenData.user_id token_data)]>
    (<["email" := of_optional_str (TokenData.email token_data)]>
       {["is_active" := JBool true]}).

Lemma get_current_active_user_built (token_data : TokenData.t) :
  get_current_active_user (user_of token_data) = Done (user_of token_data).
Proof.
  unfold get_current_active_user, user_of.
  rewrite !lookup_insert_ne by discriminate. rewrite lookup_singleton_eq.
  reflexivity.
Qed.

Lemma current_active_user_cases (token : string) (utcnow : datetime) :
  current_active_user cfg token utcnow =
    match decode_access_token cfg token utcnow with
    | Ok None => Abort credentials_exception
    | Ok (Some token_data) => Done (user_of token_data)
    | Raise e => Abort (Uncaught e)
    end.
Proof.
  unfold current_active_user, get_current_user.
  destruct (decode_access_token cfg token utcnow) as [[token_data|]|e];
    cbn [lift mbind outcome_bind]; [|reflexivity..].
  apply get_current_active_user_built.
Qed.

End Facts.

End DependencyFacts.

(** X6.  What an endpoint guarded by [Depends(get_current_active_user)] gets
    from a bearer token: 401 when the token does not decode, the user built
    from the token data when it does, and never the 400 of an inactive
    user. *)
Theorem current_active_user_outcomes `{Jose.Codec} `{Jose.Mac} `{Runtime}
    (cfg : Security.Settings) (token : string) (utcnow : datetime) :
  (Security.decode_access_token cfg token utcnow = Ok None ->
   Security.current_active_user cfg token utcnow = Abort Security.credentials_exception) /\
  (forall token_data,
     Security.decode_access_token cfg token utcnow = Ok (Some token_data) ->
     Security.current_active_user cfg token utcnow
       = Done (<["id" := Security.of_optional_int (TokenData.user_id token_data)]>
                 (<["email" := Security.of_optional_str (TokenData.email token_data)]>
                    {["is_active" := JBool true]}))) /\
  (forall detail headers,
     Security.current_active_user cfg token utcnow
       <> Abort (HTTPException 400 detail headers)).
Proof.
  rewrite DependencyFacts.current_active_user_cases.
  destruct (Security.decode_access_token cfg token utcnow) as [[token_data|]|e].
  - split; [discriminate|]. split; [|discriminate].
    intros token_data' [= <-]. reflexivity.
  - split; [reflexivity|]. split; [discriminate|].
    intros detail headers. unfold Security.credentials_exception. discriminate.
  - split; [discriminate|]. split; discriminate.
Qed.

Lemma current_active_user_outcomes_witness :
  Security.current_active_user Security.default_settings "invalid.jwt.token" 0
    = Abort Security.credentials_exception.
Proof.
  refine (proj1 (current_active_user_outcomes Security.default_settings
                   "invalid.jwt.token" 0) _).
  vm_compute. reflexivity.
Defined.

(** X7.  A bearer string without a dot, the empty one included, is answered
    401. *)
Theorem bearer_without_dot_unauthorized `{Jose.Codec} `{Jose.Mac} `{Runtime}
    (cfg : Security.Settings) (token : string) (utcnow : datetime) :
  Str.contains "." token = false ->
  Security.current_active_user cfg token utcnow = Abort Security.credentials_exception.
Proof.
  intros Hdot. rewrite DependencyFacts.current_active_user_cases.
  rewrite (SecurityFacts.decode_access_token_no_dot cfg token utcnow Hdot).
  reflexivity.
Qed.

Lemma bearer_without_dot_unauthorized_witness :
  Security.current_active_user Security.default_settings "mock_jwt_token_for_testing" 0
    = Abort Security.credentials_exception.
Proof. apply bearer_without_dot_unauthorized. reflexivity. Defined.

(** X8.  A response [create_token_for_user] returns is built around an
    access token that opens the guarded endpoints until its expiry second
    has passed, whatever the [is_active] flag of the user: [verify_token]
    then answers with the user's id and email.  After that the answer is
    401. *)
Theorem service_token_at_endpoint `{Jose.Codec} `{Jose.Mac} `{Runtime}
    `{AuthService.TokenSchema}
    (cfg : Security.Settings) (user : User.t) (issued : datetime)
    (response : AuthService.Token) :
  AuthService.create_token_for_user cfg user issued = Ok response ->
  exists access_token,
    Security.create_access_token cfg (AuthService.token_data_for user) None issued
      = Ok access_token /\
    AuthService.Token_new access_token "bearer" 3600 = Ok response /\
    forall now,
      let expiry := issued + minutes (Security.ACCESS_TOKEN_EXPIRE_MINUTES cfg) in
      (timegm now <= timegm expiry ->
       (current_user ← Security.current_active_user cfg access_token now;
        Done (Routes.verify_token current_user))
       = Done (<["valid" := JBool true]>
                 (<["user_id" := JInt (User.id user)]>
                    {["email" := JStr (User.email user)]}))) /\
      (timegm expiry < timegm now ->
       Security.current_active_user cfg access_token now
         = Abort Security.credentials_exception).
Proof.
  intros [Hnew Hissue]%ServiceFacts.create_token_for_user_inv.
  eexists. split; [exact Hissue|]. split; [exact Hnew|].
  intros now expiry.
  rewrite DependencyFacts.current_active_user_cases.
  rewrite TokenFacts.decode_service_token. fold expiry.
  destruct (Z.ltb_spec (timegm expiry) (timegm now)) as [Hlt|Hge].
  - split; [lia | reflexivity].
  - split; [|lia]. intros _. cbn [mbind outcome_bind].
    unfold Routes.verify_token, DependencyFacts.user_of, dict_get.
    rewrite lookup_insert_eq.
    rewrite lookup_insert_ne by discriminate. rewrite lookup_insert_eq.
    reflexivity.
Qed.

Lemma service_token_at_endpoint_witness :
  let user := {| User.id := 7; User.email := "user@example.com";
                 User.hashed_password :=
                   "$2b$12$abcdefghijklmnopqrstuukdWPIB6zsleXQJC70tmfYRKD81ungZS";
                 User.full_name := None; User.is_active := false;
                 User.created_at := 0; User.updated_at := 0 |} in
  let issued := seconds 1772193600 in
  let response : AuthService.Token :=
    (Security.encoded_jwt Security.default_settings (AuthService.token_data_for user)
       None issued, "bearer"%string, 3600) in
  exists access_token,
    Security.create_access_token Security.default_settings
      (AuthService.token_data_for user) None issued = Ok access_token /\
    AuthService.Token_new access_token "bearer" 3600 = Ok response /\
    forall now,
      let expiry := issued + minutes 60 in
      (timegm now <= timegm expiry ->
       (current_user ← Security.current_active_user Security.default_settings
                         access_token now;
        Done (Routes.verify_token current_user))
       = Done (<["valid" := JBool true]>
                 (<["user_id" := JInt 7]> {["email" := JStr "user@example.com"]}))) /\
      (timegm expiry < timegm now ->
       Security.current_active_user Security.default_settings access_token now
         = Abort Security.credentials_exception).
Proof.
  intros user issued response.
  apply (service_token_at_endpoint Security.default_settings user issued response).
  reflexivity.
Defined.



(** ** Accounts *)

Module AccountFacts.
Import AuthService ListFacts.

Lemma query_none (db : Session) (email : string) :
  query_first_by_email db email = None -> ~ In email (map User.email db).
Proof.
  unfold query_first_by_email. intros Hnone [u [Hemail Hin]]%in_map_iff.
  pose proof (find_none _ _ Hnone u Hin) as Hneq. cbn in Hneq.
  rewrite Hemail, String.eqb_refl in Hneq. discriminate.
Qed.

Lemma get_by_id_none (db : Session) (user_id : Z) :
  ~ In user_id (map User.id db) -> get_user_by_id db user_id = None.
Proof.
  intros Hfresh. unfold get_user_by_id.
  destruct (List.find _ db) as [u|] eqn:Hfind; [|reflexivity].
  apply find_some in Hfind as [Hin Heq%Z.eqb_eq]. exfalso. apply Hfresh.
  rewrite <- Heq. apply in_map. exact Hin.
Qed.

Lemma query_own_email (db : Session) (user : User.t) :
  consistent db -> In user db -> query_first_by_email db (User.email user) = Some user.
Proof.
  intros [_ Hemails] Hin. unfold query_first_by_email.
  exact (find_by_key User.email String.eqb db user string_eqb_iff Hemails Hin).
Qed.

Lemma get_by_own_id (db : Session) (user : User.t) :
  consistent db -> In user db -> get_user_by_id db (User.id user) = Some user.
Proof.
  intros [Hids _] Hin. unfold get_user_by_id.
  exact (find_by_key User.id Z.eqb db user Z.eqb_eq Hids Hin).
Qed.

(** Rewriting the row of [user] with a row of the same id and email. *)
Section Commit.
Variables (db : Session) (user changed : User.t).
Hypothesis Hdb : consistent db.
Hypothesis Hin : In user db.
Hypothesis Hid : User.id changed = User.id user.
Hypothesis Hemail : User.email changed = User.email user.

Lemma commit_row_email (row : User.t) :
  In row db -> User.id row = User.id changed -> User.email changed = User.email row.
Proof.
  intros Hrow Heq. rewrite Hid in Heq.
  rewrite (same_key_same_row User.id db row user (proj1 Hdb) Hrow Hin Heq).
  exact Hemail.
Qed.

Lemma commit_ids : map User.id (commit_user db changed) = map User.id db.
Proof.
  unfold commit_user. rewrite map_map. apply map_ext_in. intros row Hrow.
  destruct (Z.eqb_spec (User.id row) (User.id changed)) as [Heq|_]; congruence.
Qed.

Lemma commit_emails : map User.email (commit_user db changed) = map User.email db.
Proof.
  unfold commit_user. rewrite map_map. apply map_ext_in. intros row Hrow.
  destruct (Z.eqb_spec (User.id row) (User.id changed)) as [Heq|_]; [|reflexivity].
  exact (commit_row_email row Hrow Heq).
Qed.

Lemma commit_consistent : consistent (commit_user db changed).
Proof. unfold consistent. rewrite commit_ids, commit_emails. exact Hdb. Qed.

Lemma commit_length : length (commit_user db changed) = length db.
Proof. unfold commit_user. apply length_map. Qed.

Lemma commit_query (email : string) :
  query_first_by_email (commit_user db changed) email =
    match query_first_by_email db email with
    | Some row => Some (if Z.eqb (User.id row) (User.id changed) then changed else row)
    | None => None
    end.
Proof.
  unfold query_first_by_email, commit_user.
  rewrite find_map_same.
  - destruct (List.find _ db) as [row|]; reflexivity.
  - intros row Hrow. cbn beta.
    destruct (Z.eqb_spec (User.id row) (User.id changed)) as [Heq|_]; [|reflexivity].
    rewrite (commit_row_email row Hrow Heq). reflexivity.
Qed.

(** A row found under another email is not the rewritten one. *)
Lemma other_row_kept (email : string) :
  email <> User.email user ->
  match query_first_by_email db email with
  | Some row => Some (if Z.eqb (User.id row) (User.id changed) then changed else row)
  | None => None
  end = query_first_by_email db email.
Proof.
  intros Hother. unfold query_first_by_email.
  destruct (List.find _ db) as [row|] eqn:Hfind; [|reflexivity].
  apply find_some in Hfind as [Hrow Hrow_email%String.eqb_eq].
  destruct (Z.eqb_spec (User.id row) (User.id changed)) as [Heq|_]; [|reflexivity].
  exfalso. apply Hother. rewrite <- Hrow_email, <- Hemail.
  symmetry. exact (commit_row_email row Hrow Heq).
Qed.

End Commit.

End AccountFacts.

(** X9.  Registration, then login: the user [create_user] returns is the one
    [authenticate_user] finds with the registered email and password; the
    account is active and its stored hash is not left empty. *)
Theorem registration_then_login `{Passlib.BcryptBackend}
    (db db' : AuthService.Session) (user_data : UserCreate.t) (drawn_salt : string)
    (assigned_id : Z) (utcnow : datetime) (user : User.t) :
  Passlib.valid_salt drawn_salt = true ->
  AuthService.create_user db user_data drawn_salt assigned_id utcnow = Ok (db', user) ->
  AuthService.authenticate_user db'
    {| UserLogin.email := UserCreate.email user_data;
       UserLogin.password := UserCreate.password user_data |} = Ok (Some user) /\
  User.is_active user = true /\
  String.length (User.hashed_password user) = 60%nat.
Proof.
  intros Hsalt Hcreate. unfold AuthService.create_user in Hcreate.
  destruct (AuthService.query_first_by_email db (UserCreate.email user_data))
    as [taken|] eqn:Hfree; [discriminate|].
  destruct (Security.get_password_hash drawn_salt (UserCreate.password user_data))
    as [hashed|] eqn:Hhash; cbn [mbind result_bind] in Hcreate; [|discriminate].
  injection Hcreate as <- <-. split; [|split; [reflexivity|]].
  - unfold AuthService.authenticate_user, AuthService.query_first_by_email.
    cbn [UserLogin.email UserLogin.password].
    rewrite ListFacts.find_app_last.
    unfold AuthService.query_first_by_email in Hfree. rewrite Hfree.
    cbn [User.email]. rewrite String.eqb_refl. cbn [mbind result_bind User.hashed_password].
    unfold Security.verify_password.
    rewrite (HashFacts.hash_then_verify _ _ _ Hsalt Hhash). reflexivity.
  - cbn [User.hashed_password].
    unfold Security.get_password_hash in Hhash.
    destruct (HashFacts.hash_inv _ _ _ Hhash) as [_ ->].
    apply HashFacts.to_string_length;
      [exact (PaddingFacts.repair_valid_salt _ Hsalt) | apply Passlib.bcrypt_digest_wf].
Qed.

Lemma registration_then_login_witness :
  let user_data := {| UserCreate.email := "user@example.com";
                      UserCreate.full_name := Some "John Doe";
                      UserCreate.password := "securepassword123" |} in
  let user := {| User.id := 1; User.email := "user@example.com";
                 User.hashed_password :=
                   "$2b$12$abcdefghijklmnopqrstuuRKD81ungZSLE92vohaTMF.3wpibUNG.";
                 User.full_name := Some "John Doe"; User.is_active := true;
                 User.created_at := 0; User.updated_at := 0 |} in
  AuthService.authenticate_user [user]
    {| UserLogin.email := "user@example.com"; UserLogin.password := "securepassword123" |}
    = Ok (Some user) /\
  User.is_active user = true /\
  String.length (User.hashed_password user) = 60%nat.
Proof.
  intros user_data user.
  apply (registration_then_login [] [user] user_data "abcdefghijklmnopqrstuv" 1 0 user).
  - reflexivity.
  - vm_compute. reflexivity.
Defined.

(** X10.  An email is registered once: after a successful [create_user], every
    further [create_user] with the same email raises [ValueError], whatever
    the password. *)
Theorem email_registered_once `{Passlib.BcryptBackend}
    (db db' : AuthService.Session) (user_data again : UserCreate.t)
    (drawn_salt salt' : string) (assigned_id id' : Z) (utcnow now' : datetime)
    (user : User.t) :
  AuthService.create_user db user_data drawn_salt assigned_id utcnow = Ok (db', user) ->
  UserCreate.email again = UserCreate.email user_data ->
  AuthService.create_user db' again salt' id' now' = Raise ValueError.
Proof.
  intros Hcreate Hsame. unfold AuthService.create_user in Hcreate.
  destruct (AuthService.query_first_by_email db (UserCreate.email user_data))
    as [taken|] eqn:Hfree; [discriminate|].
  destruct (Security.get_password_hash drawn_salt (UserCreate.password user_data))
    as [hashed|]; cbn [mbind result_bind] in Hcreate; [|discriminate].
  injection Hcreate as <- <-.
  unfold AuthService.create_user, AuthService.query_first_by_email.
  rewrite ListFacts.find_app_last, Hsame.
  unfold AuthService.query_first_by_email in Hfree. rewrite Hfree.
  cbn [User.email]. rewrite String.eqb_refl. reflexivity.
Qed.

Lemma email_registered_once_witness :
  AuthService.create_user
    [{| User.id := 1; User.email := "user@example.com";
        User.hashed_password :=
          "$2b$12$abcdefghijklmnopqrstuuRKD81ungZSLE92vohaTMF.3wpibUNG.";
        User.full_name := Some "John Doe"; User.is_active := true;
        User.created_at := 0; User.updated_at := 0 |}]
    {| UserCreate.email := "user@example.com"; UserCreate.full_name := None;
       UserCreate.password := "anotherpassword" |}
    "ABCDEFGHIJKLMNOPQRSTUV" 2 5
  = Raise ValueError.
Proof.
  eapply (email_registered_once [] _
            {| UserCreate.email := "user@example.com";
               UserCreate.full_name := Some "John Doe";
               UserCreate.password := "securepassword123" |} _
            "abcdefghijklmnopqrstuv" _ 1 _ 0).
  - vm_compute. reflexivity.
  - reflexivity.
Defined.

(** X11.  [create_user] keeps the constraints of the table when the database
    assigns a fresh key: ids and emails stay pairwise distinct, one row is
    added, the new user is found by its id, and the lookup of every other
    email is unchanged. *)
Theorem create_user_keeps_consistency `{Passlib.BcryptBackend}
    (db db' : AuthService.Session) (user_data : UserCreate.t) (drawn_salt : string)
    (assigned_id : Z) (utcnow : datetime) (user : User.t) :
  AuthService.consistent db ->
  ~ In assigned_id (map User.id db) ->
  AuthService.create_user db user_data drawn_salt assigned_id utcnow = Ok (db', user) ->
  AuthService.consistent db' /\
  length db' = S (length db) /\
  AuthService.get_user_by_id db' assigned_id = Some user /\
  (forall email,
     email <> UserCreate.email user_data ->
     AuthService.query_first_by_email db' email = AuthService.query_first_by_email db email).
Proof.
  intros [Hids Hemails] Hfresh Hcreate. unfold AuthService.create_user in Hcreate.
  destruct (AuthService.query_first_by_email db (UserCreate.email user_data))
    as [taken|] eqn:Hfree; [discriminate|].
  destruct (Security.get_password_hash drawn_salt (UserCreate.password user_data))
    as [hashed|]; cbn [mbind result_bind] in Hcreate; [|discriminate].
  injection Hcreate as <- <-.
  apply AccountFacts.query_none in Hfree.
  split; [|split; [|split]].
  - unfold AuthService.consistent. rewrite !map_app. cbn [map User.id User.email].
    split; apply NoDup_app; (split; [assumption|]); split;
      try (apply NoDup_singleton);
      intros x Hx ->%list_elem_of_singleton; apply list_elem_of_In in Hx; contradiction.
  - rewrite length_app. cbn [length]. lia.
  - unfold AuthService.get_user_by_id. rewrite ListFacts.find_app_last.
    fold (AuthService.get_user_by_id db assigned_id).
    rewrite (AccountFacts.get_by_id_none _ _ Hfresh). cbn [User.id].
    rewrite Z.eqb_refl. reflexivity.
  - intros email Hother. unfold AuthService.query_first_by_email.
    rewrite ListFacts.find_app_last. destruct (List.find _ db); [reflexivity|].
    cbn [User.email].
    destruct (String.eqb_spec (UserCreate.email user_data) email); [congruence|reflexivity].
Qed.

Lemma create_user_keeps_consistency_witness :
  let user := {| User.id := 1; User.email := "user@example.com";
                 User.hashed_password :=
                   "$2b$12$abcdefghijklmnopqrstuuRKD81ungZSLE92vohaTMF.3wpibUNG.";
                 User.full_name := Some "John Doe"; User.is_active := true;
                 User.created_at := 0; User.updated_at := 0 |} in
  AuthService.consistent [user] /\
  length [user] = 1%nat /\
  AuthService.get_user_by_id [user] 1 = Some user /\
  (forall email,
     email <> "user@example.com" ->
     AuthService.query_first_by_email [user] email = AuthService.query_first_by_email [] email).
Proof.
  intros user.
  apply (create_user_keeps_consistency [] [user]
           {| UserCreate.email := "user@example.com";
              UserCreate.full_name := Some "John Doe";
              UserCreate.password := "securepassword123" |}
           "abcdefghijklmnopqrstuv" 1 0 user).
  - split; apply NoDup_nil_2.
  - intros [].
  - vm_compute. reflexivity.
Defined.

(** X12.  A password change, then login: after [update_user_password] on a user
    of a consistent table, [authenticate_user] accepts the new password and
    returns the updated row; ids, emails and the number of rows are
    unchanged, and so is the lookup of every other email. *)
Theorem password_change_then_login `{Passlib.BcryptBackend}
    (db db' : AuthService.Session) (user updated : User.t) (new_password drawn_salt : string)
    (utcnow : datetime) :
  AuthService.consistent db ->
  In user db ->
  Passlib.valid_salt drawn_salt = true ->
  AuthService.update_user_password db user new_password drawn_salt utcnow
    = Ok (db', updated) ->
  AuthService.authenticate_user db'
    {| UserLogin.email := User.email user; UserLogin.password := new_password |}
    = Ok (Some updated) /\
  User.id updated = User.id user /\
  User.is_active updated = User.is_active user /\
  AuthService.consistent db' /\
  length db' = length db /\
  (forall email,
     email <> User.email user ->
     AuthService.query_first_by_email db' email = AuthService.query_first_by_email db email).
Proof.
  intros Hdb Hin Hsalt Hupdate. unfold AuthService.update_user_password in Hupdate.
  destruct (Security.get_password_hash drawn_salt new_password) as [hashed|] eqn:Hhash;
    cbn [mbind result_bind] in Hupdate; [|discriminate].
  injection Hupdate as <- <-.
  set (updated := {| User.id := User.id user; User.email := User.email user;
                     User.hashed_password := hashed; User.full_name := User.full_name user;
                     User.is_active := User.is_active user;
                     User.created_at := User.created_at user;
                     User.updated_at := utcnow |}).
  assert (Hid : User.id updated = User.id user) by reflexivity.
  assert (Hemail : User.email updated = User.email user) by reflexivity.
  split; [|split; [reflexivity|split; [reflexivity|split; [|split]]]].
  - unfold AuthService.authenticate_user. cbn [UserLogin.email UserLogin.password].
    rewrite (AccountFacts.commit_query db user updated Hdb Hin Hid Hemail).
    rewrite (AccountFacts.query_own_email db user Hdb Hin).
    rewrite Hid, Z.eqb_refl. cbn [mbind result_bind].
    unfold Security.verify_password. cbn [User.hashed_password updated].
    rewrite (HashFacts.hash_then_verify _ _ _ Hsalt Hhash). reflexivity.
  - exact (AccountFacts.commit_consistent db user updated Hdb Hin Hid Hemail).
  - apply AccountFacts.commit_length.
  - intros email Hother.
    rewrite (AccountFacts.commit_query db user updated Hdb Hin Hid Hemail).
    exact (AccountFacts.other_row_kept db user updated Hdb Hin Hid Hemail email Hother).
Qed.

Lemma password_change_then_login_witness :
  let user := {| User.id := 1; User.email := "user@example.com";
                 User.hashed_password :=
                   "$2b$12$abcdefghijklmnopqrstuuRKD81ungZSLE92vohaTMF.3wpibUNG.";
                 User.full_name := Some "John Doe"; User.is_active := true;
                 User.created_at := 0; User.updated_at := 0 |} in
  exists updated db',
    AuthService.authenticate_user db'
      {| UserLogin.email := "user@example.com"; UserLogin.password := "anotherpassword" |}
      = Ok (Some updated) /\
    User.id updated = 1 /\
    User.is_active updated = true /\
    AuthService.consistent db' /\
    length db' = 1%nat /\
    (forall email,
       email <> "user@example.com" ->
       AuthService.query_first_by_email db' email
         = AuthService.query_first_by_email [user] email).
Proof.
  intros user. eexists _, _.
  eapply (password_change_then_login [user] _ user _ "anotherpassword"
            "ABCDEFGHIJKLMNOPQRSTUV" 9).
  - split; apply NoDup_singleton.
  - left. reflexivity.
  - reflexivity.
  - vm_compute. reflexivity.
Defined.

(** X13.  Deactivation does not close the account to login: when
    [authenticate_user] returns a user of a consistent table,
    [deactivate_user] on that user's id returns the row with [is_active]
    false, and [authenticate_user] on the new table, with the same
    credentials, returns that deactivated row. *)
Theorem deactivated_user_still_logs_in `{Passlib.BcryptBackend}
    (db : AuthService.Session) (credentials : UserLogin.t) (user : User.t)
    (utcnow : datetime) :
  AuthService.consistent db ->
  AuthService.authenticate_user db credentials = Ok (Some user) ->
  exists deactivated,
    AuthService.deactivate_user db (User.id user) utcnow
      = (AuthService.commit_user db deactivated, Some deactivated) /\
    User.is_active deactivated = false /\
    User.email deactivated = User.email user /\
    AuthService.authenticate_user (AuthService.commit_user db deactivated) credentials
      = Ok (Some deactivated).
Proof.
  intros Hdb Hlogin.
  assert (Hfound : AuthService.query_first_by_email db (UserLogin.email credentials)
                   = Some user /\
                   Security.verify_password (UserLogin.password credentials)
                     (User.hashed_password user) = Ok true).
  { unfold AuthService.authenticate_user in Hlogin.
    destruct (AuthService.query_first_by_email db (UserLogin.email credentials))
      as [found|]; [|discriminate].
    destruct (Security.verify_password (UserLogin.password credentials)
                (User.hashed_password found)) as [[]|] eqn:Hverify;
      cbn [mbind result_bind negb] in Hlogin; try discriminate.
    injection Hlogin as <-. split; [reflexivity | exact Hverify]. }
  destruct Hfound as [Hquery Hverify].
  assert (Hin : In user db).
  { unfold AuthService.query_first_by_email in Hquery.
    exact (proj1 (find_some _ _ Hquery)). }
  set (deactivated := {| User.id := User.id user; User.email := User.email user;
                         User.hashed_password := User.hashed_password user;
                         User.full_name := User.full_name user;
                         User.is_active := false;
                         User.created_at := User.created_at user;
                         User.updated_at := utcnow |}).
  exists deactivated. split; [|split; [reflexivity|split; [reflexivity|]]].
  - unfold AuthService.deactivate_user.
    rewrite (AccountFacts.get_by_own_id db user Hdb Hin). reflexivity.
  - unfold AuthService.authenticate_user.
    rewrite (AccountFacts.commit_query db user deactivated Hdb Hin eq_refl eq_refl).
    rewrite Hquery. subst deactivated. cbn [User.id]. rewrite Z.eqb_refl.
    cbn [mbind result_bind User.hashed_password]. rewrite Hverify. reflexivity.
Qed.

Lemma deactivated_user_still_logs_in_witness :
  let user := {| User.id := 1; User.email := "user@example.com";
                 User.hashed_password :=
                   "$2b$12$abcdefghijklmnopqrstuuRKD81ungZSLE92vohaTMF.3wpibUNG.";
                 User.full_name := Some "John Doe"; User.is_active := true;
                 User.created_at := 0; User.updated_at := 0 |} in
  let credentials := {| UserLogin.email := "user@example.com";
                        UserLogin.password := "securepassword123" |} in
  exists deactivated,
    AuthService.deactivate_user [user] 1 77
      = (AuthService.commit_user [user] deactivated, Some deactivated) /\
    User.is_active deactivated = false /\
    User.email deactivated = "user@example.com" /\
    AuthService.authenticate_user (AuthService.commit_user [user] deactivated) credentials
      = Ok (Some deactivated).
Proof.
  intros user credentials.
  apply (deactivated_user_still_logs_in [user] credentials user 77).
  - split; apply NoDup_singleton.
  - vm_compute. reflexivity.
Defined.

(** X14.  [deactivate_user] on an id no row has returns [None] and leaves the
    table as it was.  On the id of a row of a consistent table it returns
    that row with [is_active] false and [updated_at] at the current time,
    its other columns unchanged; the row is stored under its id, the table
    keeps its size and its constraints, and every other id finds the row it
    found before. *)
Theorem deactivate_user_effect (db db' : AuthService.Session) (user_id : Z)
    (utcnow : datetime) (result : option User.t) :
  AuthService.deactivate_user db user_id utcnow = (db', result) ->
  (AuthService.get_user_by_id db user_id = None -> db' = db /\ result = None) /\
  (forall user,
     AuthService.consistent db ->
     AuthService.get_user_by_id db user_id = Some user ->
     result =
       Some {| User.id := User.id user; User.email := User.email user;
               User.hashed_password := User.hashed_password user;
               User.full_name := User.full_name user; User.is_active := false;
               User.created_at := User.created_at user; User.updated_at := utcnow |} /\
     AuthService.get_user_by_id db' user_id = result /\
     length db' = length db /\
     AuthService.consistent db' /\
     forall other,
       other <> user_id ->
       AuthService.get_user_by_id db' other = AuthService.get_user_by_id db other).
Proof.
  unfold AuthService.deactivate_user. intros Hrun. split.
  - intros Hnone. rewrite Hnone in Hrun. injection Hrun as <- <-. split; reflexivity.
  - intros user Hdb Hfound. rewrite Hfound in Hrun. injection Hrun as <- <-.
    pose proof Hfound as Hrow. unfold AuthService.get_user_by_id in Hrow.
    apply find_some in Hrow as [Hin Hid%Z.eqb_eq].
    split; [reflexivity|]. split; [|split; [apply length_map|split]].
    + unfold AuthService.get_user_by_id, AuthService.commit_user.
      rewrite ListFacts.find_map_same.
      * fold (AuthService.get_user_by_id db user_id). rewrite Hfound.
        cbn [option_map User.id]. rewrite Z.eqb_refl. reflexivity.
      * intros row _. cbn beta. cbn [User.id].
        destruct (Z.eqb_spec (User.id row) (User.id user)) as [->|_]; reflexivity.
    + apply (AccountFacts.commit_consistent db user); first [assumption | reflexivity].
    + intros other Hother.
      unfold AuthService.get_user_by_id, AuthService.commit_user.
      rewrite ListFacts.find_map_same.
      * destruct (List.find _ db) as [row|] eqn:Hrow; [|reflexivity].
        cbn [option_map User.id].
        apply find_some in Hrow as [_ Hrow%Z.eqb_eq].
        destruct (Z.eqb_spec (User.id row) (User.id user)); [congruence | reflexivity].
      * intros row _. cbn beta. cbn [User.id].
        destruct (Z.eqb_spec (User.id row) (User.id user)) as [->|_]; reflexivity.
Qed.

Lemma deactivate_user_effect_witness :
  let alice := {| User.id := 1; User.email := "alice@example.com";
                  User.hashed_password :=
                    "$2b$12$abcdefghijklmnopqrstuuRKD81ungZSLE92vohaTMF.3wpibUNG.";
                  User.full_name := Some "Alice"; User.is_active := true;
                  User.created_at := 0; User.updated_at := 0 |} in
  let bob := {| User.id := 2; User.email := "bob@example.com";
                User.hashed_password :=
                  "$2b$12$ABCDEFGHIJKLMNOPQRSTUOsleXQJC70tmfYRKD81ungZSLE92voha";
                User.full_name := None; User.is_active := true;
                User.created_at := 0; User.updated_at := 0 |} in
  exists db' result,
    AuthService.deactivate_user [alice; bob] 2 (seconds 1772193600) = (db', result) /\
    result =
      Some {| User.id := 2; User.email := "bob@example.com";
              User.hashed_password :=
                "$2b$12$ABCDEFGHIJKLMNOPQRSTUOsleXQJC70tmfYRKD81ungZSLE92voha";
              User.full_name := None; User.is_active := false;
              User.created_at := 0; User.updated_at := seconds 1772193600 |} /\
    AuthService.get_user_by_id db' 2 = result /\
    length db' = 2%nat /\
    AuthService.consistent db' /\
    forall other,
      other <> 2 ->
      AuthService.get_user_by_id db' other = AuthService.get_user_by_id [alice; bob] other.
Proof.
  intros alice bob. eexists _, _. split; [reflexivity|].
  apply (proj2 (deactivate_user_effect [alice; bob] _ 2 (seconds 1772193600) _ eq_refl) bob).
  - split; (apply NoDup_cons; split; [|apply NoDup_singleton]);
      intros Hin; apply list_elem_of_In in Hin; destruct Hin as [Heq|[]]; discriminate Heq.
  - reflexivity.
Defined.

(** X15.  [authenticate_user] returns a user only if that user is a row of the
    table, carries the email of the credentials, and has a stored hash the
    password verifies against. *)
Theorem authenticate_user_sound `{Passlib.BcryptBackend}
    (db : AuthService.Session) (credentials : UserLogin.t) (user : User.t) :
  AuthService.authenticate_user db credentials = Ok (Some user) ->
  In user db /\
  User.email user = UserLogin.email credentials /\
  Security.verify_password (UserLogin.password credentials) (User.hashed_password user)
    = Ok true.
Proof.
  unfold AuthService.authenticate_user.
  destruct (AuthService.query_first_by_email db (UserLogin.email credentials))
    as [found|] eqn:Hquery; [|discriminate].
  destruct (Security.verify_password (UserLogin.password credentials)
              (User.hashed_password found)) as [[]|] eqn:Hverify;
    cbn [mbind result_bind negb]; try discriminate.
  intros [= <-]. unfold AuthService.query_first_by_email in Hquery.
  apply find_some in Hquery as [Hin Hemail%String.eqb_eq].
  split; [exact Hin | split; [exact Hemail | exact Hverify]].
Qed.

Lemma authenticate_user_sound_witness :
  let user := {| User.id := 1; User.email := "user@example.com";
                 User.hashed_password :=
                   "$2b$12$abcdefghijklmnopqrstuuRKD81ungZSLE92vohaTMF.3wpibUNG.";
                 User.full_name := Some "John Doe"; User.is_active := true;
                 User.created_at := 0; User.updated_at := 0 |} in
  In user [user] /\
  User.email user = "user@example.com" /\
  Security.verify_password "securepassword123" (User.hashed_password user) = Ok true.
Proof.
  intros user.
  apply (authenticate_user_sound [user]
           {| UserLogin.email := "user@example.com";
              UserLogin.password := "securepassword123" |} user).
  vm_compute. reflexivity.
Defined.

(** X16.  For an account that exists, [authenticate_user] raises instead of
    answering [None] when the stored hash starts with no bcrypt identifier
    ([UnknownHashError]), when the password is longer than 4096 characters
    ([PasswordSizeError]), and, with one error or another, whenever the
    password takes more than 4096 bytes. *)
Theorem authenticate_user_raises_for_known_account `{Passlib.BcryptBackend}
    (db : AuthService.Session) (credentials : UserLogin.t) (user : User.t) :
  AuthService.query_first_by_email db (UserLogin.email credentials) = Some user ->
  (Passlib.identify (User.hashed_password user) = false ->
   AuthService.authenticate_user db credentials = Raise UnknownHashError) /\
  (Passlib.identify (User.hashed_password user) = true ->
   (Passlib.MAX_PASSWORD_SIZE < Str.code_points (UserLogin.password credentials))%nat ->
   AuthService.authenticate_user db credentials = Raise PasswordSizeError) /\
  ((Passlib.MAX_PASSWORD_SIZE < String.length (UserLogin.password credentials))%nat ->
   exists e, AuthService.authenticate_user db credentials = Raise e).
Proof.
  intros Hquery. unfold AuthService.authenticate_user. rewrite Hquery.
  unfold Security.verify_password. split; [|split].
  - intros Hid. rewrite (PasslibFacts.verify_unknown _ _ Hid). reflexivity.
  - intros Hid Hlong. rewrite (PasslibFacts.verify_too_long _ _ Hid Hlong). reflexivity.
  - intros Hlong.
    destruct (PasslibFacts.verify_too_long_raises _ (User.hashed_password user) Hlong)
      as [e ->].
    exists e. reflexivity.
Qed.

Lemma authenticate_user_raises_for_known_account_witness :
  AuthService.authenticate_user
    [{| User.id := 1; User.email := "user@example.com";
        User.hashed_password := "not-a-hash";
        User.full_name := None; User.is_active := true;
        User.created_at := 0; User.updated_at := 0 |}]
    {| UserLogin.email := "user@example.com"; UserLogin.password := "securepassword123" |}
  = Raise UnknownHashError.
Proof.
  refine (proj1 (authenticate_user_raises_for_known_account _ _ _ _) _);
    reflexivity.
Defined.

(** ** The schema store *)

Module PyDictFacts.
Import PyDict.

Section Facts.
Context {V : Type}.
Implicit Types (d : list (string * V)) (k : string) (v : V).

Lemma get_set_eq d k v : get (set d k v) k = Some v.
Proof.
  induction d as [|[k' v'] d IH]; cbn [set get].
  - rewrite String.eqb_refl. reflexivity.
  - destruct (String.eqb k' k) eqn:Hk; cbn [get].
    + rewrite String.eqb_refl. reflexivity.
    + rewrite Hk. exact IH.
Qed.

Lemma get_set_ne d k k' v : k' <> k -> get (set d k v) k' = get d k'.
Proof.
  intros Hne. induction d as [|[k0 v0] d IH]; cbn [set get].
  - destruct (String.eqb_spec k k'); [congruence | reflexivity].
  - destruct (String.eqb_spec k0 k) as [->|Hk]; cbn [get].
    + destruct (String.eqb_spec k k'); [congruence | reflexivity].
    + destruct (String.eqb k0 k'); [reflexivity | exact IH].
Qed.

Lemma get_del_eq d k : get (del d k) k = None.
Proof.
  induction d as [|[k' v'] d IH]; [reflexivity|].
  unfold del in *. cbn [List.filter fst].
  destruct (String.eqb k' k) eqn:Hk; cbn [negb]; [exact IH|].
  cbn [get]. rewrite Hk. exact IH.
Qed.

Lemma get_del_ne d k k' : k' <> k -> get (del d k) k' = get d k'.
Proof.
  intros Hne. induction d as [|[k0 v0] d IH]; [reflexivity|].
  unfold del in *. cbn [List.filter fst].
  destruct (String.eqb_spec k0 k) as [->|Hk]; cbn [negb get].
  - destruct (String.eqb_spec k k'); [congruence | exact IH].
  - destruct (String.eqb k0 k'); [reflexivity | exact IH].
Qed.

(** Assigning to a present key keeps the keys and their order; assigning
    to a new key puts it last. *)
Lemma keys_set d k v :
  keys (set d k v) = if mem d k then keys d else keys d ++ [k].
Proof.
  unfold mem, keys. induction d as [|[k' v'] d IH]; [reflexivity|].
  cbn [set get]. destruct (String.eqb_spec k' k) as [->|Hk]; [reflexivity|].
  cbn [map fst]. rewrite IH. destruct (get d k); reflexivity.
Qed.

Lemma length_set d k v :
  length (set d k v) = if mem d k then length d else S (length d).
Proof.
  pose proof (f_equal (@length string) (keys_set d k v)) as Hlen.
  unfold keys in Hlen. rewrite length_map in Hlen. rewrite Hlen.
  destruct (mem d k); [apply length_map|].
  rewrite length_app, length_map. cbn [length]. lia.
Qed.

Lemma in_set d k v (k' : string) (v' : V) :
  In (k', v') (set d k v) -> (k', v') = (k, v) \/ In (k', v') d.
Proof.
  induction d as [|[k0 v0] d IH]; cbn [set].
  - intros [Heq|[]]. left. symmetry. exact Heq.
  - destruct (String.eqb k0 k).
    + intros [Heq|Hin]; [left; symmetry; exact Heq | right; right; exact Hin].
    + intros [Heq|Hin]; [right; left; exact Heq|].
      destruct (IH Hin) as [Hnew|Hold]; [left; exact Hnew | right; right; exact Hold].
Qed.

Lemma in_del d k (k' : string) (v' : V) : In (k', v') (del d k) -> In (k', v') d.
Proof. unfold del. intros [Hin _]%filter_In. exact Hin. Qed.

Lemma length_del d k : (length (del d k) <= length d)%nat.
Proof. unfold del. apply filter_length_le. Qed.

End Facts.

End PyDictFacts.

Module SchemaFacts.
Import SchemaApi ListFacts.

Lemma remove_dups_length (l : list string) : (length (remove_dups l) <= length l)%nat.
Proof.
  induction l as [|x l IH]; [reflexivity|].
  cbn [remove_dups]. destruct (decide_rel elem_of x l); cbn [length]; lia.
Qed.

(** [len(names) == len(set(names))] says that no name occurs twice. *)
Lemma has_duplicates_false (names : list string) :
  has_duplicates names = false <-> NoDup names.
Proof.
  unfold has_duplicates. rewrite negb_false_iff, Nat.eqb_eq.
  induction names as [|x l IH].
  - split; [intros _; apply NoDup_nil_2 | reflexivity].
  - cbn [remove_dups]. destruct (decide_rel elem_of x l) as [Hin|Hnotin].
    + split.
      * intros Hlen. pose proof (remove_dups_length l). cbn [length] in Hlen. lia.
      * intros [Hfresh _]%NoDup_cons. contradiction.
    + cbn [length]. split.
      * intros Hlen. apply NoDup_cons. split; [exact Hnotin|].
        apply IH. lia.
      * intros [_ Hnodup]%NoDup_cons. apply IH in Hnodup. lia.
Qed.

Lemma firstn_add {A : Type} (a b : nat) (l : list A) :
  firstn (a + b) l = firstn a l ++ firstn b (skipn a l).
Proof.
  revert l. induction a as [|a IH]; intros l; [reflexivity|].
  destruct l as [|x l]; [destruct b; reflexivity|].
  cbn [Nat.add firstn skipn app]. rewrite IH. reflexivity.
Qed.

Section Facts.
Context `{Runtime} `{Calendar}.

Lemma check_fields_done (fields : list SchemaField.t) :
  check_fields fields = Done tt <->
  has_primary_key fields = true /\ NoDup (map SchemaField.name fields).
Proof.
  unfold check_fields. rewrite <- has_duplicates_false.
  destruct (has_primary_key fields); cbn [negb].
  - destruct (has_duplicates (map SchemaField.name fields)).
    + split; [discriminate | intros [_ Hdup]; discriminate].
    + split; [intros _; split; reflexivity | reflexivity].
  - split; [discriminate | intros [Hpk _]; discriminate].
Qed.

Lemma check_fields_abort (fields : list SchemaField.t) (r : raised) :
  check_fields fields = Abort r -> exists detail, r = HTTPException 400 detail [].
Proof.
  unfold check_fields. destruct (has_primary_key fields); cbn [negb].
  - destruct (has_duplicates _); [|discriminate].
    intros [= <-]. eexists. reflexivity.
  - intros [= <-]. eexists. reflexivity.
Qed.

End Facts.

End SchemaFacts.

(** X17.  [create_schema] accepts a request exactly when one of its fields is a
    primary key and no two fields share a name; it answers 400 otherwise.
    An accepted schema is stored under the generated id, with the request's
    content, the status [active] and equal creation and update stamps. *)
Theorem create_schema_accepts `{Runtime} `{Calendar}
    (schemas_db : SchemaApi.store) (request : SchemaCreateRequest.t) (utcnow : datetime) :
  let fields := SchemaCreateRequest.fields request in
  (SchemaApi.has_primary_key fields = true /\ NoDup (map SchemaField.name fields) ->
   exists schema,
     SchemaApi.create_schema schemas_db request utcnow
       = Done (PyDict.set schemas_db (SchemaApi._generate_schema_id schemas_db) schema,
               schema) /\
     SchemaResponse.id schema = SchemaApi._generate_schema_id schemas_db /\
     SchemaResponse.name schema = SchemaCreateRequest.name request /\
     SchemaResponse.fields schema = fields /\
     SchemaResponse.indexes schema = SchemaCreateRequest.indexes request /\
     SchemaResponse.status schema = "active" /\
     SchemaResponse.created_at schema = SchemaResponse.updated_at schema) /\
  (~ (SchemaApi.has_primary_key fields = true /\ NoDup (map SchemaField.name fields)) ->
   exists detail,
     SchemaApi.create_schema schemas_db request utcnow
       = Abort (HTTPException 400 detail [])).
Proof.
  intros fields. unfold SchemaApi.create_schema. fold fields. split.
  - intros Hok. apply SchemaFacts.check_fields_done in Hok. rewrite Hok.
    cbn [mbind outcome_bind]. eexists. split; [reflexivity|].
    repeat split; reflexivity.
  - intros Hbad. destruct (SchemaApi.check_fields fields) as [[]|r] eqn:Hcheck.
    + apply SchemaFacts.check_fields_done in Hcheck. contradiction.
    + destruct (SchemaFacts.check_fields_abort _ _ Hcheck) as [detail ->].
      exists detail. reflexivity.
Qed.

Lemma create_schema_accepts_witness :
  exists detail,
    SchemaApi.create_schema []
      {| SchemaCreateRequest.name := "events"; SchemaCreateRequest.description := "";
         SchemaCreateRequest.platform_id := "p1";
         SchemaCreateRequest.fields :=
           [{| SchemaField.name := "id"; SchemaField.type := "integer";
               SchemaField.nullable := false; SchemaField.primary_key := false;
               SchemaField.description := None |}];
         SchemaCreateRequest.indexes := [] |} 0
    = Abort (HTTPException 400 detail []).
Proof.
  refine (proj2 (create_schema_accepts [] _ 0) _).
  cbn. intros [Hpk _]. discriminate Hpk.
Defined.

(** X18.  A created schema is served: [get_schema] on the returned id gives the
    schema back, [generate_sql] gives its statement, and [validate_schema]
    reports as errors exactly those of its indexes, so a schema created
    without indexes validates. *)
Theorem created_schema_is_served `{Runtime} `{Calendar}
    (schemas_db db' : SchemaApi.store) (request : SchemaCreateRequest.t)
    (utcnow : datetime) (schema : SchemaResponse.t) :
  SchemaApi.create_schema schemas_db request utcnow = Done (db', schema) ->
  SchemaApi.get_schema db' (SchemaResponse.id schema) = Done schema /\
  SchemaApi.generate_sql db' (SchemaResponse.id schema) = Done (SchemaApi.sql_of schema) /\
  exists report,
    SchemaApi.validate_schema db' (SchemaResponse.id schema) = Done report /\
    ValidationReport.errors report =
      flat_map
        (SchemaApi.index_errors (map SchemaField.name (SchemaCreateRequest.fields request)))
        (SchemaCreateRequest.indexes request) /\
    (SchemaCreateRequest.indexes request = [] -> ValidationReport.valid report = true).
Proof.
  unfold SchemaApi.create_schema.
  destruct (SchemaApi.check_fields (SchemaCreateRequest.fields request)) as [[]|r] eqn:Hcheck;
    cbn [mbind outcome_bind]; [|discriminate].
  intros [= <- <-]. cbn [SchemaResponse.id].
  apply SchemaFacts.check_fields_done in Hcheck as [Hpk Hnames].
  unfold SchemaApi.get_schema, SchemaApi.generate_sql, SchemaApi.validate_schema.
  rewrite PyDictFacts.get_set_eq. split; [reflexivity|]. split; [reflexivity|].
  eexists. split; [reflexivity|]. cbn [ValidationReport.errors ValidationReport.valid
    SchemaResponse.fields SchemaResponse.indexes].
  apply SchemaFacts.has_duplicates_false in Hnames. rewrite Hnames.
  assert (Hfilter : exists f rest,
            List.filter SchemaField.primary_key (SchemaCreateRequest.fields request)
              = f :: rest).
  { unfold SchemaApi.has_primary_key in Hpk. apply existsb_exists in Hpk as (f & Hin & Hf).
    destruct (List.filter _ _) as [|g rest] eqn:Hfl; [|eexists _, _; reflexivity].
    assert (Hinf : In f (List.filter SchemaField.primary_key
                           (SchemaCreateRequest.fields request)))
      by (apply filter_In; split; assumption).
    rewrite Hfl in Hinf. destruct Hinf. }
  destruct Hfilter as (f & rest & Hfl). rewrite Hfl. cbn [length Nat.eqb].
  destruct (SchemaCreateRequest.fields request) as [|g fields] eqn:Hfields;
    [discriminate Hfl|].
  cbn [app]. split; [reflexivity|]. intros ->. reflexivity.
Qed.

Lemma created_schema_is_served_witness :
  let request :=
    {| SchemaCreateRequest.name := "events"; SchemaCreateRequest.description := "";
       SchemaCreateRequest.platform_id := "p1";
       SchemaCreateRequest.fields :=
         [{| SchemaField.name := "id"; SchemaField.type := "integer";
             SchemaField.nullable := false; SchemaField.primary_key := true;
             SchemaField.description := None |}];
       SchemaCreateRequest.indexes := [] |} in
  exists db' schema,
    SchemaApi.create_schema [] request 0 = Done (db', schema) /\
    SchemaApi.get_schema db' (SchemaResponse.id schema) = Done schema.
Proof.
  intros request. eexists _, _. split; [vm_compute; reflexivity|].
  refine (proj1 (created_schema_is_served [] _ request 0 _ _)).
  vm_compute. reflexivity.
Defined.

(** X19.  The id of a new schema is read off the size of the store.  When that id
    is free the store grows by one entry and keeps the others; when it is
    taken, as can happen after a deletion, the new schema replaces the one
    stored under it and the store does not grow. *)
Theorem create_schema_id_reuse `{Runtime} `{Calendar}
    (schemas_db db' : SchemaApi.store) (request : SchemaCreateRequest.t)
    (utcnow : datetime) (schema : SchemaResponse.t) :
  SchemaApi.create_schema schemas_db request utcnow = Done (db', schema) ->
  (PyDict.mem schemas_db (SchemaResponse.id schema) = false ->
   length db' = S (length schemas_db) /\
   forall other, other <> SchemaResponse.id schema ->
                 PyDict.get db' other = PyDict.get schemas_db other) /\
  (forall previous,
     PyDict.get schemas_db (SchemaResponse.id schema) = Some previous ->
     length db' = length schemas_db /\
     PyDict.keys db' = PyDict.keys schemas_db /\
     PyDict.get db' (SchemaResponse.id schema) = Some schema).
Proof.
  unfold SchemaApi.create_schema.
  destruct (SchemaApi.check_fields (SchemaCreateRequest.fields request)) as [[]|r];
    cbn [mbind outcome_bind]; [|discriminate].
  intros [= <- <-]. cbn [SchemaResponse.id]. split.
  - intros Hfree. split.
    + rewrite PyDictFacts.length_set, Hfree. reflexivity.
    + intros other Hother. apply PyDictFacts.get_set_ne. exact Hother.
  - intros previous Hprev.
    assert (Hmem : PyDict.mem schemas_db (SchemaApi._generate_schema_id schemas_db) = true)
      by (unfold PyDict.mem; rewrite Hprev; reflexivity).
    rewrite PyDictFacts.length_set, PyDictFacts.keys_set, Hmem.
    repeat split. apply PyDictFacts.get_set_eq.
Qed.

Lemma create_schema_id_reuse_witness :
  let request name :=
    {| SchemaCreateRequest.name := name; SchemaCreateRequest.description := "";
       SchemaCreateRequest.platform_id := "p1";
       SchemaCreateRequest.fields :=
         [{| SchemaField.name := "id"; SchemaField.type := "integer";
             SchemaField.nullable := false; SchemaField.primary_key := true;
             SchemaField.description := None |}];
       SchemaCreateRequest.indexes := [] |} in
  exists db1 first db2 second db3 db4 third,
    SchemaApi.create_schema [] (request "first") 0 = Done (db1, first) /\
    SchemaApi.create_schema db1 (request "second") 0 = Done (db2, second) /\
    SchemaApi.delete_schema db2 (SchemaResponse.id first) = Done db3 /\
    SchemaApi.create_schema db3 (request "third") 0 = Done (db4, third) /\
    SchemaResponse.id third = SchemaResponse.id second /\
    length db4 = length db3 /\
    PyDict.keys db4 = PyDict.keys db3 /\
    PyDict.get db4 (SchemaResponse.id second) = Some third.
Proof.
  intros request. eexists _, _, _, _, _, _, _.
  split; [vm_compute; reflexivity|].
  split; [vm_compute; reflexivity|].
  split; [vm_compute; reflexivity|].
  split; [vm_compute; reflexivity|].
  split; [reflexivity|].
  match goal with
  | |- length ?db4 = length ?db3 /\ _ /\ PyDict.get _ (SchemaResponse.id ?second) = Some ?third =>
      exact (proj2 (create_schema_id_reuse db3 db4 (request "third") 0 third eq_refl)
               second eq_refl)
  end.
Defined.

Module StoreFacts.
Import SchemaApi.

Lemma del_shrinks {V : Type} (d : list (string * V)) (k : string) (v : V) :
  PyDict.get d k = Some v -> (length (PyDict.del d k) < length d)%nat.
Proof.
  induction d as [|[k' v'] d IH]; [discriminate|].
  unfold PyDict.del in *. cbn [PyDict.get List.filter fst].
  destruct (String.eqb k' k); cbn [negb length].
  - intros _. pose proof (filter_length_le
                            (fun kv : string * V => negb (String.eqb (fst kv) k)) d). lia.
  - intros Hget. specialize (IH Hget). lia.
Qed.

Lemma get_in {V : Type} (d : list (string * V)) (k : string) (v : V) :
  PyDict.get d k = Some v -> In (k, v) d.
Proof.
  induction d as [|[k' v'] d IH]; [discriminate|].
  cbn [PyDict.get]. destruct (String.eqb_spec k' k) as [->|_].
  - intros [= ->]. left. reflexivity.
  - intros Hget. right. exact (IH Hget).
Qed.

(** The schemas [list_schemas] selects before it cuts a page. *)
Definition matching (schemas_db : store) (platform_id : option string)
  : list SchemaResponse.t :=
  List.filter
    (fun schema =>
       match platform_id with
       | None => true
       | Some p => String.eqb (SchemaResponse.platform_id schema) p
       end)
    (PyDict.values schemas_db).

(** A store whose schemas all passed the checks of [create_schema]. *)
Definition sound (schemas_db : store) : Prop :=
  forall k schema,
    In (k, schema) schemas_db ->
    has_primary_key (SchemaResponse.fields schema) = true /\
    NoDup (map SchemaField.name (SchemaResponse.fields schema)).

(** The schema with the [nullable] flags of its fields rewritten. *)
Definition with_nullable (flag : SchemaField.t -> bool) (schema : SchemaResponse.t)
  : SchemaResponse.t :=
  {| SchemaResponse.id := SchemaResponse.id schema;
     SchemaResponse.name := SchemaResponse.name schema;
     SchemaResponse.description := SchemaResponse.description schema;
     SchemaResponse.platform_id := SchemaResponse.platform_id schema;
     SchemaResponse.fields :=
       map (fun f => {| SchemaField.name := SchemaField.name f;
                        SchemaField.type := SchemaField.type f;
                        SchemaField.nullable := flag f;
                        SchemaField.primary_key := SchemaField.primary_key f;
                        SchemaField.description := SchemaField.description f |})
         (SchemaResponse.fields schema);
     SchemaResponse.indexes := SchemaResponse.indexes schema;
     SchemaResponse.status := SchemaResponse.status schema;
     SchemaResponse.created_at := SchemaResponse.created_at schema;
     SchemaResponse.updated_at := SchemaResponse.updated_at schema |}.

End StoreFacts.

(** X20.  [delete_schema] answers 404 for an id the store does not hold.  For an
    id it holds, the entry is gone afterwards ([get_schema] answers 404),
    the store is smaller and every other id is served as before. *)
Theorem delete_schema_effect (schemas_db : SchemaApi.store) (schema_id : string) :
  (PyDict.get schemas_db schema_id = None ->
   SchemaApi.delete_schema schemas_db schema_id = Abort SchemaApi.not_found) /\
  (forall schema,
     PyDict.get schemas_db schema_id = Some schema ->
     SchemaApi.delete_schema schemas_db schema_id
       = Done (PyDict.del schemas_db schema_id) /\
     SchemaApi.get_schema (PyDict.del schemas_db schema_id) schema_id
       = Abort SchemaApi.not_found /\
     (length (PyDict.del schemas_db schema_id) < length schemas_db)%nat /\
     forall other,
       other <> schema_id ->
       SchemaApi.get_schema (PyDict.del schemas_db schema_id) other
         = SchemaApi.get_schema schemas_db other).
Proof.
  unfold SchemaApi.delete_schema, SchemaApi.get_schema, PyDict.mem. split.
  - intros ->. reflexivity.
  - intros schema Hget. rewrite Hget. cbn [negb].
    rewrite PyDictFacts.get_del_eq.
    split; [reflexivity|]. split; [reflexivity|].
    split; [exact (StoreFacts.del_shrinks _ _ _ Hget)|].
    intros other Hother. rewrite (PyDictFacts.get_del_ne _ _ _ Hother). reflexivity.
Qed.

Lemma delete_schema_effect_witness :
  let schema id name :=
    {| SchemaResponse.id := id; SchemaResponse.name := name;
       SchemaResponse.description := ""; SchemaResponse.platform_id := "p1";
       SchemaResponse.fields :=
         [{| SchemaField.name := "id"; SchemaField.type := "integer";
             SchemaField.nullable := false; SchemaField.primary_key := true;
             SchemaField.description := None |}];
       SchemaResponse.indexes := []; SchemaResponse.status := "active";
       SchemaResponse.created_at := "0Z"; SchemaResponse.updated_at := "0Z" |} in
  let schemas_db :=
    [("schema_1", schema "schema_1" "orders"); ("schema_2", schema "schema_2" "clients")] in
  SchemaApi.delete_schema schemas_db "schema_1"
    = Done (PyDict.del schemas_db "schema_1") /\
  SchemaApi.get_schema (PyDict.del schemas_db "schema_1") "schema_1"
    = Abort SchemaApi.not_found /\
  (length (PyDict.del schemas_db "schema_1") < length schemas_db)%nat /\
  forall other,
    other <> "schema_1" ->
    SchemaApi.get_schema (PyDict.del schemas_db "schema_1") other
      = SchemaApi.get_schema schemas_db other.
Proof.
  intros schema schemas_db.
  apply (proj2 (delete_schema_effect schemas_db "schema_1") (schema "schema_1" "orders")).
  reflexivity.
Defined.

(** X21.  Pagination of [list_schemas], for a [per_page] of at least 1: a page
    never holds more than [per_page] schemas, and the pages 1 to [k] put
    end to end are the first [k * per_page] selected schemas, in the order
    of the store: no schema is skipped or listed twice. *)
Theorem list_schemas_pages (schemas_db : SchemaApi.store) (platform_id : option string)
    (per_page : Z) (k : nat) :
  1 <= per_page ->
  (forall page,
     1 <= page ->
     (length (SchemaListResponse.schemas
                (SchemaApi.list_schemas schemas_db platform_id page per_page))
      <= Z.to_nat per_page)%nat) /\
  flat_map
    (fun i => SchemaListResponse.schemas
                (SchemaApi.list_schemas schemas_db platform_id (Z.of_nat i + 1) per_page))
    (seq 0 k)
  = firstn (k * Z.to_nat per_page) (StoreFacts.matching schemas_db platform_id).
Proof.
  intros Hper. split.
  - intros page Hpage. unfold SchemaApi.list_schemas, SchemaApi.slice.
    cbn [SchemaListResponse.schemas].
    replace ((page - 1) * per_page + per_page - (page - 1) * per_page) with per_page by lia.
    apply firstn_le_length.
  - induction k as [|k IH]; [reflexivity|].
    rewrite seq_S, flat_map_app, IH. cbn [flat_map Nat.add].
    rewrite app_nil_r.
    unfold SchemaApi.list_schemas, SchemaApi.slice. cbn [SchemaListResponse.schemas].
    fold (StoreFacts.matching schemas_db platform_id).
    replace ((Z.of_nat k + 1 - 1) * per_page + per_page - (Z.of_nat k + 1 - 1) * per_page)
      with per_page by lia.
    replace (Z.to_nat ((Z.of_nat k + 1 - 1) * per_page)) with (k * Z.to_nat per_page)%nat
      by nia.
    replace (S k * Z.to_nat per_page)%nat with (k * Z.to_nat per_page + Z.to_nat per_page)%nat
      by lia.
    symmetry. apply SchemaFacts.firstn_add.
Qed.

Lemma list_schemas_pages_witness :
  let schema id platform :=
    {| SchemaResponse.id := id; SchemaResponse.name := "orders";
       SchemaResponse.description := ""; SchemaResponse.platform_id := platform;
       SchemaResponse.fields := []; SchemaResponse.indexes := [];
       SchemaResponse.status := "active";
       SchemaResponse.created_at := "0Z"; SchemaResponse.updated_at := "0Z" |} in
  let schemas_db :=
    [("schema_1", schema "schema_1" "p1"); ("schema_2", schema "schema_2" "p2");
     ("schema_3", schema "schema_3" "p1")] in
  flat_map
    (fun i => SchemaListResponse.schemas
                (SchemaApi.list_schemas schemas_db (Some "p1") (Z.of_nat i + 1) 1))
    (seq 0 2)
  = [schema "schema_1" "p1"; schema "schema_3" "p1"].
Proof.
  intros schema schemas_db.
  rewrite (proj2 (list_schemas_pages schemas_db (Some "p1") 1 2 ltac:(lia))).
  reflexivity.
Defined.

(** X22.  [update_schema] answers 404 for an unknown id and otherwise only 400,
    from the checks on the new fields.  When it succeeds, the schema it
    returns is the one stored under the id afterwards; it has the id, name,
    platform, status and creation time of the schema stored before; the
    store has the same ids in the same order, and every other id is served
    as before. *)
Theorem update_schema_effect `{Runtime} `{Calendar}
    (schemas_db : SchemaApi.store) (schema_id : string)
    (request : SchemaUpdateRequest.t) (utcnow : datetime) :
  (PyDict.get schemas_db schema_id = None ->
   SchemaApi.update_schema schemas_db schema_id request utcnow
     = Abort SchemaApi.not_found) /\
  (forall r,
     SchemaApi.update_schema schemas_db schema_id request utcnow = Abort r ->
     r = SchemaApi.not_found \/ exists detail, r = HTTPException 400 detail []) /\
  (forall db' updated,
     SchemaApi.update_schema schemas_db schema_id request utcnow = Done (db', updated) ->
     exists stored,
       PyDict.get schemas_db schema_id = Some stored /\
       SchemaResponse.id updated = SchemaResponse.id stored /\
       SchemaResponse.name updated = SchemaResponse.name stored /\
       SchemaResponse.platform_id updated = SchemaResponse.platform_id stored /\
       SchemaResponse.status updated = SchemaResponse.status stored /\
       SchemaResponse.created_at updated = SchemaResponse.created_at stored /\
       SchemaResponse.updated_at updated = SchemaApi._get_timestamp utcnow /\
       PyDict.keys db' = PyDict.keys schemas_db /\
       SchemaApi.get_schema db' schema_id = Done updated /\
       forall other,
         other <> schema_id ->
         SchemaApi.get_schema db' other = SchemaApi.get_schema schemas_db other).
Proof.
  unfold SchemaApi.update_schema.
  destruct (PyDict.get schemas_db schema_id) as [stored|] eqn:Hget.
  - split; [discriminate|]. split.
    + intros r.
      destruct (SchemaUpdateRequest.fields request) as [fields|];
        [|cbn [mbind outcome_bind]; discriminate].
      destruct (SchemaApi.check_fields fields) as [[]|r'] eqn:Hcheck;
        cbn [mbind outcome_bind]; [discriminate|].
      intros [= <-]. right. exact (SchemaFacts.check_fields_abort _ _ Hcheck).
    + intros db' updated Hupdate.
      assert (Hmem : PyDict.mem schemas_db schema_id = true)
        by (unfold PyDict.mem; rewrite Hget; reflexivity).
      exists stored. split; [reflexivity|].
      destruct (SchemaUpdateRequest.fields request) as [fields|];
        [destruct (SchemaApi.check_fields fields) as [[]|r']|];
        cbn [mbind outcome_bind] in Hupdate; try discriminate;
        injection Hupdate as <- <-; cbn [SchemaResponse.id SchemaResponse.name
          SchemaResponse.platform_id SchemaResponse.status SchemaResponse.created_at
          SchemaResponse.updated_at];
        rewrite PyDictFacts.keys_set, Hmem; unfold SchemaApi.get_schema;
        rewrite PyDictFacts.get_set_eq;
        (repeat split; try reflexivity);
        intros other Hother; rewrite (PyDictFacts.get_set_ne _ _ _ _ Hother);
        reflexivity.
  - split; [reflexivity|]. split.
    + intros r [= <-]. left. reflexivity.
    + intros db' updated. discriminate.
Qed.

Lemma update_schema_effect_witness :
  let stored :=
    {| SchemaResponse.id := "schema_1"; SchemaResponse.name := "orders";
       SchemaResponse.description := ""; SchemaResponse.platform_id := "p1";
       SchemaResponse.fields :=
         [{| SchemaField.name := "id"; SchemaField.type := "integer";
             SchemaField.nullable := false; SchemaField.primary_key := true;
             SchemaField.description := None |}];
       SchemaResponse.indexes := []; SchemaResponse.status := "active";
       SchemaResponse.created_at := "0Z"; SchemaResponse.updated_at := "0Z" |} in
  let request :=
    {| SchemaUpdateRequest.description := Some "Orders of the shop";
       SchemaUpdateRequest.fields := None;
       SchemaUpdateRequest.indexes := None |} in
  exists db' updated,
    SchemaApi.update_schema [("schema_1", stored)] "schema_1" request (seconds 5)
      = Done (db', updated) /\
    exists previous,
      PyDict.get [("schema_1", stored)] "schema_1" = Some previous /\
      SchemaResponse.id updated = SchemaResponse.id previous /\
      SchemaResponse.name updated = SchemaResponse.name previous /\
      SchemaResponse.platform_id updated = SchemaResponse.platform_id previous /\
      SchemaResponse.status updated = SchemaResponse.status previous /\
      SchemaResponse.created_at updated = SchemaResponse.created_at previous /\
      SchemaResponse.updated_at updated = SchemaApi._get_timestamp (seconds 5) /\
      PyDict.keys db' = PyDict.keys [("schema_1", stored)] /\
      SchemaApi.get_schema db' "schema_1" = Done updated /\
      forall other,
        other <> "schema_1" ->
        SchemaApi.get_schema db' other
          = SchemaApi.get_schema [("schema_1", stored)] other.
Proof.
  intros stored request. eexists _, _. split; [vm_compute; reflexivity|].
  apply (proj2 (proj2 (update_schema_effect [("schema_1", stored)] "schema_1"
                         request (seconds 5)))).
  vm_compute. reflexivity.
Defined.

Module SoundFacts.
Import SchemaApi StoreFacts.

Lemma primary_key_listed (fields : list SchemaField.t) :
  has_primary_key fields = true ->
  exists f rest, List.filter SchemaField.primary_key fields = f :: rest.
Proof.
  unfold has_primary_key. induction fields as [|f fields IH]; [discriminate|].
  cbn [existsb List.filter]. destruct (SchemaField.primary_key f).
  - intros _. eexists _, _. reflexivity.
  - cbn [orb]. exact IH.
Qed.

Lemma sound_set (schemas_db : store) (k : string) (schema : SchemaResponse.t) :
  sound schemas_db ->
  has_primary_key (SchemaResponse.fields schema) = true ->
  NoDup (map SchemaField.name (SchemaResponse.fields schema)) ->
  sound (PyDict.set schemas_db k schema).
Proof.
  intros Hsound Hpk Hnames k' schema' [Hnew|Hold]%PyDictFacts.in_set.
  - injection Hnew as -> ->. split; assumption.
  - exact (Hsound _ _ Hold).
Qed.

End SoundFacts.

(** X23.  Every schema [create_schema] or [update_schema] stores has a primary
    key field and no two fields of the same name, and [delete_schema] only
    removes: a store in which all schemas are so stays so under the three
    endpoints. *)
Theorem store_stays_sound `{Runtime} `{Calendar} (schemas_db : SchemaApi.store) :
  StoreFacts.sound schemas_db ->
  (forall request utcnow db' schema,
     SchemaApi.create_schema schemas_db request utcnow = Done (db', schema) ->
     StoreFacts.sound db') /\
  (forall schema_id request utcnow db' schema,
     SchemaApi.update_schema schemas_db schema_id request utcnow = Done (db', schema) ->
     StoreFacts.sound db') /\
  (forall schema_id db',
     SchemaApi.delete_schema schemas_db schema_id = Done db' ->
     StoreFacts.sound db').
Proof.
  intros Hsound. split; [|split].
  - intros request utcnow db' schema. unfold SchemaApi.create_schema.
    destruct (SchemaApi.check_fields (SchemaCreateRequest.fields request)) as [[]|r]
      eqn:Hcheck; cbn [mbind outcome_bind]; [|discriminate].
    apply SchemaFacts.check_fields_done in Hcheck as [Hpk Hnames].
    intros [= <- <-]. apply SoundFacts.sound_set; assumption.
  - intros schema_id request utcnow db' schema. unfold SchemaApi.update_schema.
    destruct (PyDict.get schemas_db schema_id) as [stored|] eqn:Hget; [|discriminate].
    destruct (Hsound _ _ (StoreFacts.get_in _ _ _ Hget)) as [Hpk Hnames].
    destruct (SchemaUpdateRequest.fields request) as [fields|].
    + destruct (SchemaApi.check_fields fields) as [[]|r] eqn:Hcheck;
        cbn [mbind outcome_bind]; [|discriminate].
      apply SchemaFacts.check_fields_done in Hcheck as [Hpk' Hnames'].
      intros [= <- <-]. apply SoundFacts.sound_set; assumption.
    + cbn [mbind outcome_bind]. intros [= <- <-].
      apply SoundFacts.sound_set; assumption.
  - intros schema_id db'. unfold SchemaApi.delete_schema.
    destruct (PyDict.mem schemas_db schema_id); cbn [negb]; [|discriminate].
    intros [= <-] k schema Hin. exact (Hsound _ _ (PyDictFacts.in_del _ _ _ _ Hin)).
Qed.

Lemma store_stays_sound_witness :
  let request :=
    {| SchemaCreateRequest.name := "orders"; SchemaCreateRequest.description := "";
       SchemaCreateRequest.platform_id := "p1";
       SchemaCreateRequest.fields :=
         [{| SchemaField.name := "id"; SchemaField.type := "integer";
             SchemaField.nullable := false; SchemaField.primary_key := true;
             SchemaField.description := None |}];
       SchemaCreateRequest.indexes := [] |} in
  exists db' schema,
    SchemaApi.create_schema [] request 0 = Done (db', schema) /\
    StoreFacts.sound db'.
Proof.
  intros request. eexists _, _. split; [vm_compute; reflexivity|].
  refine (proj1 (store_stays_sound [] _) request 0 _ _ _).
  - intros k schema [].
  - vm_compute. reflexivity.
Defined.

(** X24.  On a store in which every schema has a primary key field and distinct
    field names, as the endpoints keep it, the first three checks of
    [validate_schema] never fire: the errors it reports are those of the
    indexes alone, and a schema without indexes is reported valid. *)
Theorem validate_schema_on_sound_store (schemas_db : SchemaApi.store)
    (schema_id : string) (schema : SchemaResponse.t) :
  StoreFacts.sound schemas_db ->
  PyDict.get schemas_db schema_id = Some schema ->
  exists report,
    SchemaApi.validate_schema schemas_db schema_id = Done report /\
    ValidationReport.errors report
      = flat_map
          (SchemaApi.index_errors (map SchemaField.name (SchemaResponse.fields schema)))
          (SchemaResponse.indexes schema) /\
    (SchemaResponse.indexes schema = [] -> ValidationReport.valid report = true).
Proof.
  intros Hsound Hget. unfold SchemaApi.validate_schema. rewrite Hget.
  destruct (Hsound _ _ (StoreFacts.get_in _ _ _ Hget)) as [Hpk Hnames].
  apply SchemaFacts.has_duplicates_false in Hnames.
  destruct (SoundFacts.primary_key_listed _ Hpk) as (f & rest & Hfilter).
  eexists. split; [reflexivity|]. cbn [ValidationReport.errors ValidationReport.valid].
  rewrite Hfilter, Hnames. cbn [length Nat.eqb].
  destruct (SchemaResponse.fields schema) as [|f0 fields] eqn:Hfields; [discriminate|].
  cbn [app]. split; [reflexivity|].
  intros ->. reflexivity.
Qed.

Lemma validate_schema_on_sound_store_witness :
  let schema :=
    {| SchemaResponse.id := "schema_1"; SchemaResponse.name := "orders";
       SchemaResponse.description := ""; SchemaResponse.platform_id := "p1";
       SchemaResponse.fields :=
         [{| SchemaField.name := "id"; SchemaField.type := "integer";
             SchemaField.nullable := false; SchemaField.primary_key := true;
             SchemaField.description := None |}];
       SchemaResponse.indexes := [{| SchemaIndex.name := "by_day";
                                     SchemaIndex.fields := ["day"];
                                     SchemaIndex.unique := false |}];
       SchemaResponse.status := "active";
       SchemaResponse.created_at := "0Z"; SchemaResponse.updated_at := "0Z" |} in
  exists report,
    SchemaApi.validate_schema [("schema_1", schema)] "schema_1" = Done report /\
    ValidationReport.errors report
      = flat_map
          (SchemaApi.index_errors (map SchemaField.name (SchemaResponse.fields schema)))
          (SchemaResponse.indexes schema) /\
    (SchemaResponse.indexes schema = [] -> ValidationReport.valid report = true).
Proof.
  intros schema.
  apply (validate_schema_on_sound_store [("schema_1", schema)] "schema_1" schema).
  - intros k s [[= <- <-]|[]]. split; [reflexivity|].
    apply NoDup_cons. split; [intros Hin; inversion Hin|apply NoDup_nil_2].
  - reflexivity.
Defined.

Module SqlFacts.
Import SchemaApi StoreFacts.

Definition line_feed : ascii := "010"%char.

Lemma type_mapping_one_line (type : string) :
  Str.contains line_feed (type_mapping type) = false.
Proof.
  unfold type_mapping.
  repeat match goal with |- context [String.eqb ?a ?b] => destruct (String.eqb a b) end;
    reflexivity.
Qed.

Lemma field_def_one_line (field : SchemaField.t) :
  Str.contains line_feed (SchemaField.name field) = false ->
  Str.contains line_feed (field_def field) = false.
Proof.
  intros Hname. unfold field_def.
  rewrite !StrFacts.contains_app, Hname, type_mapping_one_line.
  destruct (SchemaField.primary_key field); reflexivity.
Qed.

Lemma join_one_line (sep : string) (parts : list string) :
  Str.contains line_feed sep = false ->
  (forall part, In part parts -> Str.contains line_feed part = false) ->
  Str.contains line_feed (join sep parts) = false.
Proof.
  intros Hsep. induction parts as [|x rest IH]; intros Hparts; [reflexivity|].
  cbn [join]. destruct rest as [|y rest]; [apply Hparts; left; reflexivity|].
  rewrite !StrFacts.contains_app, Hsep, (Hparts x (or_introl eq_refl)).
  cbn [orb]. apply IH. intros part Hin. apply Hparts. right. exact Hin.
Qed.

Lemma count_app (c : ascii) (x y : string) :
  Str.count c (x +:+ y) = (Str.count c x + Str.count c y)%nat.
Proof.
  induction x as [|a x IH]; [reflexivity|].
  rewrite StrFacts.app_cons. cbn [Str.count]. rewrite IH. lia.
Qed.

Lemma count_absent (c : ascii) (s : string) :
  Str.contains c s = false -> Str.count c s = 0%nat.
Proof.
  induction s as [|a s IH]; [reflexivity|].
  cbn [Str.contains Str.count]. intros [-> Hs]%orb_false_iff.
  rewrite (IH Hs). reflexivity.
Qed.

Lemma key_names_with_nullable (flag : SchemaField.t -> bool) (fields : list SchemaField.t) :
  map SchemaField.name
    (List.filter SchemaField.primary_key
       (map (fun f => {| SchemaField.name := SchemaField.name f;
                         SchemaField.type := SchemaField.type f;
                         SchemaField.nullable := flag f;
                         SchemaField.primary_key := SchemaField.primary_key f;
                         SchemaField.description := SchemaField.description f |})
          fields))
  = map SchemaField.name (List.filter SchemaField.primary_key fields).
Proof.
  induction fields as [|f fields IH]; [reflexivity|].
  cbn [map List.filter SchemaField.primary_key].
  destruct (SchemaField.primary_key f); cbn [map SchemaField.name]; rewrite IH; reflexivity.
Qed.

End SqlFacts.

(** X25.  The statement [generate_sql] builds does not depend on the [nullable]
    flags of the fields: a schema stored with any other choice of flags
    gives the same SQL.  The [Nullable] marker follows [primary_key] only. *)
Theorem generate_sql_ignores_nullable (schemas_db : SchemaApi.store) (schema_id : string)
    (schema : SchemaResponse.t) (flag : SchemaField.t -> bool) :
  SchemaApi.generate_sql
    (PyDict.set schemas_db schema_id (StoreFacts.with_nullable flag schema)) schema_id
  = Done (SchemaApi.sql_of schema).
Proof.
  unfold SchemaApi.generate_sql. rewrite PyDictFacts.get_set_eq. f_equal.
  unfold SchemaApi.sql_of, StoreFacts.with_nullable.
  cbn [SchemaResponse.name SchemaResponse.platform_id SchemaResponse.created_at
       SchemaResponse.fields].
  rewrite SqlFacts.key_names_with_nullable, map_map. reflexivity.
Qed.

(** X26.  The statement [generate_sql] returns has eight line breaks, however
    many fields the schema has (its name, platform, creation stamp and
    field names holding none): the column definitions are joined by a
    comma, a backslash and the letter n, which is how Python 3.12 reads the
    separator written inside the f-string, and not by a line break. *)
Theorem generate_sql_line_breaks (schemas_db : SchemaApi.store) (schema_id : string)
    (schema : SchemaResponse.t) :
  PyDict.get schemas_db schema_id = Some schema ->
  Str.contains SqlFacts.line_feed (SchemaResponse.name schema) = false ->
  Str.contains SqlFacts.line_feed (SchemaResponse.platform_id schema) = false ->
  Str.contains SqlFacts.line_feed (SchemaResponse.created_at schema) = false ->
  (forall field, In field (SchemaResponse.fields schema) ->
                 Str.contains SqlFacts.line_feed (SchemaField.name field) = false) ->
  exists sql,
    SchemaApi.generate_sql schemas_db schema_id = Done sql /\
    Str.count SqlFacts.line_feed sql = 8%nat.
Proof.
  intros Hget Hname Hplatform Hcreated Hfields.
  unfold SchemaApi.generate_sql. rewrite Hget. eexists. split; [reflexivity|].
  assert (Hdefs : Str.count SqlFacts.line_feed
                    (SchemaApi.join ",\n"
                       (map SchemaApi.field_def (SchemaResponse.fields schema))) = 0%nat).
  { apply SqlFacts.count_absent, SqlFacts.join_one_line; [reflexivity|].
    intros part (field & <- & Hin)%in_map_iff.
    apply SqlFacts.field_def_one_line, Hfields, Hin. }
  assert (Hkeys : Str.count SqlFacts.line_feed
                    (SchemaApi.join ", "
                       (map SchemaField.name
                          (List.filter SchemaField.primary_key
                             (SchemaResponse.fields schema)))) = 0%nat).
  { apply SqlFacts.count_absent, SqlFacts.join_one_line; [reflexivity|].
    intros part (field & <- & [Hin _]%filter_In)%in_map_iff.
    apply Hfields, Hin. }
  unfold SchemaApi.sql_of.
  rewrite !SqlFacts.count_app, Hdefs, Hkeys,
    !(SqlFacts.count_absent _ _ Hname), (SqlFacts.count_absent _ _ Hplatform),
    (SqlFacts.count_absent _ _ Hcreated).
  reflexivity.
Qed.

Lemma generate_sql_line_breaks_witness :
  let field name key :=
    {| SchemaField.name := name; SchemaField.type := "integer";
       SchemaField.nullable := false; SchemaField.primary_key := key;
       SchemaField.description := None |} in
  let schema :=
    {| SchemaResponse.id := "schema_1"; SchemaResponse.name := "orders";
       SchemaResponse.description := ""; SchemaResponse.platform_id := "p1";
       SchemaResponse.fields := [field "id" true; field "total" false; field "day" false];
       SchemaResponse.indexes := []; SchemaResponse.status := "active";
       SchemaResponse.created_at := "0Z"; SchemaResponse.updated_at := "0Z" |} in
  exists sql,
    SchemaApi.generate_sql [("schema_1", schema)] "schema_1" = Done sql /\
    Str.count SqlFacts.line_feed sql = 8%nat.
Proof.
  intros field schema.
  apply (generate_sql_line_breaks [("schema_1", schema)] "schema_1" schema);
    try reflexivity.
  intros f [<-|[<-|[<-|[]]]]; reflexivity.
Defined.

(** X27.  [UserCreate] accepts exactly an address [EmailStr] accepts, a password
    of 8 to 100 characters and a full name that is absent or has 1 to 255
    characters, the characters being code points; the password is stored as
    given.  The [password_strength] validator never rejects a password: the
    length bound of the field has refused the short ones before it runs. *)
Theorem UserCreate_new_accepts `{Runtime} (email password : string)
    (full_name : option string) (user : UserCreate.t) :
  Schemas.UserCreate_new email password full_name = Ok user <->
  validate_email email = Some (UserCreate.email user) /\
  UserCreate.password user = password /\
  UserCreate.full_name user = full_name /\
  (8 <= Str.code_points password <= 100)%nat /\
  match full_name with
  | None => True
  | Some n => (1 <= Str.code_points n <= 255)%nat
  end.
Proof.
  unfold Schemas.UserCreate_new, Schemas.password_strength, Schemas.length_within.
  generalize (Str.code_points password). intros lp.
  destruct full_name as [n|]; [generalize (Str.code_points n); intros ln|];
    destruct (validate_email email) as [e|];
    destruct (8 <=? lp)%nat eqn:Hlo;
    destruct (lp <=? 100)%nat eqn:Hhi;
    destruct (lp <? 8)%nat eqn:Hshort;
    try (destruct (1 <=? ln)%nat eqn:Hn1;
         destruct (ln <=? 255)%nat eqn:Hn2);
    cbn [andb];
    repeat match goal with
      | Hx : (_ <=? _)%nat = true |- _ => apply Nat.leb_le in Hx
      | Hx : (_ <=? _)%nat = false |- _ => apply Nat.leb_gt in Hx
      | Hx : (_ <? _)%nat = true |- _ => apply Nat.ltb_lt in Hx
      | Hx : (_ <? _)%nat = false |- _ => apply Nat.ltb_ge in Hx
      end;
    (split;
     [ try discriminate; intros [= <-];
       cbn [UserCreate.email UserCreate.password UserCreate.full_name];
       repeat split; lia
     | intros (He & Hp & Hf & Hlen & Hn); try discriminate; try lia;
       destruct user as [ue uf up];
       cbn [UserCreate.email UserCreate.password UserCreate.full_name] in He, Hp, Hf;
       injection He as <-; subst; reflexivity ]).
Qed.

Lemma UserCreate_new_accepts_witness :
  let accent := String "195" (String "169" "") in
  let password :=
    accent +:+ accent +:+ accent +:+ accent +:+ accent +:+ accent +:+ accent +:+ accent in
  String.length password = 16%nat /\
  Schemas.UserCreate_new (H := reference_runtime) "ada@example.com" password None
  = Ok {| UserCreate.email := "ada@example.com"; UserCreate.full_name := None;
          UserCreate.password := password |}.
Proof.
  intros accent password. split; [reflexivity|].
  apply (proj2 (UserCreate_new_accepts (H := reference_runtime) "ada@example.com"
                  password None _)).
  repeat split; apply Nat.leb_le; vm_compute; reflexivity.
Defined.
